(** * A shallow embedding of the reverse proxy's credential pool and of its
      Kobold response stage.

    The pool ([KeyPool], key-management) owns an array of [Key] objects that
    it mutates in place and sometimes hands out by reference; the response
    stage ([handleProxiedResponse], proxy/kobold) reads the upstream body,
    reshapes it and writes the client response.

    Conventions of the model:
    - a JavaScript string or Buffer is a [string] of 8-bit code units
      ([body.toString()] and the implicit encoding of [res.send] are the
      identity on them);
    - objects live in a store ([heap]) and are named by locations, so that
      two names of one object see each other's writes;
    - [Date.now()] is an argument of the operation that reads it;
    - a thrown exception is the [Throw] result;
    - log calls are left out: no operation reads the log. *)

From Stdlib Require Import ZArith NArith QArith Lia Lqa Bool String Ascii List.
From stdpp Require Import base list.
Import ListNotations.
Local Open Scope string_scope.
Local Open Scope Z_scope.
Local Open Scope list_scope.

(** ** JavaScript strings *)

Module JsString.

(** White space removed by [String.prototype.trim], among code units below
    256: TAB, LF, VT, FF, CR, SPACE and NBSP. *)
Definition isWhiteSpace (c : ascii) : bool :=
  let n := N_of_ascii c in
  ((9 <=? n) && (n <=? 13) || (n =? 32) || (n =? 160))%N.

Fixpoint trimStart (s : string) : string :=
  match s with
  | EmptyString => EmptyString
  | String c s' => if isWhiteSpace c then trimStart s' else s
  end.

(** [trimEnd] keeps a character when it is not white space or when
    something is kept after it. *)
Fixpoint trimEnd (s : string) : string :=
  match s with
  | EmptyString => EmptyString
  | String c s' =>
      match trimEnd s' with
      | EmptyString => if isWhiteSpace c then EmptyString else String c EmptyString
      | r => String c r
      end
  end.

Definition trim (s : string) : string := trimEnd (trimStart s).

(** [s.split(sep)] for a one-character separator: the pieces between the
    separators, in order; never the empty list. *)
Fixpoint split (sep : ascii) (s : string) : list string :=
  match s with
  | EmptyString => [EmptyString]
  | String c s' =>
      if Ascii.eqb c sep then EmptyString :: split sep s'
      else match split sep s' with
           | p :: ps => String c p :: ps
           | [] => [String c EmptyString]
           end
  end.

Definition startsWith (s p : string) : bool := String.prefix p s.

(** [s.slice(0, n)]. *)
Definition slice0 (n : nat) (s : string) : string := String.substring 0 n s.

Definition isEmpty (s : string) : bool :=
  match s with EmptyString => true | _ => false end.

End JsString.

(** ** SHA-256 (FIPS 180-4), for [crypto.createHash("sha256")] *)

Module Sha256.
Local Open Scope N_scope.

Definition w32 (x : N) : N := N.land x 0xffffffff.
Definition add32 (a b : N) : N := w32 (a + b).
Definition rotr (n x : N) : N := N.lor (N.shiftr x n) (w32 (N.shiftl x (32 - n))).
Definition shr (n x : N) : N := N.shiftr x n.
Definition not32 (x : N) : N := N.lxor x 0xffffffff.

Definition Ch (x y z : N) : N := N.lxor (N.land x y) (N.land (not32 x) z).
Definition Maj (x y z : N) : N :=
  N.lxor (N.lxor (N.land x y) (N.land x z)) (N.land y z).
Definition bsig0 (x : N) : N := N.lxor (N.lxor (rotr 2 x) (rotr 13 x)) (rotr 22 x).
Definition bsig1 (x : N) : N := N.lxor (N.lxor (rotr 6 x) (rotr 11 x)) (rotr 25 x).
Definition ssig0 (x : N) : N := N.lxor (N.lxor (rotr 7 x) (rotr 18 x)) (shr 3 x).
Definition ssig1 (x : N) : N := N.lxor (N.lxor (rotr 17 x) (rotr 19 x)) (shr 10 x).

(** The first 64 primes. *)
Definition isPrime (n : nat) : bool :=
  List.forallb (fun d => negb (n mod d =? 0)%nat) (List.seq 2 (n - 2)).

Definition primes : list N :=
  List.map N.of_nat (List.filter isPrime (List.seq 2 310)).

(** The integer cube root, bit by bit from the top. *)
Fixpoint cubeRoot (bits : nat) (r n : N) : N :=
  match bits with
  | O => r
  | S b =>
      let c := r + N.shiftl 1 (N.of_nat b) in
      cubeRoot b (if c * c * c <=? n then c else r) n
  end.

(** The round constants: the first 32 bits of the fractional parts of the
    cube roots of the first 64 primes. *)
Definition K : list N :=
  List.map (fun q => w32 (cubeRoot 36 0 (N.shiftl q 96))) primes.

(** The initial hash value: the same of the square roots of the first 8. *)
Definition H0 : list N :=
  List.map (fun q => w32 (N.sqrt (N.shiftl q 64))) (List.firstn 8 primes).

Definition bytes_of (s : string) : list N :=
  List.map N_of_ascii (list_ascii_of_string s).

(** The message, the byte 0x80, zero bytes up to 56 modulo 64, then the
    bit length on eight bytes, most significant first. *)
Definition pad (msg : list N) : list N :=
  let len := List.length msg in
  let zeros := ((64 - (len + 9) mod 64) mod 64)%nat in
  let bits := 8 * N.of_nat len in
  msg ++ [0x80] ++ List.repeat 0 zeros
      ++ List.map (fun i => N.land (N.shiftr bits (8 * i)) 0xff) [7; 6; 5; 4; 3; 2; 1; 0].

Fixpoint words (fuel : nat) (bs : list N) : list N :=
  match fuel, bs with
  | S fuel', a :: b :: c :: d :: rest =>
      (N.shiftl a 24 + N.shiftl b 16 + N.shiftl c 8 + d) :: words fuel' rest
  | _, _ => []
  end.

Fixpoint blocks (fuel : nat) (ws : list N) : list (list N) :=
  match fuel, ws with
  | S fuel', _ :: _ => List.firstn 16 ws :: blocks fuel' (List.skipn 16 ws)
  | _, _ => []
  end.

Definition at_ (ws : list N) (i : nat) : N := List.nth i ws 0.

Fixpoint schedule (n : nat) (ws : list N) : list N :=
  match n with
  | O => ws
  | S n' =>
      let t := List.length ws in
      schedule n'
        (ws ++ [add32 (add32 (ssig1 (at_ ws (t - 2))) (at_ ws (t - 7)))
                      (add32 (ssig0 (at_ ws (t - 15))) (at_ ws (t - 16)))])
  end.

Record regs := Regs { ra : N; rb : N; rc : N; rd : N; re : N; rf : N; rg : N; rh : N }.

Definition round (r : regs) (kw : N * N) : regs :=
  let t1 := add32 (add32 (add32 (rh r) (bsig1 (re r))) (Ch (re r) (rf r) (rg r)))
                  (add32 (fst kw) (snd kw)) in
  let t2 := add32 (bsig0 (ra r)) (Maj (ra r) (rb r) (rc r)) in
  Regs (add32 t1 t2) (ra r) (rb r) (rc r) (add32 (rd r) t1) (re r) (rf r) (rg r).

Definition compress (h : regs) (block : list N) : regs :=
  let r := List.fold_left round (List.combine K (schedule 48 block)) h in
  Regs (add32 (ra h) (ra r)) (add32 (rb h) (rb r)) (add32 (rc h) (rc r))
       (add32 (rd h) (rd r)) (add32 (re h) (re r)) (add32 (rf h) (rf r))
       (add32 (rg h) (rg r)) (add32 (rh h) (rh r)).

Definition init : regs :=
  Regs (at_ H0 0) (at_ H0 1) (at_ H0 2) (at_ H0 3) (at_ H0 4) (at_ H0 5) (at_ H0 6) (at_ H0 7).

Definition hexDigit (n : N) : ascii :=
  if n <? 10 then ascii_of_N (48 + n) else ascii_of_N (87 + n).

Definition hex32 (x : N) : string :=
  string_of_list_ascii
    (List.map (fun i => hexDigit (N.land (N.shiftr x (4 * i)) 0xf)) [7; 6; 5; 4; 3; 2; 1; 0]).

(** [createHash("sha256").update(s).digest("hex")] *)
Definition digestHex (s : string) : string :=
  let p := pad (bytes_of s) in
  let n := List.length p in
  let r := List.fold_left compress (blocks n (words n p)) init in
  String.concat EmptyString
    [hex32 (ra r); hex32 (rb r); hex32 (rc r); hex32 (rd r);
     hex32 (re r); hex32 (rf r); hex32 (rg r); hex32 (rh r)].

End Sha256.

(** ** Exceptions and results *)

(** The exceptions the modelled code can raise: [Error] is what the code
    throws itself ([throw new Error(message)]); the others are raised by the
    runtime or by a library. *)
Inductive exn : Type :=
  | Error (message : string)
  | TypeError (message : string)
  | SyntaxError (message : string)
  | ZlibError (message : string).

Inductive result (A : Type) : Type :=
  | Ok (a : A)
  | Throw (e : exn).
Arguments Ok {A} a.
Arguments Throw {A} e.

#[export] Instance result_ret : MRet result := fun _ a => Ok a.
#[export] Instance result_bind : MBind result :=
  fun _ _ f m => match m with Ok a => f a | Throw e => Throw e end.

Definition returns {A} (r : result A) : bool :=
  match r with Ok _ => true | Throw _ => false end.

(** ** Numbers

    The quota fields and the quota fraction are JavaScript numbers.  The
    model keeps a finite number as an exact rational and adds the three
    non-finite results that IEEE 754 division produces. *)

Inductive number : Type :=
  | Fin (q : Q)
  | NaN
  | PosInfinity
  | NegInfinity.

Module Num.
Local Open Scope Q_scope.

(** [a / b] on finite operands: [0/0] is [NaN], [x/0] is an infinity of
    the sign of [x]. *)
Definition div (a b : Q) : number :=
  if Qeq_bool b 0 then
    (if Qeq_bool a 0 then NaN
     else if Qle_bool 0 a then PosInfinity else NegInfinity)
  else Fin (a / b).

(** [1 - x] *)
Definition oneMinus (x : number) : number :=
  match x with
  | Fin q => Fin (1 - q)
  | NaN => NaN
  | PosInfinity => NegInfinity
  | NegInfinity => PosInfinity
  end.

(** [Math.min] on finite operands. *)
Definition min (a b : Q) : Q := if Qle_bool a b then a else b.

Definition isFinite (x : number) : bool :=
  match x with Fin _ => true | _ => false end.
End Num.

(** ** Key objects and the object store *)

Record Key : Type := mkKey {
  key : option string;     (* the secret; [None] is [undefined] *)
  isTrial : bool;
  isGpt4 : bool;
  isDisabled : bool;
  softLimit : Q;
  hardLimit : Q;
  systemHardLimit : Q;
  usage : Q;
  promptCount : Z;
  lastUsed : Z;
  lastChecked : Z;
  hash : string
}.

Definition set_key (v : option string) (k : Key) : Key :=
  mkKey v (isTrial k) (isGpt4 k) (isDisabled k) (softLimit k) (hardLimit k)
        (systemHardLimit k) (usage k) (promptCount k) (lastUsed k) (lastChecked k) (hash k).
Definition set_isGpt4 (v : bool) (k : Key) : Key :=
  mkKey (key k) (isTrial k) v (isDisabled k) (softLimit k) (hardLimit k)
        (systemHardLimit k) (usage k) (promptCount k) (lastUsed k) (lastChecked k) (hash k).
Definition set_isDisabled (v : bool) (k : Key) : Key :=
  mkKey (key k) (isTrial k) (isGpt4 k) v (softLimit k) (hardLimit k)
        (systemHardLimit k) (usage k) (promptCount k) (lastUsed k) (lastChecked k) (hash k).
Definition set_promptCount (v : Z) (k : Key) : Key :=
  mkKey (key k) (isTrial k) (isGpt4 k) (isDisabled k) (softLimit k) (hardLimit k)
        (systemHardLimit k) (usage k) v (lastUsed k) (lastChecked k) (hash k).
Definition set_lastUsed (v : Z) (k : Key) : Key :=
  mkKey (key k) (isTrial k) (isGpt4 k) (isDisabled k) (softLimit k) (hardLimit k)
        (systemHardLimit k) (usage k) (promptCount k) v (lastChecked k) (hash k).

(** [KeyUpdate]: the fields a health check may supply, each optional. *)
Record KeyUpdate : Type := mkKeyUpdate {
  u_isTrial : option bool;
  u_isGpt4 : option bool;
  u_softLimit : option Q;
  u_hardLimit : option Q;
  u_systemHardLimit : option Q;
  u_usage : option Q
}.

(** [Object.assign(k, { ...u, lastChecked: now })] on the fields of [k]. *)
Definition assignUpdate (u : KeyUpdate) (now : Z) (k : Key) : Key :=
  mkKey (key k)
        (default (isTrial k) (u_isTrial u))
        (default (isGpt4 k) (u_isGpt4 u))
        (isDisabled k)
        (default (softLimit k) (u_softLimit u))
        (default (hardLimit k) (u_hardLimit u))
        (default (systemHardLimit k) (u_systemHardLimit u))
        (default (usage k) (u_usage u))
        (promptCount k) (lastUsed k) now (hash k).

Record obj : Type := mkObj { fields : Key; frozen : bool }.

Abbreviation loc := nat.
Abbreviation heap := (list obj).

Definition noKey : Key := mkKey None false false false 0 0 0 0 0 0 0 EmptyString.

(** Reading through a reference. *)
Definition rd (h : heap) (l : loc) : Key :=
  match h !! l with Some o => fields o | None => noKey end.

Definition isFrozen (h : heap) (l : loc) : bool :=
  match h !! l with Some o => frozen o | None => false end.

(** An assignment to properties of the object at [l]: refused with a
    [TypeError] when the object is frozen (module code is strict). *)
Definition write (l : loc) (f : Key -> Key) (h : heap) : result heap :=
  match h !! l with
  | Some o =>
      if frozen o then Throw (TypeError "Cannot assign to read only property")
      else Ok (<[l := mkObj (f (fields o)) false]> h)
  | None => Ok h
  end.

(** A new object: it gets the next free location. *)
Definition alloc (o : obj) (h : heap) : loc * heap := (length h, h ++ [o]).

(** ** [Array.prototype.sort] with a comparator

    The sort is stable; with a comparator that is a total preorder every
    stable sort gives the same array, here by insertion. *)

Fixpoint insertBy {A : Type} (cmp : A -> A -> Z) (x : A) (l : list A) : list A :=
  match l with
  | [] => [x]
  | y :: l' => if cmp x y <=? 0 then x :: l else y :: insertBy cmp x l'
  end.

Definition sortBy {A : Type} (cmp : A -> A -> Z) (l : list A) : list A :=
  List.fold_right (insertBy cmp) [] l.

(** ** The credential pool *)

Module KeyPool.

(** [this.keys]: the array of references to the pool's records.  The array
    itself only grows, and only in the constructor. *)
Record t : Type := mk { keys : list loc }.

Definition newKey (k : string) : Key :=
  {| key := Some k;
     isGpt4 := false;
     isTrial := false;
     isDisabled := false;
     softLimit := 0;
     hardLimit := 0;
     systemHardLimit := 0;
     usage := 0;
     lastUsed := 0;
     lastChecked := 0;
     promptCount := 0;
     hash := JsString.slice0 6 (Sha256.digestHex k) |}.

Definition pushKey (st : list loc * heap) (k : string) : list loc * heap :=
  let (l, h') := alloc (mkObj (newKey k) false) (snd st) in
  (fst st ++ [l], h').

Definition notSet : string := "OPENAI_KEY environment variable is not set".

(** [new KeyPool()], reading [config.openaiKey]. *)
Definition constructor (openaiKey : option string) (h : heap) : result (t * heap) :=
  match openaiKey with
  | None => Throw (Error notSet)
  | Some keyString =>
      if JsString.isEmpty (JsString.trim keyString) then Throw (Error notSet)
      else
        let bareKeys := List.map JsString.trim (JsString.split "," keyString) in
        let (ks, h') := List.fold_left pushKey bareKeys ([], h) in
        Ok (mk ks, h')
  end.

Definition noKeys : string := "No keys available. Please add more keys.".
Definition noGpt4Keys : string :=
  "No GPT-4 keys available. Please add more keys or use a non-GPT-4 model.".

Definition needsGpt4 (model : string) : bool := JsString.startsWith model "gpt-4".

(** The filter of [get]. *)
Definition availableKeys (needsGpt4Key : bool) (p : t) (h : heap) : list loc :=
  List.filter
    (fun l => negb (isDisabled (rd h l)) && (negb needsGpt4Key || isGpt4 (rd h l)))
    (keys p).

Definition byLastUsed (h : heap) (a b : loc) : Z := lastUsed (rd h a) - lastUsed (rd h b).

Definition get (model : string) (now : Z) (p : t) (h : heap) : result (loc * heap) :=
  let needsGpt4Key := needsGpt4 model in
  let available := availableKeys needsGpt4Key p h in
  if (length available =? 0)%nat then
    Throw (Error (if needsGpt4Key then noGpt4Keys else noKeys))
  else
    match List.filter (fun l => isTrial (rd h l)) available with
    | trial0 :: _ =>
        h' ← write trial0 (set_lastUsed now) h;
        Ok (trial0, h')
    | [] =>
        match sortBy (byLastUsed h) available with
        | oldestKey :: _ =>
            h' ← write oldestKey (set_lastUsed now) h;
            Ok (alloc (mkObj (rd h' oldestKey) false) h')
        | [] => Throw (TypeError "Cannot read properties of undefined (reading 'hash')")
        end
    end.

Definition findByHash (keyHash : string) (p : t) (h : heap) : option loc :=
  List.find (fun l => String.eqb (hash (rd h l)) keyHash) (keys p).

Definition update (keyHash : string) (u : KeyUpdate) (now : Z) (p : t) (h : heap)
  : result heap :=
  match findByHash keyHash p h with
  | Some keyFromPool => write keyFromPool (assignUpdate u now) h
  | None => Throw (TypeError "Cannot convert undefined or null to object")
  end.

Definition sameSecret (a b : option string) : bool :=
  match a, b with
  | Some x, Some y => String.eqb x y
  | None, None => true
  | _, _ => false
  end.

(** [disable(key)]: [key] is a reference to some Key object. *)
Definition disable (arg : loc) (p : t) (h : heap) : result heap :=
  match List.find (fun l => sameSecret (key (rd h l)) (key (rd h arg))) (keys p) with
  | Some keyFromPool =>
      if isDisabled (rd h keyFromPool) then Ok h
      else write keyFromPool (set_isDisabled true) h
  | None => Throw (TypeError "Cannot read properties of undefined (reading 'isDisabled')")
  end.

Definition anyAvailable (p : t) (h : heap) : bool :=
  List.existsb (fun l => negb (isDisabled (rd h l))) (keys p).

Definition anyUnchecked (checkKeys : bool) (p : t) (h : heap) : bool :=
  checkKeys && List.existsb (fun l => lastChecked (rd h l) =? 0) (keys p).

(** [!keyHash]: absent or empty. *)
Definition falsy (keyHash : option string) : bool :=
  match keyHash with None => true | Some s => JsString.isEmpty s end.

Definition incrementPrompt (keyHash : option string) (p : t) (h : heap) : result heap :=
  match keyHash with
  | Some kh =>
      if JsString.isEmpty kh then Ok h
      else match findByHash kh p h with
           | Some k => write k (fun o => set_promptCount (promptCount o + 1) o) h
           | None => Throw (TypeError "Cannot read properties of undefined (reading 'promptCount')")
           end
  | None => Ok h
  end.

Definition downgradeKey (keyHash : option string) (p : t) (h : heap) : result heap :=
  match keyHash with
  | Some kh =>
      if JsString.isEmpty kh then Ok h
      else match findByHash kh p h with
           | Some k => write k (set_isGpt4 false) h
           | None => Throw (TypeError "Cannot set properties of undefined (setting 'isGpt4')")
           end
  | None => Ok h
  end.

Definition totalUsage (h : heap) (ks : list loc) : Q :=
  List.fold_left (fun acc l => acc + Num.min (usage (rd h l)) (hardLimit (rd h l)))%Q ks 0%Q.

Definition totalLimit (h : heap) (ks : list loc) : Q :=
  List.fold_left (fun acc l => acc + hardLimit (rd h l))%Q ks 0%Q.

Definition calculateRemainingQuota (gpt4Only : bool) (p : t) (h : heap) : number :=
  let ks := if gpt4Only then List.filter (fun l => isGpt4 (rd h l)) (keys p) else keys p in
  if (length ks =? 0)%nat then Fin 0
  else Num.oneMinus (Num.div (totalUsage h ks) (totalLimit h ks)).

Definition freezeCopy (st : list loc * heap) (l : loc) : list loc * heap :=
  let (l', h') := alloc (mkObj (set_key None (rd (snd st) l)) true) (snd st) in
  (fst st ++ [l'], h').

(** [list()]: a new array of new frozen objects. *)
Definition list (p : t) (h : heap) : list loc * heap :=
  List.fold_left freezeCopy (keys p) ([], h).

End KeyPool.

(** The pool over an empty store, for the examples. *)
Definition poolOf (openaiKey : string) : result (KeyPool.t * heap) :=
  KeyPool.constructor (Some openaiKey) [].

Definition hashesOf (r : result (KeyPool.t * heap)) : list string :=
  match r with
  | Ok (p, h) => List.map (fun l => hash (rd h l)) (KeyPool.keys p)
  | Throw _ => []
  end.

(** ** JSON values *)

(** What [JSON.parse] returns, and [Undefined] for a property that is not
    there.  A number is carried as the text [JSON.stringify] prints for it:
    the stage only passes numbers through.  The properties of an object are
    listed in enumeration order, each name once. *)
#[warnings="-register-all"]
Inductive value : Type :=
  | Undefined
  | Null
  | Boolean (b : bool)
  | Number (text : string)
  | Str (s : string)
  | Arr (items : list value)
  | Obj (props : list (string * value)).

Module Json.

Definition dq : ascii := ascii_of_nat 34.
Definition backslash : ascii := ascii_of_nat 92.

Fixpoint lookupProp (name : string) (props : list (string * value)) : value :=
  match props with
  | [] => Undefined
  | (k, v) :: rest => if String.eqb k name then v else lookupProp name rest
  end.

Definition readOfNullish (name : string) : exn :=
  TypeError (String.append "Cannot read properties of undefined or null, reading " name).

(** [v.name] for a [name] that no prototype defines (such are [choices],
    [message], [content] and [model]): a [TypeError] on [undefined] and
    [null], the own property of an object, [undefined] on anything else. *)
Definition getProp (v : value) (name : string) : result value :=
  match v with
  | Undefined | Null => Throw (readOfNullish name)
  | Obj props => Ok (lookupProp name props)
  | _ => Ok Undefined
  end.

(** [v[0]] *)
Definition getFirst (v : value) : result value :=
  match v with
  | Undefined | Null => Throw (readOfNullish "0")
  | Arr items => Ok (match items with x :: _ => x | [] => Undefined end)
  | Str s => Ok (match s with String c _ => Str (String c EmptyString) | EmptyString => Undefined end)
  | Obj props => Ok (lookupProp "0" props)
  | _ => Ok Undefined
  end.

Definition hexChar (n : N) : ascii :=
  if (n <? 10)%N then ascii_of_N (48 + n) else ascii_of_N (87 + n).

Definition escapeChar (c : ascii) : string :=
  let n := N_of_ascii c in
  if (n =? 34)%N then String backslash (String dq EmptyString)
  else if (n =? 92)%N then String backslash (String backslash EmptyString)
  else if (n =? 8)%N then String backslash "b"
  else if (n =? 12)%N then String backslash "f"
  else if (n =? 10)%N then String backslash "n"
  else if (n =? 13)%N then String backslash "r"
  else if (n =? 9)%N then String backslash "t"
  else if (n <? 32)%N then
    String backslash
      (String "u" (String "0" (String "0"
         (String (hexChar (n / 16)) (String (hexChar (n mod 16)) EmptyString)))))
  else String c EmptyString.

Fixpoint escape (s : string) : string :=
  match s with
  | EmptyString => EmptyString
  | String c s' => String.append (escapeChar c) (escape s')
  end.

Definition quote (s : string) : string :=
  String dq (String.append (escape s) (String dq EmptyString)).

(** [JSON.stringify]: a property whose value is [undefined] is left out, an
    [undefined] array element is printed as [null]. *)
Fixpoint stringify (v : value) : string :=
  match v with
  | Undefined => "null"
  | Null => "null"
  | Boolean b => if b then "true" else "false"
  | Number text => text
  | Str s => quote s
  | Arr items =>
      String.append "[" (String.append (String.concat "," (List.map stringify items)) "]")
  | Obj props =>
      let member :=
        fix member (ps : list (string * value)) : list string :=
          match ps with
          | [] => []
          | (_, Undefined) :: rest => member rest
          | (k, x) :: rest =>
              String.append (quote k) (String.append ":" (stringify x)) :: member rest
          end in
      String.append "{" (String.append (String.concat "," (member props)) "}")
  end.

End Json.

(** ** A reference [JSON.parse]

    An executable parser for the examples.  It follows the JSON grammar and
    agrees with [JSON.parse] on what it accepts; it declines (as a syntax
    error) three things the model has no exact carrier for: a number with a
    fraction, an exponent or more than 15 digits, a [\u] escape above 7F,
    and a property name that is an array index. *)

Module JsonParse.

Definition isWs (c : ascii) : bool :=
  let n := N_of_ascii c in ((n =? 32) || (n =? 9) || (n =? 10) || (n =? 13))%N.

Fixpoint skipWs (s : string) : string :=
  match s with
  | String c s' => if isWs c then skipWs s' else s
  | EmptyString => EmptyString
  end.

Definition isDigit (c : ascii) : bool :=
  let n := N_of_ascii c in ((48 <=? n) && (n <=? 57))%N.

Definition hexVal (c : ascii) : option N :=
  let n := N_of_ascii c in
  if ((48 <=? n) && (n <=? 57))%N then Some (n - 48)%N
  else if ((97 <=? n) && (n <=? 102))%N then Some (n - 87)%N
  else if ((65 <=? n) && (n <=? 70))%N then Some (n - 55)%N
  else None.

Definition simpleEscape (c : ascii) : option ascii :=
  let n := N_of_ascii c in
  if (n =? 34)%N then Some Json.dq
  else if (n =? 92)%N then Some Json.backslash
  else if (n =? 47)%N then Some "/"%char
  else if (n =? 98)%N then Some (ascii_of_nat 8)
  else if (n =? 102)%N then Some (ascii_of_nat 12)
  else if (n =? 110)%N then Some (ascii_of_nat 10)
  else if (n =? 114)%N then Some (ascii_of_nat 13)
  else if (n =? 116)%N then Some (ascii_of_nat 9)
  else None.

(** The characters of a string literal after its opening quote, and what
    follows the closing quote. *)
Fixpoint chars (s : string) : option (string * string) :=
  match s with
  | EmptyString => None
  | String c s' =>
      if Ascii.eqb c Json.dq then Some (EmptyString, s')
      else if Ascii.eqb c Json.backslash then
        match s' with
        | String e s'' =>
            if Ascii.eqb e "u" then
              match s'' with
              | String a (String b (String c' (String d r))) =>
                  match hexVal a, hexVal b, hexVal c', hexVal d with
                  | Some 0%N, Some 0%N, Some x, Some y =>
                      if (x <? 8)%N then
                        match chars r with
                        | Some (t, rest) => Some (String (ascii_of_N (16 * x + y)) t, rest)
                        | None => None
                        end
                      else None
                  | _, _, _, _ => None
                  end
              | _ => None
              end
            else
              match simpleEscape e with
              | Some x =>
                  match chars s'' with
                  | Some (t, rest) => Some (String x t, rest)
                  | None => None
                  end
              | None => None
              end
        | EmptyString => None
        end
      else if (N_of_ascii c <? 32)%N then None
      else
        match chars s' with
        | Some (t, rest) => Some (String c t, rest)
        | None => None
        end
  end.

Fixpoint digits (s : string) : string * string :=
  match s with
  | String c s' =>
      if isDigit c then let (d, r) := digits s' in (String c d, r) else (EmptyString, s)
  | EmptyString => (EmptyString, EmptyString)
  end.

Definition startsFraction (s : string) : bool :=
  match s with
  | String c _ => Ascii.eqb c "." || Ascii.eqb c "e" || Ascii.eqb c "E"
  | EmptyString => false
  end.

(** An integer literal: no leading zero, at most 15 digits, nothing of a
    fraction or exponent after it.  [-0] prints as [0]. *)
Definition number (s : string) : option (value * string) :=
  let (neg, s1) :=
    match s with
    | String c r => if Ascii.eqb c "-" then (true, r) else (false, s)
    | EmptyString => (false, s)
    end in
  let (d, rest) := digits s1 in
  match d with
  | EmptyString => None
  | String c d' =>
      if Ascii.eqb c "0" && negb (JsString.isEmpty d') then None
      else if startsFraction rest then None
      else if (15 <? String.length d)%nat then None
      else if String.eqb d "0" then Some (Number "0", rest)
      else Some (Number (if neg then String "-" d else d), rest)
  end.

Fixpoint allDigits (s : string) : bool :=
  match s with
  | EmptyString => true
  | String c s' => isDigit c && allDigits s'
  end.

Definition isIndexName (k : string) : bool :=
  negb (JsString.isEmpty k) && allDigits k.

(** Defining a property: a name already there keeps its place and takes the
    new value. *)
Fixpoint setProp (k : string) (v : value) (props : list (string * value))
  : list (string * value) :=
  match props with
  | [] => [(k, v)]
  | (k', v') :: rest =>
      if String.eqb k' k then (k', v) :: rest else (k', v') :: setProp k v rest
  end.

Definition literal (word : string) (v : value) (s : string) : option (value * string) :=
  if String.prefix word s
  then Some (v, String.substring (String.length word) (String.length s - String.length word) s)
  else None.

Fixpoint parseValue (fuel : nat) (s : string) : option (value * string) :=
  match fuel with
  | O => None
  | S fuel' =>
      let elements :=
        fix elements (n : nat) (acc : list value) (s : string) : option (value * string) :=
          match n with
          | O => None
          | S n' =>
              match parseValue fuel' s with
              | Some (v, r) =>
                  match skipWs r with
                  | String c r' =>
                      if Ascii.eqb c "," then elements n' (acc ++ [v]) r'
                      else if Ascii.eqb c "]" then Some (Arr (acc ++ [v]), r')
                      else None
                  | EmptyString => None
                  end
              | None => None
              end
          end in
      let members :=
        fix members (n : nat) (acc : list (string * value)) (s : string)
          : option (value * string) :=
          match n with
          | O => None
          | S n' =>
              match skipWs s with
              | String q s1 =>
                  if Ascii.eqb q Json.dq then
                    match chars s1 with
                    | Some (k, s2) =>
                        if isIndexName k then None
                        else
                          match skipWs s2 with
                          | String colon s3 =>
                              if Ascii.eqb colon ":" then
                                match parseValue fuel' s3 with
                                | Some (v, r) =>
                                    match skipWs r with
                                    | String c r' =>
                                        if Ascii.eqb c "," then members n' (setProp k v acc) r'
                                        else if Ascii.eqb c "}" then Some (Obj (setProp k v acc), r')
                                        else None
                                    | EmptyString => None
                                    end
                                | None => None
                                end
                              else None
                          | EmptyString => None
                          end
                    | None => None
                    end
                  else None
              | EmptyString => None
              end
          end in
      match skipWs s with
      | EmptyString => None
      | String c r =>
          if Ascii.eqb c "{" then
            match skipWs r with
            | String c' r' =>
                if Ascii.eqb c' "}" then Some (Obj [], r')
                else members (String.length r) [] r
            | EmptyString => None
            end
          else if Ascii.eqb c "[" then
            match skipWs r with
            | String c' r' =>
                if Ascii.eqb c' "]" then Some (Arr [], r')
                else elements (String.length r) [] r
            | EmptyString => None
            end
          else if Ascii.eqb c Json.dq then
            match chars r with
            | Some (t, rest) => Some (Str t, rest)
            | None => None
            end
          else if Ascii.eqb c "t" then literal "true" (Boolean true) (String c r)
          else if Ascii.eqb c "f" then literal "false" (Boolean false) (String c r)
          else if Ascii.eqb c "n" then literal "null" Null (String c r)
          else number (String c r)
      end
  end.

Definition parse (text : string) : result value :=
  match parseValue (S (String.length text)) text with
  | Some (v, rest) =>
      if JsString.isEmpty (skipWs rest) then Ok v
      else Throw (SyntaxError "Unexpected non-whitespace character after JSON")
  | None => Throw (SyntaxError "Unexpected token or end of JSON input")
  end.

End JsonParse.

(** JSON text is written in the examples with ['] for the double quote. *)
Fixpoint js (s : string) : string :=
  match s with
  | EmptyString => EmptyString
  | String c s' => String (if Ascii.eqb c "'" then Json.dq else c) (js s')
  end.

(** ** HTTP messages *)

(** Header names are kept in lower case, as Node stores the incoming ones
    and compares the outgoing ones. *)
Definition headers : Type := list (string * string).

Definition lowerChar (c : ascii) : ascii :=
  let n := N_of_ascii c in
  if ((65 <=? n) && (n <=? 90))%N then ascii_of_N (n + 32) else c.

Fixpoint toLowerCase (s : string) : string :=
  match s with
  | EmptyString => EmptyString
  | String c s' => String (lowerChar c) (toLowerCase s')
  end.

Fixpoint getHeader (name : string) (hs : headers) : option string :=
  match hs with
  | [] => None
  | (k, v) :: rest => if String.eqb k name then Some v else getHeader name rest
  end.

Definition setHeader (name v : string) (hs : headers) : headers :=
  (name, v) :: List.filter (fun kv => negb (String.eqb (fst kv) name)) hs.

(** The upstream response: its status, its headers and the chunks its body
    arrives in. *)
Record IncomingMessage : Type := mkIncoming {
  statusCode : Z;
  in_headers : headers;
  chunks : list string
}.

(** The client response: the headers set so far and the body, once sent. *)
Record Response : Type := mkResponse {
  out_headers : headers;
  sent : option string
}.

(** [res.set(name, v)] *)
Definition res_set (name v : string) (res : Response) : Response :=
  mkResponse (setHeader (toLowerCase name) v (out_headers res)) (sent res).

(** [res.send(b)] *)
Definition res_send (b : string) (res : Response) : Response :=
  mkResponse (out_headers res) (Some b).

(** The request, with [req.key], the Key object that key injection put
    there, if any. *)
Record Request : Type := mkRequest { req_key : option loc }.

(** What a call can change: the object store and the client response. *)
Record World : Type := mkWorld { store : heap; res : Response }.

Inductive downstream : Type :=
  | Passed (w : World)     (* returned: the upstream status is a success *)
  | Handled (w : World).   (* threw: it has taken over the response *)

(** The platform and the helpers of [./common] whose code is not among the
    sources, as the stage uses them. *)
Record Runtime : Type := mkRuntime {
  gunzip : string -> result string;
  inflate : string -> result string;
  gzip : string -> string;
  deflate : string -> string;
  JSON_parse : string -> result value;
  handleDownstreamErrors : IncomingMessage -> Request -> World -> downstream;
  copyHttpHeaders : IncomingMessage -> headers -> headers
}.

(** ** The Kobold response stage *)

Module Kobold.

(** Modelled from the spec: [incrementKeyUsage] of [./common] is not among
    the sources.  The spec has the stage trigger usage accounting on the
    pool ([recordPromptServed], the pool's [incrementPrompt]) with the
    identity of the key injected into the request. *)
Definition incrementKeyUsage (keyPool : KeyPool.t) (req : Request) (h : heap) : result heap :=
  KeyPool.incrementPrompt
    (match req_key req with Some k => Some (hash (rd h k)) | None => None end)
    keyPool h.

Definition encodingIs (contentEncoding : option string) (name : string) : bool :=
  match contentEncoding with Some s => String.eqb s name | None => false end.

Definition koboldResponse (content model : value) : value :=
  Obj [("results", Arr [Obj [("text", content)]]); ("model", model)].

(** [response.choices[0].message.content] *)
Definition completionOf (response : value) : result value :=
  choices ← Json.getProp response "choices";
  first ← Json.getFirst choices;
  message ← Json.getProp first "message";
  Json.getProp message "content".

(** The first conditional of the [end] handler: the body is decoded when
    the upstream named gzip or deflate, and taken as it is otherwise. *)
Definition decodeBody (rt : Runtime) (contentEncoding : option string) (body : string)
  : result string :=
  if encodingIs contentEncoding "gzip" then gunzip rt body
  else if encodingIs contentEncoding "deflate" then inflate rt body
  else Ok body.

(** Its last conditional: the text is compressed again and sent. *)
Definition sendEncoded (rt : Runtime) (contentEncoding : option string) (text : string)
    (res : Response) : Response :=
  if encodingIs contentEncoding "gzip" then
    res_send (gzip rt text) (res_set "Content-Encoding" "gzip" res)
  else if encodingIs contentEncoding "deflate" then
    res_send (deflate rt text) (res_set "Content-Encoding" "deflate" res)
  else
    res_send text res.

(** The handler of the upstream response's [end] event. *)
Definition onEnd (rt : Runtime) (contentEncoding : option string) (chunks : list string)
    (res : Response) : result Response :=
  body ← decodeBody rt contentEncoding (String.concat EmptyString chunks);
  response ← JSON_parse rt body;
  content ← completionOf response;
  model ← Json.getProp response "model";
  Ok (sendEncoded rt contentEncoding (Json.stringify (koboldResponse content model)) res).

Inductive outcome : Type :=
  | TakenOver (w : World)          (* the downstream error handler answered *)
  | Completed (w : World)          (* the translated body was sent *)
  | Rejected (e : exn) (w : World). (* the stage threw; nothing catches it *)

Definition handleProxiedResponse (rt : Runtime) (keyPool : KeyPool.t)
    (proxyRes : IncomingMessage) (req : Request) (w : World) : outcome :=
  match handleDownstreamErrors rt proxyRes req w with
  | Handled w' => TakenOver w'
  | Passed w1 =>
      match incrementKeyUsage keyPool req (store w1) with
      | Throw e => Rejected e w1
      | Ok h2 =>
          let res2 := mkResponse (copyHttpHeaders rt proxyRes (out_headers (res w1)))
                                 (sent (res w1)) in
          match onEnd rt (getHeader "content-encoding" (in_headers proxyRes))
                      (chunks proxyRes) res2 with
          | Ok res3 => Completed (mkWorld h2 res3)
          | Throw e => Rejected e (mkWorld h2 res2)
          end
      end
  end.

Definition worldOf (o : outcome) : World :=
  match o with TakenOver w | Completed w | Rejected _ w => w end.

End Kobold.

(** ** The info page's figures *)

Module InfoPage.

Record keyInfo : Type := mkKeyInfo {
  all : nat; active : nat; trial : nat; gpt4 : nat; proompts : Z
}.

(** The [keys] entry of [info] in [getInfoPageHtml], with the store after
    [keys.list()]. *)
Definition keysInfo (keys : KeyPool.t) (h : heap) : keyInfo * heap :=
  let (keylist, h') := KeyPool.list keys h in
  (mkKeyInfo
     (length keylist)
     (length (List.filter (fun k => negb (isDisabled (rd h' k))) keylist))
     (length (List.filter (fun k => isTrial (rd h' k)) keylist))
     (length (List.filter (fun k => isGpt4 (rd h' k)) keylist))
     (List.fold_left (fun acc k => acc + promptCount (rd h' k)) keylist 0),
   h').

End InfoPage.

(** ** A reference runtime, for the examples

    [zlib] is replaced by a stand-in that keeps the two magic bytes of each
    format and stores the payload as it is; [JSON.parse] is the reference
    parser; the downstream error handler passes a status below 400 and
    answers any other itself; [copyHttpHeaders] sets every upstream header
    on the response. *)

Module Ref.

Definition gzipMagic (s : string) : string :=
  String (ascii_of_nat 31) (String (ascii_of_nat 139) s).

Definition zlibMagic (s : string) : string :=
  String (ascii_of_nat 120) (String (ascii_of_nat 156) s).

Definition strip (a b : nat) (s : string) : result string :=
  match s with
  | String x (String y rest) =>
      if Ascii.eqb x (ascii_of_nat a) && Ascii.eqb y (ascii_of_nat b) then Ok rest
      else Throw (ZlibError "incorrect header check")
  | _ => Throw (ZlibError "unexpected end of file")
  end.

Definition handleDownstreamErrors (proxyRes : IncomingMessage) (req : Request) (w : World)
  : downstream :=
  if statusCode proxyRes <? 400 then Passed w
  else Handled (mkWorld (store w) (res_send "upstream error" (res w))).

Definition copyHttpHeaders (proxyRes : IncomingMessage) (hs : headers) : headers :=
  List.fold_left (fun acc kv => setHeader (fst kv) (snd kv) acc) (in_headers proxyRes) hs.

Definition runtime : Runtime :=
  mkRuntime (strip 31 139) (strip 120 156) gzipMagic zlibMagic
            JsonParse.parse handleDownstreamErrors copyHttpHeaders.

Definition emptyResponse : Response := mkResponse [] None.

End Ref.

(** ** Predicates of the statements *)

(** The pool's records are distinct live objects of the store, none frozen:
    what the constructor establishes and every operation keeps. *)
Definition wf (p : KeyPool.t) (h : heap) : Prop :=
  List.NoDup (KeyPool.keys p) /\
  forall l, In l (KeyPool.keys p) -> exists k, h !! l = Some (mkObj k false).

Fixpoint nodupb (l : list nat) : bool :=
  match l with
  | [] => true
  | x :: l' => negb (List.existsb (Nat.eqb x) l') && nodupb l'
  end.

(** The same, as a test. *)
Definition wfb (p : KeyPool.t) (h : heap) : bool :=
  nodupb (KeyPool.keys p) &&
  List.forallb (fun l => match h !! l with Some o => negb (frozen o) | None => false end)
               (KeyPool.keys p).

(** The store after an attempted assignment through [l]: unchanged when the
    assignment is refused. *)
Definition afterWrite (l : loc) (f : Key -> Key) (h : heap) : heap :=
  match write l f h with Ok h' => h' | Throw _ => h end.

Definition afterWrites (ws : list (loc * (Key -> Key))) (h : heap) : heap :=
  List.fold_left (fun acc w => afterWrite (fst w) (snd w) acc) ws h.

(** [x] is the first element of [l] that satisfies [ok]. *)
Definition firstWith {A : Type} (ok : A -> bool) (l : list A) (x : A) : Prop :=
  exists i, l !! i = Some x /\ ok x = true /\
    forall j y, (j < i)%nat -> l !! j = Some y -> ok y = false.

(** [x] is, among the elements of [l] that satisfy [ok], one of least [f],
    and the first such in the order of [l]. *)
Definition firstLeast {A : Type} (ok : A -> bool) (f : A -> Z) (l : list A) (x : A) : Prop :=
  exists i, l !! i = Some x /\ ok x = true /\
    (forall j y, l !! j = Some y -> ok y = true -> f x <= f y) /\
    (forall j y, (j < i)%nat -> l !! j = Some y -> ok y = true -> f x < f y).

(** The test of [get]'s filter on one record. *)
Definition usable (needsGpt4Key : bool) (h : heap) (l : loc) : bool :=
  negb (isDisabled (rd h l)) && (negb needsGpt4Key || isGpt4 (rd h l)).

(** Every entry of the configured list is blank once trimmed. *)
Definition allBlank (keyString : string) : bool :=
  List.forallb (fun e => JsString.isEmpty (JsString.trim e)) (JsString.split "," keyString).

(** *** What selection promises *)

(** A record can serve a request for [model]: it is not disabled and, when
    the model's name starts with [gpt-4], it is provisioned for GPT-4. *)
Definition eligible (model : string) (k : Key) : bool :=
  negb (isDisabled k) && (negb (String.prefix "gpt-4" model) || isGpt4 k).

(** [k'] is [k] with [lastUsed] set to [now] and no other field changed. *)
Definition stampedAt (now : Z) (k k' : Key) : Prop :=
  lastUsed k' = now /\
  key k' = key k /\ hash k' = hash k /\
  isTrial k' = isTrial k /\ isGpt4 k' = isGpt4 k /\ isDisabled k' = isDisabled k /\
  softLimit k' = softLimit k /\ hardLimit k' = hardLimit k /\
  systemHardLimit k' = systemHardLimit k /\ usage k' = usage k /\
  promptCount k' = promptCount k /\ lastChecked k' = lastChecked k.

(** The trial branch: the first eligible trial record of the pool is
    returned itself; its [lastUsed] is now the current time and nothing
    else in the store has changed. *)
Definition selectsTrial (model : string) (now : Z) (p : KeyPool.t) (h : heap) : Prop :=
  exists trial0 h',
    firstWith (fun l => eligible model (rd h l) && isTrial (rd h l)) (KeyPool.keys p) trial0 /\
    KeyPool.get model now p h = Ok (trial0, h') /\
    lastUsed (rd h' trial0) = now /\
    stampedAt now (rd h trial0) (rd h' trial0) /\
    (forall l, l <> trial0 -> h' !! l = h !! l).

(** The other branch: no eligible record is a trial one; the eligible
    record of least [lastUsed], the first such in pool order, has its
    [lastUsed] set to the current time, the returned object is a new one
    with the fields of that record, and nothing else has changed. *)
Definition selectsOldest (model : string) (now : Z) (p : KeyPool.t) (h : heap) : Prop :=
  (forall l, In l (KeyPool.keys p) -> eligible model (rd h l) = true ->
             isTrial (rd h l) = false) /\
  exists oldest r h',
    firstLeast (fun l => eligible model (rd h l)) (fun l => lastUsed (rd h l))
               (KeyPool.keys p) oldest /\
    KeyPool.get model now p h = Ok (r, h') /\
    lastUsed (rd h' oldest) = now /\
    stampedAt now (rd h oldest) (rd h' oldest) /\
    r = length h /\
    rd h' r = rd h' oldest /\
    (forall l, (l < length h)%nat -> l <> oldest -> h' !! l = h !! l).

(** *** What the returned reference is *)



(** *** What a health update promises *)

(** [k'] is [k] with exactly the supplied fields of [u] replaced and
    [lastChecked] set to [now]. *)
Definition merged (u : KeyUpdate) (now : Z) (k k' : Key) : Prop :=
  isTrial k' = match u_isTrial u with Some v => v | None => isTrial k end /\
  isGpt4 k' = match u_isGpt4 u with Some v => v | None => isGpt4 k end /\
  softLimit k' = match u_softLimit u with Some v => v | None => softLimit k end /\
  hardLimit k' = match u_hardLimit u with Some v => v | None => hardLimit k end /\
  systemHardLimit k'
    = match u_systemHardLimit u with Some v => v | None => systemHardLimit k end /\
  usage k' = match u_usage u with Some v => v | None => usage k end /\
  lastChecked k' = now /\
  key k' = key k /\ hash k' = hash k /\ isDisabled k' = isDisabled k /\
  promptCount k' = promptCount k /\ lastUsed k' = lastUsed k.

Definition hasHash (keyHash : string) (h : heap) (l : loc) : bool :=
  String.eqb (hash (rd h l)) keyHash.

(** The key set [calculateRemainingQuota] sums over. *)
Definition quotaKeys (gpt4Only : bool) (p : KeyPool.t) (h : heap) : list loc :=
  if gpt4Only then List.filter (fun l => isGpt4 (rd h l)) (KeyPool.keys p) else KeyPool.keys p.

(** Usage and limit of every key of the set are not negative. *)
Definition nonNegative (h : heap) (ks : list loc) : Prop :=
  forall l, In l ks -> (0 <= usage (rd h l) /\ 0 <= hardLimit (rd h l))%Q.

(** *** The provider's response shape *)

(** No property of the object is called [name]. *)
Definition noMember (name : string) (props : list (string * value)) : Prop :=
  forall v, ~ In (name, v) props.

(** The object has a property called [name] and its value is [v]: the first
    pair of that name holds [v]. *)
Definition member (name : string) (v : value) (props : list (string * value)) : Prop :=
  exists before rest, props = before ++ (name, v) :: rest /\ noMember name before.

(** [response] is an object [{choices: [{message: {content: t}}, ...],
    model: m}], whatever else it and its parts hold. *)
Definition hasShape (response t m : value) : Prop :=
  exists props first more message,
    response = Obj props /\
    member "choices" (Arr (Obj first :: more)) props /\
    member "message" (Obj message) first /\
    member "content" t message /\
    member "model" m props.

(** [text] compressed as the upstream body was: with [gzip] under the
    header value [gzip], with [deflate] under [deflate], and as it is under
    any other value or none. *)
Definition encodedWith (rt : Runtime) (encoding : option string) (text : string) : string :=
  match encoding with
  | Some e =>
      if String.eqb e "gzip" then gzip rt text
      else if String.eqb e "deflate" then deflate rt text
      else text
  | None => text
  end.

Definition contentEncoding (proxyRes : IncomingMessage) : option string :=
  getHeader "content-encoding" (in_headers proxyRes).

(** The client response as the stage has it once the upstream headers are
    copied. *)
Definition afterCopy (rt : Runtime) (proxyRes : IncomingMessage) (w : World) : Response :=
  mkResponse (copyHttpHeaders rt proxyRes (out_headers (res w))) (sent (res w)).

(** ** States for the examples *)

Module Demo.

Definition aKey (secret : string) (trial gpt4 disabled : bool) (used : Z) : Key :=
  mkKey (Some secret) trial gpt4 disabled 0 0 0 0 0 used 0
        (JsString.slice0 6 (Sha256.digestHex secret)).

Definition pool3 : KeyPool.t := KeyPool.mk [0%nat; 1%nat; 2%nat].

(** A disabled key, then two paid keys, the second one used longer ago. *)
Definition paid : heap :=
  [ mkObj (aKey "sk-a" false false true 1) false;
    mkObj (aKey "sk-b" false false false 7) false;
    mkObj (aKey "sk-c" false false false 3) false ].

(** A paid key used long ago, then two trial keys. *)
Definition withTrial : heap :=
  [ mkObj (aKey "sk-a" false false false 1) false;
    mkObj (aKey "sk-b" true false false 7) false;
    mkObj (aKey "sk-c" true false false 3) false ].

(** A disabled GPT-4 key and two enabled keys without GPT-4. *)
Definition gpt4Disabled : heap :=
  [ mkObj (aKey "sk-a" false true true 1) false;
    mkObj (aKey "sk-b" false false false 7) false;
    mkObj (aKey "sk-c" false false false 3) false ].

(** The pool of [OPENAI_KEY=sk-a], as constructed. *)
Definition pool1 : KeyPool.t := KeyPool.mk [0%nat].
Definition fresh : heap := [mkObj (KeyPool.newKey "sk-a") false].

(** The same after one prompt was counted. *)
Definition counted : heap := [mkObj (set_promptCount 1 (KeyPool.newKey "sk-a")) false].

(** A key without GPT-4 used longest ago, then two GPT-4 keys. *)
Definition twoGpt4 : heap :=
  [ mkObj (aKey "sk-a" false false false 1) false;
    mkObj (aKey "sk-b" false true false 7) false;
    mkObj (aKey "sk-c" false true false 3) false ].

Definition noUpdate : KeyUpdate := mkKeyUpdate None None None None None None.

(** What a health check of a paid GPT-4 key may report. *)
Definition checked : KeyUpdate :=
  mkKeyUpdate (Some false) (Some true) None (Some (120 # 1)) None (Some (5 # 2)).

End Demo.

Module DemoStage.

Definition completion : string :=
  js "{'choices':[{'message':{'content':'hello'}}],'model':'gpt-x'}".

Definition translated : string := js "{'results':[{'text':'hello'}],'model':'gpt-x'}".

Definition emptyChoices : string := js "{'id':'cmpl-1','choices':[],'model':'gpt-x'}".

Definition noContent : string :=
  js "{'choices':[{'message':{'role':'assistant'}}],'model':'gpt-x'}".

Definition completionValue : value :=
  Obj [("choices", Arr [Obj [("message", Obj [("content", Str "hello")])]]);
       ("model", Str "gpt-x")].

Definition emptyChoicesValue : value :=
  Obj [("id", Str "cmpl-1"); ("choices", Arr []); ("model", Str "gpt-x")].

Definition noContentValue : value :=
  Obj [("choices", Arr [Obj [("message", Obj [("role", Str "assistant")])]]);
       ("model", Str "gpt-x")].

Definition noChoices : string := js "{'id':'cmpl-1','model':'gpt-x'}".

Definition noChoicesValue : value := Obj [("id", Str "cmpl-1"); ("model", Str "gpt-x")].

Definition noMessage : string := js "{'choices':[{'index':0}],'model':'gpt-x'}".

Definition noMessageValue : value :=
  Obj [("choices", Arr [Obj [("index", Number "0")]]); ("model", Str "gpt-x")].

Definition upstream (encoding : option string) (body : string) : IncomingMessage :=
  mkIncoming 200
    (match encoding with
     | Some e => [("content-type", "application/json"); ("content-encoding", e)]
     | None => [("content-type", "application/json")]
     end)
    [body].

(** The request carries the pool's first record as its key. *)
Definition request : Request := mkRequest (Some 0%nat).

Definition world (h : heap) : World := mkWorld h Ref.emptyResponse.

(** The stage on an unencoded success response with the given body, for the
    request above and the pool of one key; and the world it leaves when it
    throws: the prompt counted, the headers copied, nothing sent. *)
Definition run (body : string) : Kobold.outcome :=
  Kobold.handleProxiedResponse Ref.runtime Demo.pool1 (upstream None body) request
    (world Demo.fresh).

Definition unanswered (body : string) : World :=
  mkWorld Demo.counted (afterCopy Ref.runtime (upstream None body) (world Demo.fresh)).

End DemoStage.

(** ** Histories of pool calls *)

Module History.

(** A call of one of the pool's methods by some client. *)
Inductive call : Type :=
  | Get (model : string) (now : Z)
  | Update (keyHash : string) (u : KeyUpdate) (now : Z)
  | Disable (arg : loc)
  | IncrementPrompt (keyHash : option string)
  | DowngradeKey (keyHash : option string)
  | ListKeys.

Definition perform (c : call) (p : KeyPool.t) (h : heap) : result heap :=
  match c with
  | Get model now =>
      match KeyPool.get model now p h with
      | Ok (_, h') => Ok h'
      | Throw e => Throw e
      end
  | Update keyHash u now => KeyPool.update keyHash u now p h
  | Disable arg => KeyPool.disable arg p h
  | IncrementPrompt keyHash => KeyPool.incrementPrompt keyHash p h
  | DowngradeKey keyHash => KeyPool.downgradeKey keyHash p h
  | ListKeys => Ok (snd (KeyPool.list p h))
  end.

(** The store after a call; every method throws before it assigns, so a
    call that throws leaves the store as it was. *)
Definition after (p : KeyPool.t) (h : heap) (c : call) : heap :=
  match perform c p h with Ok h' => h' | Throw _ => h end.

Definition afterAll (cs : list call) (p : KeyPool.t) (h : heap) : heap :=
  List.fold_left (after p) cs h.

(** The keys that successive [get]s for one model return, at the given
    times ([None] for a call that throws). *)
Fixpoint getMany (model : string) (nows : list Z) (p : KeyPool.t) (h : heap)
  : list (option loc) :=
  match nows with
  | [] => []
  | now :: rest =>
      match KeyPool.get model now p h with
      | Ok (r, h') => Some r :: getMany model rest p h'
      | Throw _ => None :: getMany model rest p h
      end
  end.

End History.

(** What may become of a record over time: the secret and the hash stay, a
    disabled record stays disabled, the prompt count does not go down. *)
Definition evolves (k k' : Key) : Prop :=
  key k' = key k /\ hash k' = hash k /\
  (isDisabled k = true -> isDisabled k' = true) /\
  promptCount k <= promptCount k'.

(** One step: the pool invariant holds after, the store has not shrunk,
    every pool record has evolved, and no object outside the pool has
    changed. *)
Definition keeps (p : KeyPool.t) (h h' : heap) : Prop :=
  wf p h' /\
  (length h <= length h')%nat /\
  (forall l, In l (KeyPool.keys p) -> evolves (rd h l) (rd h' l)) /\
  (forall r, (r < length h)%nat -> ~ In r (KeyPool.keys p) -> h' !! r = h !! r).

(** [k'] has every field of [k] but [promptCount]. *)
Definition sameButPromptCount (k k' : Key) : Prop :=
  key k' = key k /\ hash k' = hash k /\
  isTrial k' = isTrial k /\ isGpt4 k' = isGpt4 k /\ isDisabled k' = isDisabled k /\
  softLimit k' = softLimit k /\ hardLimit k' = hardLimit k /\
  systemHardLimit k' = systemHardLimit k /\ usage k' = usage k /\
  lastUsed k' = lastUsed k /\ lastChecked k' = lastChecked k.



(** No two records of the pool hold the same secret. *)
Definition distinctSecrets (p : KeyPool.t) (h : heap) : Prop :=
  forall a b, In a (KeyPool.keys p) -> In b (KeyPool.keys p) ->
              key (rd h a) = key (rd h b) -> a = b.

Fixpoint isHexString (s : string) : bool :=
  match s with
  | EmptyString => true
  | String c s' =>
      let n := N_of_ascii c in
      (((48 <=? n) && (n <=? 57)) || ((97 <=? n) && (n <=? 102)))%N && isHexString s'
  end.

Fixpoint hasChar (c : ascii) (s : string) : bool :=
  match s with
  | EmptyString => false
  | String x s' => Ascii.eqb x c || hasChar c s'
  end.

(** A history used by the witnesses: a key is taken, its prompt counted, a
    health check comes in, the key is disabled, the pool is listed, a
    lookup with an unknown hash throws, and another key is taken. *)
Definition sampleHistory : list History.call :=
  [ History.Get "gpt-3.5-turbo" 100;
    History.IncrementPrompt (Some "923e70");
    History.Update "18519d" Demo.checked 150;
    History.Disable 2%nat;
    History.ListKeys;
    History.DowngradeKey (Some "000000");
    History.Get "gpt-3.5-turbo" 200 ].

(** ** The request rewriter pipeline *)

Module Rewrite.

Section Pipeline.

(** What the rewriters work on: the outgoing request together with the
    incoming request and whatever else they reach. *)
Variable state : Type.

(** A rewriter changes the state and returns, or throws having changed
    some of it. *)
Definition rewriter : Type := state -> state * option exn.

(** The rewriters of [./rewriters], whose code is not among the sources. *)
Record rewriters : Type := mkRewriters {
  addKey : rewriter;
  transformKoboldPayload : rewriter;
  languageFilter : rewriter;
  disableStream : rewriter;
  limitOutputTokens : rewriter;
  finalizeBody : rewriter
}.

(** The [for] loop inside [try]. *)
Fixpoint runPipeline (pipeline : list rewriter) (st : state) : state * option exn :=
  match pipeline with
  | [] => (st, None)
  | r :: rest =>
      match r st with
      | (st', None) => runPipeline rest st'
      | (st', Some e) => (st', Some e)
      end
  end.

Definition rewriterPipeline (rs : rewriters) : list rewriter :=
  [addKey rs; transformKoboldPayload rs; languageFilter rs;
   disableStream rs; limitOutputTokens rs; finalizeBody rs].

(** [rewriteRequest]; [destroy e] is [proxyReq.destroy(e)]. *)
Definition rewriteRequest (rs : rewriters) (destroy : exn -> state -> state) (st : state)
  : state :=
  match runPipeline (rewriterPipeline rs) st with
  | (st', None) => st'
  | (st', Some e) => destroy e st'
  end.

End Pipeline.

End Rewrite.

(** The fields [calculateRemainingQuota] reads are the same in [k']. *)
Definition sameQuotaFields (k k' : Key) : Prop :=
  isGpt4 k' = isGpt4 k /\ usage k' = usage k /\ hardLimit k' = hardLimit k.

(** The calls that select, count, disable or list. *)
Definition leavesQuota (c : History.call) : bool :=
  match c with
  | History.Get _ _ | History.Disable _ | History.IncrementPrompt _ | History.ListKeys => true
  | History.Update _ _ _ | History.DowngradeKey _ => false
  end.

Module DemoQuota.

(** The paid pool after a health check of its second and third keys. *)
Definition checkedPaid : heap :=
  [ mkObj (Demo.aKey "sk-a" false false true 1) false;
    mkObj (mkKey (Some "sk-b") false true false 0 (120 # 1) 0 (5 # 2) 0 7 150 "18519d") false;
    mkObj (mkKey (Some "sk-c") false false false 0 (80 # 1) 0 (95 # 1) 4 3 150 "923e70") false ].

End DemoQuota.

Module DemoRewrite.

(** Rewriters that only leave their name in a trace; the language filter
    rejects. *)
Definition named (name : string) : Rewrite.rewriter (list string) :=
  fun trace => (trace ++ [name], None).

Definition rejecting (name : string) (e : exn) : Rewrite.rewriter (list string) :=
  fun trace => (trace ++ [name], Some e).

Definition filtered : Rewrite.rewriters (list string) :=
  Rewrite.mkRewriters (list string)
    (named "addKey") (named "transformKoboldPayload")
    (rejecting "languageFilter" (Error "Language not allowed"))
    (named "disableStream") (named "limitOutputTokens") (named "finalizeBody").

Definition passing : Rewrite.rewriters (list string) :=
  Rewrite.mkRewriters (list string)
    (named "addKey") (named "transformKoboldPayload") (named "languageFilter")
    (named "disableStream") (named "limitOutputTokens") (named "finalizeBody").

(** The output cap rejects. *)
Definition capped : Rewrite.rewriters (list string) :=
  Rewrite.mkRewriters (list string)
    (named "addKey") (named "transformKoboldPayload") (named "languageFilter")
    (named "disableStream") (rejecting "limitOutputTokens" (Error "Too many tokens"))
    (named "finalizeBody").

Definition destroy (e : exn) (trace : list string) : list string := trace ++ ["destroy"].

End DemoRewrite.

(** * Properties *)

Example sha256_constants :
  List.length Sha256.K = 64%nat /\
  List.firstn 2 Sha256.K = [0x428a2f98; 0x71374491]%N /\
  List.nth 63 Sha256.K 0%N = 0xc67178f2%N /\
  List.firstn 2 Sha256.H0 = [0x6a09e667; 0xbb67ae85]%N.
Proof. vm_compute. repeat split; reflexivity. Qed.

Example sha256_empty :
  Sha256.digestHex EmptyString
  = "e3b0c44298fc1c149afbf4c8996fb92427ae41e4649b934ca495991b7852b855".
Proof. vm_compute. reflexivity. Qed.

Example sha256_abc :
  Sha256.digestHex "abc"
  = "ba7816bf8f01cfea414140de5dae2223b00361a396177a9cb410ff61f20015ad".
Proof. vm_compute. reflexivity. Qed.

Example sha256_two_blocks :
  Sha256.digestHex "abcdbcdecdefdefgefghfghighijhijkijkljklmklmnlmnomnopnopq"
  = "248d6a61d20638b8e5c026930c3e6039a33ce45964ff2167f6ecedd419db06c1".
Proof. vm_compute. reflexivity. Qed.

Example trim_split :
  List.map JsString.trim (JsString.split "," " sk-a , sk-b,,")
  = ["sk-a"; "sk-b"; EmptyString; EmptyString].
Proof. reflexivity. Qed.

Example hashes_two : hashesOf (poolOf "sk-a, sk-b") = ["a4a6d3"; "18519d"].
Proof. vm_compute. reflexivity. Qed.

(** ** The store *)

Section Store.
Implicit Types (h : heap) (l : loc) (f : Key -> Key).

Lemma rd_lookup h l k b : h !! l = Some (mkObj k b) -> rd h l = k.
Proof. unfold rd. intros ->. reflexivity. Qed.

Lemma rd_app h (ext : heap) l : (l < length h)%nat -> rd (h ++ ext) l = rd h l.
Proof. intros Hl. unfold rd. rewrite lookup_app_l; auto. Qed.

Lemma rd_app_new h o (ext : heap) : rd (h ++ o :: ext) (length h) = fields o.
Proof.
  unfold rd. rewrite lookup_app_r by lia.
  replace (length h - length h)%nat with 0%nat by lia. reflexivity.
Qed.


Lemma write_live l f h k :
  h !! l = Some (mkObj k false) -> write l f h = Ok (<[l := mkObj (f k) false]> h).
Proof. unfold write. intros ->. reflexivity. Qed.

Lemma write_frozen l f h k :
  h !! l = Some (mkObj k true) -> exists e, write l f h = Throw e.
Proof. unfold write. intros ->. simpl. eauto. Qed.

Lemma write_length l f h h' : write l f h = Ok h' -> length h' = length h.
Proof.
  unfold write. destruct (h !! l) as [o|]; [destruct (frozen o)|]; intros E;
    inversion E; subst; auto using length_insert.
Qed.



Lemma afterWrite_length l f h : length (afterWrite l f h) = length h.
Proof.
  unfold afterWrite. destruct (write l f h) eqn:E; auto. eapply write_length; eauto.
Qed.


Lemma afterWrite_frozen l f h k : h !! l = Some (mkObj k true) -> afterWrite l f h = h.
Proof.
  intros Hl. unfold afterWrite. destruct (write_frozen l f h k Hl) as [e ->]. reflexivity.
Qed.


End Store.

(** ** Construction *)

Lemma lookup_map {A B : Type} (f : A -> B) (l : list A) (i : nat) :
  List.map f l !! i = f <$> (l !! i).
Proof.
  revert i. induction l as [|a l IH]; intros [|i]; simpl; auto.
Qed.

Lemma pushKey_fold (ks : list string) (acc : list loc) (h : heap) :
  List.fold_left KeyPool.pushKey ks (acc, h)
  = (acc ++ seq (length h) (length ks),
     h ++ List.map (fun k => mkObj (KeyPool.newKey k) false) ks).
Proof.
  revert acc h. induction ks as [|k ks IH]; intros acc h; simpl.
  - rewrite !app_nil_r. reflexivity.
  - unfold KeyPool.pushKey at 2. simpl. rewrite IH.
    rewrite length_app. simpl. rewrite <- !app_assoc. simpl.
    replace (length h + 1)%nat with (S (length h)) by lia. reflexivity.
Qed.

Lemma wf_fresh (h : heap) (ks : list Key) :
  wf (KeyPool.mk (seq (length h) (length ks)))
     (h ++ List.map (fun k => mkObj k false) ks).
Proof.
  split; simpl.
  - apply List.seq_NoDup.
  - intros l Hl. apply in_seq in Hl.
    rewrite lookup_app_r by lia. rewrite lookup_map.
    destruct (ks !! (l - length h)%nat) as [k|] eqn:E; simpl; eauto.
    apply lookup_ge_None in E. lia.
Qed.

Lemma constructor_ok (s : string) (h : heap) :
  JsString.isEmpty (JsString.trim s) = false ->
  let entries := List.map JsString.trim (JsString.split "," s) in
  KeyPool.constructor (Some s) h
  = Ok (KeyPool.mk (seq (length h) (length entries)),
        h ++ List.map (fun k => mkObj (KeyPool.newKey k) false) entries).
Proof.
  intros E entries. unfold KeyPool.constructor. rewrite E. fold entries.
  rewrite pushKey_fold. reflexivity.
Qed.

(** The constructor establishes the pool invariant. *)
Lemma constructor_wf (openaiKey : option string) (h : heap) (p : KeyPool.t) (h' : heap) :
  KeyPool.constructor openaiKey h = Ok (p, h') -> wf p h'.
Proof.
  destruct openaiKey as [s|]; [|discriminate].
  destruct (JsString.isEmpty (JsString.trim s)) eqn:E.
  - unfold KeyPool.constructor. rewrite E. discriminate.
  - rewrite (constructor_ok s h E). intros H. inversion H; subst.
    pose proof (wf_fresh h (List.map KeyPool.newKey
                  (List.map JsString.trim (JsString.split "," s)))) as W.
    rewrite List.length_map, List.map_map in W. exact W.
Qed.

Lemma nodupb_NoDup (l : list nat) : nodupb l = true -> List.NoDup l.
Proof.
  induction l as [|x l IH]; simpl; [constructor|].
  intros H. apply andb_prop in H as [H1 H2]. constructor; auto.
  intros Hin. apply negb_true_iff in H1.
  assert (List.existsb (Nat.eqb x) l = true) as C.
  { apply List.existsb_exists. exists x. split; auto. apply Nat.eqb_refl. }
  congruence.
Qed.

Lemma wfb_wf (p : KeyPool.t) (h : heap) : wfb p h = true -> wf p h.
Proof.
  unfold wfb. intros H. apply andb_prop in H as [H1 H2]. split.
  - apply nodupb_NoDup. exact H1.
  - intros l Hl. rewrite List.forallb_forall in H2. specialize (H2 l Hl).
    destruct (h !! l) as [[k b]|]; [|discriminate]. simpl in H2.
    destruct b; [discriminate|]. eauto.
Qed.

(** C4, as the code has it.  Construction fails exactly when the configured
    string is absent or blank as a whole once trimmed.  Otherwise it makes
    one record for each comma-separated entry, in order, blank and repeated
    entries included; the record of an entry [e] is [newKey e] (secret [e],
    hash the first six digits of its digest, enabled, every limit, the usage
    and the counters zero), the records are distinct live objects and what
    was in the store before is unchanged. *)
Theorem constructor_spec (openaiKey : option string) (h : heap) :
  match openaiKey with
  | None => KeyPool.constructor openaiKey h = Throw (Error KeyPool.notSet)
  | Some s =>
      if JsString.isEmpty (JsString.trim s)
      then KeyPool.constructor openaiKey h = Throw (Error KeyPool.notSet)
      else
        exists p h',
          let entries := List.map JsString.trim (JsString.split "," s) in
          KeyPool.constructor openaiKey h = Ok (p, h') /\
          length (KeyPool.keys p) = length entries /\
          wf p h' /\
          (forall i e, entries !! i = Some e ->
             exists l, KeyPool.keys p !! i = Some l /\ rd h' l = KeyPool.newKey e) /\
          (forall l, (l < length h)%nat -> h' !! l = h !! l)
  end.
Proof.
  destruct openaiKey as [s|]; [|reflexivity].
  destruct (JsString.isEmpty (JsString.trim s)) eqn:E.
  - unfold KeyPool.constructor. rewrite E. reflexivity.
  - set (entries := List.map JsString.trim (JsString.split "," s)).
    exists (KeyPool.mk (seq (length h) (length entries))).
    exists (h ++ List.map (fun k => mkObj (KeyPool.newKey k) false) entries).
    cbv zeta. split; [|split; [|split; [|split]]].
    + apply (constructor_ok s h E).
    + simpl. apply length_seq.
    + pose proof (wf_fresh h (List.map KeyPool.newKey entries)) as W.
      rewrite List.length_map, List.map_map in W. exact W.
    + intros i e Hi. exists (length h + i)%nat. simpl. split.
      * apply lookup_seq_lt. eapply lookup_lt_Some; eauto.
      * unfold rd. rewrite lookup_app_r by lia.
        replace (length h + i - length h)%nat with i by lia.
        rewrite lookup_map, Hi. reflexivity.
    + intros l Hl. apply lookup_app_l. exact Hl.
Qed.

(** C4 as stated fails in three ways.  The string [" , "] has only blank
    entries and construction succeeds, with two records of empty secret;
    ["sk-a,sk-a"] gives two records, not one, and both have the hash
    [a4a6d3], so the hash does not tell them apart. *)
Lemma constructor_keeps_blank_and_repeated :
  (allBlank " , " = true /\
   exists p h, poolOf " , " = Ok (p, h) /\
     List.map (fun l => key (rd h l)) (KeyPool.keys p) = [Some EmptyString; Some EmptyString]) /\
  (exists p h a b, poolOf "sk-a,sk-a" = Ok (p, h) /\
     KeyPool.keys p = [a; b] /\ a <> b /\
     key (rd h a) = key (rd h b) /\
     hash (rd h a) = "a4a6d3" /\ hash (rd h b) = "a4a6d3").
Proof.
  split.
  - split; [reflexivity|]. eexists _, _. split; [vm_compute; reflexivity|]. reflexivity.
  - eexists _, _, _, _. split; [vm_compute; reflexivity|].
    split; [reflexivity|]. split; [discriminate|]. repeat split; reflexivity.
Qed.


(** ** Filtering and sorting *)

Lemma filter_filter {A : Type} (P Q : A -> bool) (l : list A) :
  List.filter Q (List.filter P l) = List.filter (fun x => P x && Q x) l.
Proof.
  induction l as [|a l IH]; simpl; auto.
  destruct (P a); simpl; [destruct (Q a)|]; rewrite IH; reflexivity.
Qed.

Lemma lookup_In {A : Type} (l : list A) (i : nat) (x : A) : l !! i = Some x -> In x l.
Proof.
  revert i. induction l as [|a l IH]; intros [|i]; simpl; try discriminate.
  - intros [= ->]. auto.
  - intros H. right. eauto.
Qed.

Lemma filter_head_firstWith {A : Type} (ok : A -> bool) (l : list A) (x : A) (rest : list A) :
  List.filter ok l = x :: rest -> firstWith ok l x.
Proof.
  induction l as [|a l IH]; simpl; [discriminate|].
  destruct (ok a) eqn:E.
  - intros [= <- _]. exists 0%nat. repeat split; auto. intros; lia.
  - intros H. destruct (IH H) as (i & Hi & Hok & Hlt).
    exists (S i). repeat split; auto.
    intros [|j] y Hj Hy; simpl in Hy.
    + congruence.
    + apply (Hlt j); auto. lia.
Qed.

Lemma firstWith_In {A : Type} (ok : A -> bool) (l : list A) (x : A) :
  firstWith ok l x -> In x l /\ ok x = true.
Proof. intros (i & Hi & Hok & _). split; eauto using lookup_In. Qed.

Lemma insertBy_not_nil {A : Type} (cmp : A -> A -> Z) (x : A) (l : list A) :
  insertBy cmp x l <> [].
Proof. destruct l; simpl; [|destruct (_ <=? _)]; discriminate. Qed.

Lemma sortBy_nil {A : Type} (cmp : A -> A -> Z) (l : list A) : sortBy cmp l = [] -> l = [].
Proof.
  destruct l as [|a l]; auto. simpl. intros H. destruct (insertBy_not_nil _ _ _ H).
Qed.

Lemma filter_nil_none {A : Type} (ok : A -> bool) (l : list A) (y : A) :
  List.filter ok l = [] -> In y l -> ok y = false.
Proof.
  intros H Hy. destruct (ok y) eqn:E; auto.
  assert (In y (List.filter ok l)) as C by (apply List.filter_In; auto).
  rewrite H in C. destruct C.
Qed.

(** The head of the sorted filtered array is the first least element. *)
Lemma sort_filter_head {A : Type} (ok : A -> bool) (f : A -> Z) (l : list A)
    (x : A) (rest : list A) :
  sortBy (fun a b => f a - f b) (List.filter ok l) = x :: rest -> firstLeast ok f l x.
Proof.
  revert x rest. induction l as [|a l IH]; intros x rest; simpl; [discriminate|].
  destruct (ok a) eqn:E.
  - simpl. destruct (sortBy (fun a b => f a - f b) (List.filter ok l)) as [|y s] eqn:Es.
    + simpl. intros [= <- _]. exists 0%nat. repeat split; auto; [|intros; lia].
      intros [|j] y Hj Hy; simpl in Hj.
      * inversion Hj; subst. lia.
      * apply sortBy_nil in Es.
        rewrite (filter_nil_none ok l y Es (lookup_In _ _ _ Hj)) in Hy. discriminate.
    + destruct (IH y s eq_refl) as (i & Hi & Hok & Hle & Hlt).
      simpl. destruct (f a - f y <=? 0) eqn:C.
      * apply Z.leb_le in C. intros [= <- _]. exists 0%nat. repeat split; auto; [|intros; lia].
        intros [|j] z Hj Hz; simpl in Hj.
        -- inversion Hj; subst. lia.
        -- specialize (Hle j z Hj Hz). lia.
      * apply Z.leb_gt in C. intros [= <- _]. exists (S i). repeat split; auto.
        -- intros [|j] z Hj Hz; simpl in Hj.
           ++ inversion Hj; subst. lia.
           ++ apply (Hle j); auto.
        -- intros [|j] z Hlt' Hj Hz; simpl in Hj.
           ++ inversion Hj; subst. lia.
           ++ apply (Hlt j); auto. lia.
  - intros H. destruct (IH x rest H) as (i & Hi & Hok & Hle & Hlt).
    exists (S i). repeat split; auto.
    + intros [|j] z Hj Hz; simpl in Hj.
      * inversion Hj; subst. congruence.
      * apply (Hle j); auto.
    + intros [|j] z Hlt' Hj Hz; simpl in Hj.
      * inversion Hj; subst. congruence.
      * apply (Hlt j); auto. lia.
Qed.

(** ** Selection *)

Lemma availableKeys_filter (needs : bool) (p : KeyPool.t) (h : heap) :
  KeyPool.availableKeys needs p h = List.filter (usable needs h) (KeyPool.keys p).
Proof. reflexivity. Qed.

(** The three ways [get] can go. *)
Lemma get_cases (model : string) (now : Z) (p : KeyPool.t) (h : heap) :
  wf p h ->
  let needs := KeyPool.needsGpt4 model in
  let available := KeyPool.availableKeys needs p h in
  (available = [] /\
   KeyPool.get model now p h
   = Throw (Error (if needs then KeyPool.noGpt4Keys else KeyPool.noKeys)))
  \/
  (exists trial0 k,
     firstWith (fun l => usable needs h l && isTrial (rd h l)) (KeyPool.keys p) trial0 /\
     h !! trial0 = Some (mkObj k false) /\
     KeyPool.get model now p h
     = Ok (trial0, <[trial0 := mkObj (set_lastUsed now k) false]> h))
  \/
  (List.filter (fun l => isTrial (rd h l)) available = [] /\
   exists oldest k,
     firstLeast (usable needs h) (fun l => lastUsed (rd h l)) (KeyPool.keys p) oldest /\
     h !! oldest = Some (mkObj k false) /\
     KeyPool.get model now p h
     = Ok (length h,
           <[oldest := mkObj (set_lastUsed now k) false]> h
             ++ [mkObj (set_lastUsed now k) false])).
Proof.
  intros [Hnd Hlive] needs available. unfold KeyPool.get. fold needs. fold available.
  destruct available as [|a0 av] eqn:Eav.
  - left. split; reflexivity.
  - right. change (length (a0 :: av) =? 0)%nat with false. cbv iota.
    rewrite <- Eav.
    destruct (List.filter (fun l => isTrial (rd h l)) available) as [|t0 ts] eqn:Etr.
    + right. split; [reflexivity|].
      destruct (sortBy (KeyPool.byLastUsed h) available) as [|r rs] eqn:Es.
      { apply sortBy_nil in Es. congruence. }
      assert (firstLeast (usable needs h) (fun l => lastUsed (rd h l)) (KeyPool.keys p) r) as FL.
      { eapply (sort_filter_head (usable needs h) (fun l => lastUsed (rd h l))).
        exact Es. }
      destruct FL as (i & Hi & Hrest).
      destruct (Hlive r (lookup_In _ _ _ Hi)) as [k Hk].
      exists r, k. split; [exists i; auto|]. split; [exact Hk|].
      rewrite (write_live _ _ _ _ Hk). simpl. unfold alloc.
      rewrite length_insert. unfold rd.
      rewrite list_lookup_insert_eq by (eapply lookup_lt_Some; eauto). reflexivity.
    + left. unfold available in Etr. rewrite availableKeys_filter, filter_filter in Etr.
      apply filter_head_firstWith in Etr.
      destruct (firstWith_In _ _ _ Etr) as [Hin _].
      destruct (Hlive t0 Hin) as [k Hk].
      exists t0, k. split; [exact Etr|]. split; [exact Hk|].
      rewrite (write_live _ _ _ _ Hk). reflexivity.
Qed.

Lemma rd_insert_eq (h : heap) (l : loc) (o : obj) :
  (l < length h)%nat -> rd (<[l := o]> h) l = fields o.
Proof. intros Hl. unfold rd. rewrite list_lookup_insert_eq by exact Hl. reflexivity. Qed.

Lemma rd_copy (h : heap) (r : loc) (o c : obj) :
  rd (<[r := o]> h ++ [c]) (length h) = fields c.
Proof. rewrite <- (length_insert h r o). apply rd_app_new. Qed.

Lemma usable_not_disabled (needs : bool) (h : heap) (l : loc) :
  usable needs h l = true -> isDisabled (rd h l) = false.
Proof. unfold usable. intros H. apply andb_prop in H as [H _]. apply negb_true_iff in H. exact H. Qed.

Lemma usable_eligible (model : string) (h : heap) (l : loc) :
  usable (KeyPool.needsGpt4 model) h l = eligible model (rd h l).
Proof. reflexivity. Qed.

Lemma stampedAt_set (now : Z) (k : Key) : stampedAt now k (set_lastUsed now k).
Proof. unfold stampedAt. simpl. repeat split; reflexivity. Qed.

(** C5.  When some record of the pool is not disabled and meets the
    capability requirement (GPT-4 provisioning when the model's name starts
    with [gpt-4]), [get] returns the first such trial record of the pool
    if there is one, and otherwise (a copy of) the record least recently
    used among them, the first such in pool order; either way the
    [lastUsed] of the pool record chosen is the current time afterwards,
    and nothing else about it or about any other record has changed. *)
Theorem get_selects (model : string) (now : Z) (p : KeyPool.t) (h : heap) :
  wf p h ->
  (exists l, In l (KeyPool.keys p) /\ eligible model (rd h l) = true) ->
  selectsTrial model now p h \/ selectsOldest model now p h.
Proof.
  intros W (l0 & Hin0 & Hel0). pose proof W as [Hnd Hlive].
  destruct (get_cases model now p h W) as [[E _]|[(t0 & k & F & Hk & G)|(Etr & r & k & F & Hk & G)]].
  - exfalso. rewrite availableKeys_filter in E.
    pose proof (filter_nil_none _ _ l0 E Hin0) as C.
    rewrite usable_eligible in C. congruence.
  - left. exists t0, (<[t0 := mkObj (set_lastUsed now k) false]> h).
    split; [exact F|]. split; [exact G|].
    rewrite rd_insert_eq by (eapply lookup_lt_Some; eauto).
    rewrite (rd_lookup _ _ _ _ Hk). simpl.
    split; [reflexivity|]. split; [apply stampedAt_set|].
    intros l Hne. apply list_lookup_insert_ne. congruence.
  - right. split.
    + intros l Hin Hok. apply (filter_nil_none _ _ l Etr).
      rewrite availableKeys_filter. apply List.filter_In. auto.
    + pose proof (lookup_lt_Some _ _ _ Hk) as Hlt.
      exists r, (length h), (<[r := mkObj (set_lastUsed now k) false]> h
                               ++ [mkObj (set_lastUsed now k) false]).
      split; [exact F|]. split; [exact G|].
      assert (length (<[r := mkObj (set_lastUsed now k) false]> h) = length h) as Hlen
        by apply length_insert.
      assert (rd (<[r := mkObj (set_lastUsed now k) false]> h
                    ++ [mkObj (set_lastUsed now k) false]) r = set_lastUsed now k) as Hr.
      { rewrite rd_app by lia. rewrite rd_insert_eq by exact Hlt. reflexivity. }
      rewrite Hr, (rd_lookup _ _ _ _ Hk). simpl.
      split; [reflexivity|]. split; [apply stampedAt_set|]. split; [reflexivity|]. split.
      * rewrite rd_copy. reflexivity.
      * intros l Hl Hne. rewrite lookup_app_l by lia.
        apply list_lookup_insert_ne. congruence.
Qed.

Lemma get_selects_witness :
  wf Demo.pool3 Demo.twoGpt4 /\
  (exists l, In l (KeyPool.keys Demo.pool3) /\
             eligible "gpt-4-0314" (rd Demo.twoGpt4 l) = true) /\
  (selectsTrial "gpt-4-0314" 100 Demo.pool3 Demo.twoGpt4 \/
   selectsOldest "gpt-4-0314" 100 Demo.pool3 Demo.twoGpt4).
Proof.
  assert (wf Demo.pool3 Demo.twoGpt4) as W by (apply wfb_wf; reflexivity).
  assert (exists l, In l (KeyPool.keys Demo.pool3) /\
                    eligible "gpt-4-0314" (rd Demo.twoGpt4 l) = true) as E.
  { exists 2%nat. split; [simpl; auto|reflexivity]. }
  split; [exact W|]. split; [exact E|].
  apply get_selects; assumption.
Defined.

(** On that pool a GPT-4 model gets the third record, the less recently
    used of the two GPT-4 records, although the first record was used
    longer ago; its [lastUsed] becomes the time of the call. *)
Example get_gpt4_oldest :
  exists h', KeyPool.get "gpt-4-0314" 100 Demo.pool3 Demo.twoGpt4 = Ok (3%nat, h') /\
    (key (rd h' 3), lastUsed (rd h' 3), isGpt4 (rd h' 3)) = (Some "sk-c", 100, true) /\
    lastUsed (rd h' 2) = 100 /\ lastUsed (rd h' 1) = 7 /\ lastUsed (rd h' 0) = 1.
Proof. eexists. split; [vm_compute; reflexivity|]. repeat split; reflexivity. Qed.

(** The two branches on the example states: the paid pool gives a copy of
    its third record, used longest ago; with trial keys around, the first of
    them is returned although both the paid key and the other trial key
    were used longer ago. *)
Example get_paid :
  exists h', KeyPool.get "gpt-3.5-turbo" 100 Demo.pool3 Demo.paid = Ok (3%nat, h') /\
    rd h' 3 = Demo.aKey "sk-c" false false false 100 /\
    rd h' 2 = Demo.aKey "sk-c" false false false 100 /\
    rd h' 1 = Demo.aKey "sk-b" false false false 7.
Proof. eexists. split; [vm_compute; reflexivity|]. repeat split; reflexivity. Qed.

Example get_trial :
  exists h', KeyPool.get "gpt-3.5-turbo" 100 Demo.pool3 Demo.withTrial = Ok (1%nat, h') /\
    rd h' 1 = Demo.aKey "sk-b" true false false 100 /\ length h' = 3%nat.
Proof. eexists. split; [vm_compute; reflexivity|]. repeat split; reflexivity. Qed.

Lemma messages_differ : KeyPool.noGpt4Keys <> KeyPool.noKeys.
Proof. discriminate. Qed.

(** C6.  With no usable record [get] throws, with the GPT-4 message when the
    model asks for GPT-4 and with the general message otherwise, and the two
    messages differ; what [get] returns has the fields of a pool record that
    was not disabled; and when any record is enabled, a model that does not
    ask for GPT-4 gets a key. *)
Theorem get_exhaustion (model : string) (now : Z) (p : KeyPool.t) (h : heap) :
  wf p h ->
  (KeyPool.availableKeys (KeyPool.needsGpt4 model) p h = [] ->
   KeyPool.get model now p h
   = Throw (Error (if KeyPool.needsGpt4 model then KeyPool.noGpt4Keys else KeyPool.noKeys)))
  /\ KeyPool.noGpt4Keys <> KeyPool.noKeys
  /\ (forall r h', KeyPool.get model now p h = Ok (r, h') ->
        exists l, In l (KeyPool.keys p) /\ isDisabled (rd h l) = false /\
                  rd h' r = set_lastUsed now (rd h l) /\ isDisabled (rd h' r) = false)
  /\ (KeyPool.needsGpt4 model = false ->
      (exists l, In l (KeyPool.keys p) /\ isDisabled (rd h l) = false) ->
      exists r h', KeyPool.get model now p h = Ok (r, h')).
Proof.
  intros W.
  destruct (get_cases model now p h W) as [[E G]|[(t0 & k & F & Hk & G)|(Etr & r & k & F & Hk & G)]].
  - split; [intros _; exact G|]. split; [exact messages_differ|]. split.
    + intros r h' G'. rewrite G in G'. discriminate.
    + intros Hm (l & Hin & Hen). exfalso.
      assert (usable (KeyPool.needsGpt4 model) h l = false) as C.
      { apply (filter_nil_none _ (KeyPool.keys p)); auto. }
      unfold usable in C. rewrite Hm, Hen in C. discriminate.
  - destruct (firstWith_In _ _ _ F) as [Hin Hok]. apply andb_prop in Hok as [Hok _].
    pose proof (usable_not_disabled _ _ _ Hok) as Hen.
    split.
    { intros E. exfalso. rewrite availableKeys_filter in E.
      rewrite (filter_nil_none _ _ t0 E Hin) in Hok. discriminate. }
    split; [exact messages_differ|]. split.
    + intros r h' G'. rewrite G in G'. inversion G'; subst. exists r.
      rewrite rd_insert_eq by (eapply lookup_lt_Some; eauto).
      rewrite (rd_lookup _ _ _ _ Hk) in *. simpl. auto.
    + intros _ _. eauto.
  - destruct F as (i & Hi & Hok & Hrest). pose proof (lookup_In _ _ _ Hi) as Hin.
    pose proof (usable_not_disabled _ _ _ Hok) as Hen.
    split.
    { intros E. exfalso. rewrite availableKeys_filter in E.
      rewrite (filter_nil_none _ _ r E Hin) in Hok. discriminate. }
    split; [exact messages_differ|]. split.
    + intros r' h' G'. rewrite G in G'. inversion G'; subst. exists r.
      rewrite rd_copy. rewrite (rd_lookup _ _ _ _ Hk) in *. simpl. auto.
    + intros _ _. eauto.
Qed.

Lemma get_exhaustion_witness :
  wf Demo.pool3 Demo.gpt4Disabled /\
  KeyPool.get "gpt-4" 100 Demo.pool3 Demo.gpt4Disabled = Throw (Error KeyPool.noGpt4Keys) /\
  exists r h', KeyPool.get "gpt-3.5-turbo" 100 Demo.pool3 Demo.gpt4Disabled = Ok (r, h').
Proof.
  assert (wf Demo.pool3 Demo.gpt4Disabled) as W by (apply wfb_wf; reflexivity).
  split; [exact W|]. split.
  - apply (get_exhaustion "gpt-4" 100 Demo.pool3 Demo.gpt4Disabled W). reflexivity.
  - apply (get_exhaustion "gpt-3.5-turbo" 100 Demo.pool3 Demo.gpt4Disabled W).
    + reflexivity.
    + exists 1%nat. split; [simpl; auto|reflexivity].
Defined.

(** ** Pool operations write to pool records only *)

Lemma find_firstWith {A : Type} (ok : A -> bool) (l : list A) (x : A) :
  List.find ok l = Some x <-> firstWith ok l x.
Proof.
  induction l as [|a l IH]; simpl.
  - split; [discriminate|]. intros (i & Hi & _). destruct i; discriminate.
  - destruct (ok a) eqn:E; split.
    + intros [= <-]. exists 0%nat. repeat split; auto. intros; lia.
    + intros (i & Hi & Hok & Hlt). destruct i as [|i]; simpl in Hi.
      * congruence.
      * specialize (Hlt 0%nat a). simpl in Hlt. rewrite Hlt in E; [discriminate|lia|reflexivity].
    + intros H. apply IH in H. destruct H as (i & Hi & Hok & Hlt).
      exists (S i). repeat split; auto.
      intros [|j] y Hj Hy; simpl in Hy; [congruence|]. apply (Hlt j); auto. lia.
    + intros (i & Hi & Hok & Hlt). apply IH. destruct i as [|i]; simpl in Hi.
      * congruence.
      * exists i. repeat split; auto. intros j y Hj Hy. apply (Hlt (S j)); auto. lia.
Qed.

Lemma find_none_iff {A : Type} (ok : A -> bool) (l : list A) :
  List.find ok l = None <-> forall x, In x l -> ok x = false.
Proof.
  split; [apply List.find_none|].
  induction l as [|a l IH]; simpl; auto.
  intros H. rewrite (H a) by auto. apply IH. auto.
Qed.

Lemma find_In {A : Type} (ok : A -> bool) (l : list A) (x : A) :
  List.find ok l = Some x -> In x l.
Proof. intros H. apply List.find_some in H. tauto. Qed.

Section Frames.
Variables (p : KeyPool.t) (h h2 : heap) (r : loc).
Hypothesis outside : ~ In r (KeyPool.keys p).






End Frames.


Lemma wf_below (p : KeyPool.t) (h : heap) (l : loc) :
  wf p h -> In l (KeyPool.keys p) -> (l < length h)%nat.
Proof. intros [_ H] Hl. destruct (H l Hl) as [k Hk]. eapply lookup_lt_Some; eauto. Qed.




(** The difference, run: after [get] the key's prompt is counted and the key
    is disabled.  The copy from the paid pool still reads count 0 and
    enabled; the trial record that was handed out reads count 1 and
    disabled. *)
Example copy_goes_stale :
  exists h1 h2 h3,
    KeyPool.get "gpt-3.5-turbo" 100 Demo.pool3 Demo.paid = Ok (3%nat, h1) /\
    KeyPool.incrementPrompt (Some (hash (rd h1 3))) Demo.pool3 h1 = Ok h2 /\
    KeyPool.disable 3%nat Demo.pool3 h2 = Ok h3 /\
    (promptCount (rd h3 2), isDisabled (rd h3 2)) = (1, true) /\
    (promptCount (rd h3 3), isDisabled (rd h3 3)) = (0, false).
Proof.
  eexists _, _, _. split; [vm_compute; reflexivity|].
  split; [vm_compute; reflexivity|]. split; [vm_compute; reflexivity|].
  split; reflexivity.
Qed.

Example trial_stays_live :
  exists h1 h2 h3,
    KeyPool.get "gpt-3.5-turbo" 100 Demo.pool3 Demo.withTrial = Ok (1%nat, h1) /\
    KeyPool.incrementPrompt (Some (hash (rd h1 1))) Demo.pool3 h1 = Ok h2 /\
    KeyPool.disable 1%nat Demo.pool3 h2 = Ok h3 /\
    (promptCount (rd h3 1), isDisabled (rd h3 1)) = (1, true).
Proof.
  eexists _, _, _. split; [vm_compute; reflexivity|].
  split; [vm_compute; reflexivity|]. split; [vm_compute; reflexivity|].
  reflexivity.
Qed.

(** ** Health updates *)

Lemma assignUpdate_merged (u : KeyUpdate) (now : Z) (k : Key) :
  merged u now k (assignUpdate u now k).
Proof.
  unfold merged, assignUpdate; simpl.
  destruct (u_isTrial u), (u_isGpt4 u), (u_softLimit u), (u_hardLimit u),
           (u_systemHardLimit u), (u_usage u); simpl; repeat split; reflexivity.
Qed.

(** C3, as the code has it.  When some record has the hash, the first such
    record of the pool gets exactly the supplied fields replaced and
    [lastChecked] set to the current time, and nothing else in the store
    changes.  When no record has the hash, the call throws the runtime's
    [TypeError] of [Object.assign] on [undefined]; as it throws before any
    assignment, the store is as it was. *)
Theorem update_spec (keyHash : string) (u : KeyUpdate) (now : Z) (p : KeyPool.t) (h : heap) :
  wf p h ->
  (forall l, firstWith (hasHash keyHash h) (KeyPool.keys p) l ->
     exists h', KeyPool.update keyHash u now p h = Ok h' /\
                merged u now (rd h l) (rd h' l) /\
                length h' = length h /\
                (forall l', l' <> l -> h' !! l' = h !! l')) /\
  ((forall l, In l (KeyPool.keys p) -> hash (rd h l) <> keyHash) ->
     KeyPool.update keyHash u now p h
     = Throw (TypeError "Cannot convert undefined or null to object")).
Proof.
  intros [_ Hlive]. split.
  - intros l F. pose proof F as F'. apply find_firstWith in F'.
    destruct (firstWith_In _ _ _ F) as [Hin _].
    destruct (Hlive l Hin) as [k Hk].
    unfold KeyPool.update, KeyPool.findByHash. unfold hasHash in F'. rewrite F'.
    rewrite (write_live _ _ _ _ Hk).
    eexists. split; [reflexivity|].
    pose proof (lookup_lt_Some _ _ _ Hk) as Hlt.
    split; [|split].
    + rewrite rd_insert_eq by exact Hlt. rewrite (rd_lookup _ _ _ _ Hk).
      apply assignUpdate_merged.
    + apply length_insert.
    + intros l' Hne. apply list_lookup_insert_ne. congruence.
  - intros Hnone. unfold KeyPool.update, KeyPool.findByHash.
    replace (List.find _ _) with (@None loc); [reflexivity|].
    symmetry. apply find_none_iff. intros x Hx.
    apply String.eqb_neq. auto.
Qed.

Lemma update_spec_witness :
  wf Demo.pool3 Demo.paid /\
  firstWith (hasHash "18519d" Demo.paid) (KeyPool.keys Demo.pool3) 1%nat /\
  exists h', KeyPool.update "18519d" Demo.checked 500 Demo.pool3 Demo.paid = Ok h' /\
             merged Demo.checked 500 (rd Demo.paid 1) (rd h' 1) /\
             length h' = length Demo.paid /\
             (forall l', l' <> 1%nat -> h' !! l' = Demo.paid !! l').
Proof.
  assert (wf Demo.pool3 Demo.paid) as W by (apply wfb_wf; reflexivity).
  assert (firstWith (hasHash "18519d" Demo.paid) (KeyPool.keys Demo.pool3) 1%nat) as F.
  { apply find_firstWith. vm_compute. reflexivity. }
  split; [exact W|]. split; [exact F|].
  exact (proj1 (update_spec "18519d" Demo.checked 500 Demo.pool3 Demo.paid W) 1%nat F).
Defined.

(** C3 as stated fails on a hash that no record has: the call neither
    returns (it is not a no-op) nor throws an error of the pool's own; the
    runtime's [TypeError] escapes. *)
Lemma update_unknown_hash_throws :
  exists p h,
    poolOf "sk-a" = Ok (p, h) /\
    KeyPool.findByHash "000000" p h = None /\
    KeyPool.update "000000" Demo.noUpdate 500 p h
    = Throw (TypeError "Cannot convert undefined or null to object") /\
    returns (KeyPool.update "000000" Demo.noUpdate 500 p h) = false /\
    forall message, KeyPool.update "000000" Demo.noUpdate 500 p h <> Throw (Error message).
Proof.
  eexists _, _. split; [vm_compute; reflexivity|].
  split; [vm_compute; reflexivity|]. split; [vm_compute; reflexivity|].
  split; [vm_compute; reflexivity|]. intros m. vm_compute. discriminate.
Qed.

(** ** The public listing *)

Lemma freezeCopy_fold (ks : list loc) (acc : list loc) (h : heap) :
  (forall l, In l ks -> (l < length h)%nat) ->
  List.fold_left KeyPool.freezeCopy ks (acc, h)
  = (acc ++ seq (length h) (length ks),
     h ++ List.map (fun l => mkObj (set_key None (rd h l)) true) ks).
Proof.
  revert acc h. induction ks as [|k ks IH]; intros acc h Hb; simpl.
  - rewrite !app_nil_r. reflexivity.
  - unfold KeyPool.freezeCopy at 2. simpl. rewrite IH.
    + rewrite length_app. simpl. rewrite <- !app_assoc. simpl.
      replace (length h + 1)%nat with (S (length h)) by lia.
      f_equal. f_equal. f_equal.
      apply List.map_ext_in. intros l Hl.
      rewrite rd_app; [reflexivity|apply Hb; simpl; auto].
    + intros l Hl. rewrite length_app. simpl.
      assert (l < length h)%nat by (apply Hb; simpl; auto). lia.
Qed.

Lemma afterWrites_frozen (out : list loc) (h : heap) (ws : list (loc * (Key -> Key))) :
  (forall e, In e out -> exists k, h !! e = Some (mkObj k true)) ->
  (forall w, In w ws -> In (fst w) out) ->
  afterWrites ws h = h.
Proof.
  intros Hfr. induction ws as [|w ws IH]; intros Hin; [reflexivity|].
  unfold afterWrites. simpl.
  destruct (Hfr (fst w)) as [k Hk]; [apply Hin; simpl; auto|].
  rewrite (afterWrite_frozen _ _ _ _ Hk). apply IH. intros; apply Hin; simpl; auto.
Qed.

(** C9.  [list] returns, for each record of the pool and in the same order,
    a new frozen object that has the record's fields except that [key], the
    secret, is [undefined].  The pool's records are not touched by the call,
    no returned entry is a pool record, and any sequence of assignments
    through returned entries leaves the whole store, so every pool record,
    as it was. *)
Theorem list_snapshot (p : KeyPool.t) (h : heap) :
  wf p h ->
  exists out h',
    KeyPool.list p h = (out, h') /\
    length out = length (KeyPool.keys p) /\
    (forall i l, KeyPool.keys p !! i = Some l ->
       exists e, out !! i = Some e /\
                 rd h' e = set_key None (rd h l) /\
                 key (rd h' e) = None /\
                 isFrozen h' e = true) /\
    (forall l, (l < length h)%nat -> h' !! l = h !! l) /\
    (forall e, In e out -> ~ In e (KeyPool.keys p)) /\
    (forall ws, (forall w, In w ws -> In (fst w) out) -> afterWrites ws h' = h').
Proof.
  intros W.
  exists (seq (length h) (length (KeyPool.keys p))).
  exists (h ++ List.map (fun l => mkObj (set_key None (rd h l)) true) (KeyPool.keys p)).
  assert (forall e, In e (seq (length h) (length (KeyPool.keys p))) ->
            exists l, KeyPool.keys p !! (e - length h)%nat = Some l /\
              (h ++ List.map (fun l => mkObj (set_key None (rd h l)) true) (KeyPool.keys p)) !! e
              = Some (mkObj (set_key None (rd h l)) true)) as Hent.
  { intros e He. apply in_seq in He.
    destruct (KeyPool.keys p !! (e - length h)%nat) as [l|] eqn:E.
    - exists l. split; [reflexivity|].
      rewrite lookup_app_r by lia. rewrite lookup_map, E. reflexivity.
    - apply lookup_ge_None in E. lia. }
  split; [|split; [|split; [|split; [|split]]]].
  - unfold KeyPool.list. apply (freezeCopy_fold _ [] h). intros l Hl. eapply wf_below; eauto.
  - apply length_seq.
  - intros i l Hi. pose proof (lookup_lt_Some _ _ _ Hi) as Hlt.
    exists (length h + i)%nat. split; [apply lookup_seq_lt; exact Hlt|].
    destruct (Hent (length h + i)%nat) as (l' & Hl' & Hlook); [apply in_seq; lia|].
    replace (length h + i - length h)%nat with i in Hl' by lia.
    assert (l' = l) by congruence. subst l'.
    rewrite (rd_lookup _ _ _ _ Hlook). unfold isFrozen. rewrite Hlook. simpl. auto.
  - intros l Hl. apply lookup_app_l. exact Hl.
  - intros e He Hin. apply in_seq in He. pose proof (wf_below _ _ _ W Hin). lia.
  - intros ws Hws. eapply afterWrites_frozen; [|exact Hws].
    intros e He. destruct (Hent e He) as (l & _ & Hlook). eauto.
Qed.

Lemma list_snapshot_witness :
  wf Demo.pool3 Demo.paid /\
  exists out h',
    KeyPool.list Demo.pool3 Demo.paid = (out, h') /\
    length out = 3%nat /\
    (forall ws, (forall w, In w ws -> In (fst w) out) -> afterWrites ws h' = h').
Proof.
  assert (wf Demo.pool3 Demo.paid) as W by (apply wfb_wf; reflexivity).
  split; [exact W|].
  destruct (list_snapshot Demo.pool3 Demo.paid W) as (out & h' & E & Hlen & _ & _ & _ & Hws).
  exists out, h'. auto.
Defined.

(** The listing of the paid pool, and an assignment through its first
    entry: it is refused and the store stays as it is. *)
Example list_paid :
  exists h',
    KeyPool.list Demo.pool3 Demo.paid = ([3%nat; 4%nat; 5%nat], h') /\
    List.map (fun e => key (rd h' e)) [3%nat; 4%nat; 5%nat] = [None; None; None] /\
    List.map (fun e => hash (rd h' e)) [3%nat; 4%nat; 5%nat] = ["a4a6d3"; "18519d"; "923e70"] /\
    returns (write 3%nat (set_isDisabled false) h') = false /\
    afterWrite 3%nat (set_isDisabled false) h' = h'.
Proof.
  eexists. split; [vm_compute; reflexivity|]. repeat split; vm_compute; reflexivity.
Qed.

(** ** The quota fraction *)

Section Sums.
Local Open Scope Q_scope.

Lemma fold_add_nonneg (g : loc -> Q) (ks : list loc) (a : Q) :
  0 <= a -> (forall l, In l ks -> 0 <= g l) ->
  0 <= List.fold_left (fun acc l => acc + g l) ks a.
Proof.
  revert a. induction ks as [|k ks IH]; intros a Ha Hg; simpl; auto.
  apply IH.
  - assert (0 <= g k) by (apply Hg; simpl; auto).
    replace 0 with (0 + 0) by reflexivity. apply Qplus_le_compat; auto.
  - intros l Hl. apply Hg. simpl; auto.
Qed.

Lemma fold_add_le (g1 g2 : loc -> Q) (ks : list loc) (a b : Q) :
  a <= b -> (forall l, In l ks -> g1 l <= g2 l) ->
  List.fold_left (fun acc l => acc + g1 l) ks a
  <= List.fold_left (fun acc l => acc + g2 l) ks b.
Proof.
  revert a b. induction ks as [|k ks IH]; intros a b Hab Hg; simpl; auto.
  apply IH.
  - apply Qplus_le_compat; auto. apply Hg. simpl; auto.
  - intros l Hl. apply Hg. simpl; auto.
Qed.

Lemma min_le_r (a b : Q) : Num.min a b <= b.
Proof.
  unfold Num.min. destruct (Qle_bool a b) eqn:E.
  - apply Qle_bool_iff. exact E.
  - apply Qle_refl.
Qed.

Lemma min_nonneg (a b : Q) : 0 <= a -> 0 <= b -> 0 <= Num.min a b.
Proof. unfold Num.min. destruct (Qle_bool a b); auto. Qed.

Lemma usage_bounds (h : heap) (ks : list loc) :
  nonNegative h ks ->
  0 <= KeyPool.totalUsage h ks /\ KeyPool.totalUsage h ks <= KeyPool.totalLimit h ks.
Proof.
  intros Hnn. split.
  - apply (fold_add_nonneg (fun l => Num.min (usage (rd h l)) (hardLimit (rd h l)))).
    + apply Qle_refl.
    + intros l Hl. destruct (Hnn l Hl). apply min_nonneg; auto.
  - apply (fold_add_le (fun l => Num.min (usage (rd h l)) (hardLimit (rd h l)))
                       (fun l => hardLimit (rd h l))).
    + apply Qle_refl.
    + intros l Hl. apply min_le_r.
Qed.

Lemma quota_unfold (gpt4Only : bool) (p : KeyPool.t) (h : heap) :
  KeyPool.calculateRemainingQuota gpt4Only p h
  = match quotaKeys gpt4Only p h with
    | [] => Fin 0
    | ks => Num.oneMinus (Num.div (KeyPool.totalUsage h ks) (KeyPool.totalLimit h ks))
    end.
Proof.
  unfold KeyPool.calculateRemainingQuota, quotaKeys.
  destruct (if gpt4Only then _ else _); reflexivity.
Qed.

(** On an empty key set the fraction is exactly 0. *)
Lemma quota_empty (gpt4Only : bool) (p : KeyPool.t) (h : heap) :
  quotaKeys gpt4Only p h = [] -> KeyPool.calculateRemainingQuota gpt4Only p h = Fin 0.
Proof. intros E. rewrite quota_unfold, E. reflexivity. Qed.

(** On a key set of positive total limit, with no negative usage or limit,
    the fraction is a finite number between 0 and 1. *)
Lemma quota_in_unit_interval (gpt4Only : bool) (p : KeyPool.t) (h : heap) :
  let ks := quotaKeys gpt4Only p h in
  nonNegative h ks ->
  0 < KeyPool.totalLimit h ks ->
  exists q, KeyPool.calculateRemainingQuota gpt4Only p h = Fin q /\ 0 <= q /\ q <= 1.
Proof.
  intros ks Hnn Hpos. rewrite quota_unfold. fold ks.
  destruct (usage_bounds h ks Hnn) as [Hu Hle].
  destruct ks as [|k ks'] eqn:E.
  - exfalso. revert Hpos. apply Qlt_irrefl.
  - rewrite <- E in *. unfold Num.div.
    destruct (Qeq_bool (KeyPool.totalLimit h ks) 0) eqn:Z.
    + apply Qeq_bool_iff in Z. rewrite Z in Hpos. exfalso. revert Hpos. apply Qlt_irrefl.
    + simpl. eexists. split; [reflexivity|].
      assert (0 <= KeyPool.totalUsage h ks / KeyPool.totalLimit h ks) as H0.
      { apply Qle_shift_div_l; auto. rewrite Qmult_0_l. exact Hu. }
      assert (KeyPool.totalUsage h ks / KeyPool.totalLimit h ks <= 1) as H1.
      { apply Qle_shift_div_r; auto. rewrite Qmult_1_l. exact Hle. }
      revert H0 H1. generalize (KeyPool.totalUsage h ks / KeyPool.totalLimit h ks).
      intros x H0 H1. split; lra.
Qed.

(** On a non-empty key set whose total limit is zero, with no negative usage
    or limit, the fraction is [0/0]: the result is [NaN], not 0. *)
Lemma quota_zero_limit (gpt4Only : bool) (p : KeyPool.t) (h : heap) :
  let ks := quotaKeys gpt4Only p h in
  ks <> [] ->
  nonNegative h ks ->
  KeyPool.totalLimit h ks == 0 ->
  KeyPool.calculateRemainingQuota gpt4Only p h = NaN.
Proof.
  intros ks Hne Hnn Hz. rewrite quota_unfold. fold ks.
  destruct (usage_bounds h ks Hnn) as [Hu Hle].
  destruct ks as [|k ks'] eqn:E; [contradiction|].
  rewrite <- E in *. unfold Num.div.
  assert (Qeq_bool (KeyPool.totalLimit h ks) 0 = true) as Z1 by (apply Qeq_bool_iff; exact Hz).
  assert (Qeq_bool (KeyPool.totalUsage h ks) 0 = true) as Z2.
  { apply Qeq_bool_iff. apply Qle_antisym; [|exact Hu]. rewrite <- Hz. exact Hle. }
  rewrite Z1, Z2. reflexivity.
Qed.

End Sums.

(** C1 at a pool that has not been checked yet.  The one key of
    [OPENAI_KEY=sk-a] starts with usage 0 and hard limit 0; the set of all
    keys is not empty and its total limit is zero, and the fraction computed
    is [1 - 0/0], which is [NaN].  (Restricted to GPT-4 keys the set is
    empty and the result is 0.) *)
Theorem quota_of_unchecked_pool_is_NaN :
  exists p h,
    poolOf "sk-a" = Ok (p, h) /\
    quotaKeys false p h <> [] /\
    Qeq (KeyPool.totalLimit h (quotaKeys false p h)) 0 /\
    KeyPool.calculateRemainingQuota false p h = NaN /\
    KeyPool.calculateRemainingQuota true p h = Fin 0.
Proof.
  eexists _, _. split; [vm_compute; reflexivity|].
  split; [discriminate|]. split; [reflexivity|]. split; reflexivity.
Qed.

(** After a health check has filled in the limits the fraction is a number:
    usage [5/2] of [120] leaves [47/48]. *)
Example quota_after_check :
  exists h',
    KeyPool.update "18519d" Demo.checked 500 Demo.pool3 Demo.paid = Ok h' /\
    KeyPool.calculateRemainingQuota true Demo.pool3 h' = Fin ((1 - (5 # 2) / (120 # 1))%Q) /\
    KeyPool.calculateRemainingQuota false Demo.pool3 h' = Fin ((1 - (5 # 2) / (120 # 1))%Q).
Proof.
  eexists. split; [vm_compute; reflexivity|]. split; vm_compute; reflexivity.
Qed.

(** ** The response stage *)

Lemma getProp_not_nullish (v : value) (name : string) (x : value) :
  Json.getProp v name = Ok x -> forall name', exists y, Json.getProp v name' = Ok y.
Proof. destruct v; simpl; try discriminate; eauto. Qed.

Lemma getProp_throws (v : value) (name : string) (e : exn) :
  Json.getProp v name = Throw e -> exists m, e = TypeError m.
Proof. destruct v; simpl; try discriminate; intros [= <-]; eauto. Qed.

Lemma getFirst_throws (v : value) (e : exn) :
  Json.getFirst v = Throw e -> exists m, e = TypeError m.
Proof. destruct v; simpl; try discriminate; intros [= <-]; eauto. Qed.

(** Reading the completion can only fail with a [TypeError]. *)
Lemma completionOf_throws (response : value) (e : exn) :
  Kobold.completionOf response = Throw e -> exists m, e = TypeError m.
Proof.
  unfold Kobold.completionOf.
  destruct (Json.getProp response "choices") as [c|e1] eqn:E1; simpl;
    [|intros [= <-]; eapply getProp_throws; eauto].
  destruct (Json.getFirst c) as [f|e2] eqn:E2; simpl;
    [|intros [= <-]; eapply getFirst_throws; eauto].
  destruct (Json.getProp f "message") as [m|e3] eqn:E3; simpl;
    [|intros [= <-]; eapply getProp_throws; eauto].
  apply getProp_throws.
Qed.

Lemma completionOf_model (response c : value) :
  Kobold.completionOf response = Ok c -> exists m, Json.getProp response "model" = Ok m.
Proof.
  unfold Kobold.completionOf.
  destruct (Json.getProp response "choices") as [x|e1] eqn:E1; simpl; [|discriminate].
  intros _. eapply getProp_not_nullish; eauto.
Qed.

Lemma lookupProp_noMember (name : string) (props : list (string * value)) :
  noMember name props -> Json.lookupProp name props = Undefined.
Proof.
  induction props as [|[k v] props IH]; intros H; simpl; [reflexivity|].
  destruct (String.eqb k name) eqn:E.
  - apply String.eqb_eq in E. subst. destruct (H v). simpl. auto.
  - apply IH. intros x Hx. apply (H x). simpl. auto.
Qed.

Lemma lookupProp_member (name : string) (v : value) (props : list (string * value)) :
  member name v props -> Json.lookupProp name props = v.
Proof.
  intros (before & rest & -> & Hno).
  induction before as [|[k x] before IH]; simpl.
  - rewrite String.eqb_refl. reflexivity.
  - destruct (String.eqb k name) eqn:E.
    + apply String.eqb_eq in E. subst. destruct (Hno x). simpl. auto.
    + apply IH. intros y Hy. apply (Hno y). simpl. auto.
Qed.

Lemma hasShape_reads (response t m : value) :
  hasShape response t m ->
  Kobold.completionOf response = Ok t /\ Json.getProp response "model" = Ok m.
Proof.
  intros (props & first & more & message & -> & Hc & Hm & Ht & Hmod).
  unfold Kobold.completionOf. simpl.
  rewrite (lookupProp_member _ _ _ Hc). simpl.
  rewrite (lookupProp_member _ _ _ Hm). simpl.
  rewrite (lookupProp_member _ _ _ Ht), (lookupProp_member _ _ _ Hmod). auto.
Qed.

Lemma sendEncoded_sent (rt : Runtime) (ce : option string) (text : string) (res : Response) :
  sent (Kobold.sendEncoded rt ce text res) = Some (encodedWith rt ce text).
Proof.
  unfold Kobold.sendEncoded, encodedWith, Kobold.encodingIs.
  destruct ce as [e|]; [|reflexivity].
  destruct (String.eqb e "gzip"); [reflexivity|].
  destruct (String.eqb e "deflate"); reflexivity.
Qed.

(** The stage after a success status and the accounting. *)
Lemma stage_passed (rt : Runtime) (keyPool : KeyPool.t) (proxyRes : IncomingMessage)
    (req : Request) (w w1 : World) (h2 : heap) :
  handleDownstreamErrors rt proxyRes req w = Passed w1 ->
  Kobold.incrementKeyUsage keyPool req (store w1) = Ok h2 ->
  Kobold.handleProxiedResponse rt keyPool proxyRes req w
  = match Kobold.onEnd rt (contentEncoding proxyRes) (chunks proxyRes)
                       (afterCopy rt proxyRes w1) with
    | Ok res3 => Kobold.Completed (mkWorld h2 res3)
    | Throw e => Kobold.Rejected e (mkWorld h2 (afterCopy rt proxyRes w1))
    end.
Proof.
  intros H1 H2. unfold Kobold.handleProxiedResponse. rewrite H1, H2. reflexivity.
Qed.

Lemma onEnd_parsed (rt : Runtime) (ce : option string) (chunks : list string)
    (res : Response) (body : string) (response : value) :
  Kobold.decodeBody rt ce (String.concat EmptyString chunks) = Ok body ->
  JSON_parse rt body = Ok response ->
  Kobold.onEnd rt ce chunks res
  = (content ← Kobold.completionOf response;
     model ← Json.getProp response "model";
     Ok (Kobold.sendEncoded rt ce
           (Json.stringify (Kobold.koboldResponse content model)) res)).
Proof. intros H1 H2. unfold Kobold.onEnd. rewrite H1. simpl. rewrite H2. reflexivity. Qed.

(** The accounting of a request whose key has the hash of a pool record:
    the first record with that hash has its prompt count raised by one. *)
Lemma incrementKeyUsage_counts (keyPool : KeyPool.t) (k l : loc) (h : heap) :
  wf keyPool h ->
  JsString.isEmpty (hash (rd h k)) = false ->
  firstWith (hasHash (hash (rd h k)) h) (KeyPool.keys keyPool) l ->
  exists h2, Kobold.incrementKeyUsage keyPool (mkRequest (Some k)) h = Ok h2 /\
             promptCount (rd h2 l) = promptCount (rd h l) + 1.
Proof.
  intros [_ Hlive] Hne F. pose proof F as F'. apply find_firstWith in F'.
  destruct (firstWith_In _ _ _ F) as [Hin _]. destruct (Hlive l Hin) as [x Hx].
  unfold Kobold.incrementKeyUsage, KeyPool.incrementPrompt, KeyPool.findByHash. simpl.
  rewrite Hne. unfold hasHash in F'. rewrite F'. rewrite (write_live _ _ _ _ Hx).
  eexists. split; [reflexivity|].
  rewrite rd_insert_eq by (eapply lookup_lt_Some; eauto).
  rewrite (rd_lookup _ _ _ _ Hx). reflexivity.
Qed.

(** C2, as the code has it.  After a success status the usage accounting
    is done first, before the body is looked at: the store the stage ends
    with is the one the accounting left, with the prompt counted.  When the
    parsed body is [null], or an object with no [choices], with empty
    [choices], or whose first choice has no [message], reading the
    completion throws a [TypeError] that nothing catches: the stage sends
    nothing.  When the message is there and only its [content] is missing,
    no error is raised: the stage sends the JSON text of
    [{results: [{text: undefined}], model: m}], that is a legacy body
    without a [text], compressed as the upstream body was. *)
Theorem missing_completion (rt : Runtime) (keyPool : KeyPool.t) (proxyRes : IncomingMessage)
    (req : Request) (w w1 : World) (h2 : heap) (body : string) (response : value) :
  handleDownstreamErrors rt proxyRes req w = Passed w1 ->
  Kobold.incrementKeyUsage keyPool req (store w1) = Ok h2 ->
  Kobold.decodeBody rt (contentEncoding proxyRes) (String.concat EmptyString (chunks proxyRes))
  = Ok body ->
  JSON_parse rt body = Ok response ->
  let outcome := Kobold.handleProxiedResponse rt keyPool proxyRes req w in
  let unanswered :=
    exists message,
      outcome = Kobold.Rejected (TypeError message) (mkWorld h2 (afterCopy rt proxyRes w1)) in
  (response = Null -> unanswered) /\
  (forall props, response = Obj props -> noMember "choices" props -> unanswered) /\
  (forall props, response = Obj props -> member "choices" (Arr []) props -> unanswered) /\
  (forall props first more,
     response = Obj props -> member "choices" (Arr (Obj first :: more)) props ->
     noMember "message" first -> unanswered) /\
  (forall props first more message model,
     response = Obj props -> member "choices" (Arr (Obj first :: more)) props ->
     member "message" (Obj message) first -> noMember "content" message ->
     member "model" model props ->
     exists w',
       outcome = Kobold.Completed w' /\ store w' = h2 /\
       sent (res w')
       = Some (encodedWith rt (contentEncoding proxyRes)
                 (Json.stringify
                    (Obj [("results", Arr [Obj [("text", Undefined)]]); ("model", model)])))) /\
  sent (afterCopy rt proxyRes w1) = sent (res w1) /\
  (forall k l,
     wf keyPool (store w1) -> req_key req = Some k ->
     JsString.isEmpty (hash (rd (store w1) k)) = false ->
     firstWith (hasHash (hash (rd (store w1) k)) (store w1)) (KeyPool.keys keyPool) l ->
     promptCount (rd h2 l) = promptCount (rd (store w1) l) + 1).
Proof.
  intros H1 H2 H3 H4 outcome unanswered. unfold unanswered, outcome.
  rewrite (stage_passed _ _ _ _ _ _ _ H1 H2), (onEnd_parsed _ _ _ _ _ _ H3 H4).
  split; [|split; [|split; [|split; [|split; [|split]]]]].
  - intros ->. simpl. eauto.
  - intros props -> Hno. unfold Kobold.completionOf. simpl.
    rewrite (lookupProp_noMember _ _ Hno). simpl. eauto.
  - intros props -> Hc. unfold Kobold.completionOf. simpl.
    rewrite (lookupProp_member _ _ _ Hc). simpl. eauto.
  - intros props first more -> Hc Hno. unfold Kobold.completionOf. simpl.
    rewrite (lookupProp_member _ _ _ Hc). simpl.
    rewrite (lookupProp_noMember _ _ Hno). simpl. eauto.
  - intros props first more message model -> Hc Hm Hno Hmod.
    unfold Kobold.completionOf. simpl.
    rewrite (lookupProp_member _ _ _ Hc). simpl.
    rewrite (lookupProp_member _ _ _ Hm). simpl.
    rewrite (lookupProp_noMember _ _ Hno), (lookupProp_member _ _ _ Hmod). simpl.
    eexists. split; [reflexivity|]. split; [reflexivity|]. apply sendEncoded_sent.
  - reflexivity.
  - intros k l W Hk Hne F.
    destruct (incrementKeyUsage_counts keyPool k l (store w1) W Hne F) as (h2' & E & Hc).
    assert (req = mkRequest (Some k)) as Hreq by (destruct req; simpl in Hk; congruence).
    rewrite Hreq in H2. rewrite E in H2. inversion H2; subst. exact Hc.
Qed.

Example fresh_is_constructed : poolOf "sk-a" = Ok (Demo.pool1, Demo.fresh).
Proof. vm_compute. reflexivity. Qed.

Example parse_examples :
  JsonParse.parse DemoStage.completion = Ok DemoStage.completionValue /\
  JsonParse.parse DemoStage.emptyChoices = Ok DemoStage.emptyChoicesValue /\
  JsonParse.parse DemoStage.noContent = Ok DemoStage.noContentValue /\
  Json.stringify (Kobold.koboldResponse (Str "hello") (Str "gpt-x")) = DemoStage.translated.
Proof. repeat split; vm_compute; reflexivity. Qed.

Lemma member_here (name : string) (v : value) (rest : list (string * value)) :
  member name v ((name, v) :: rest).
Proof. exists [], rest. split; [reflexivity|]. intros x []. Qed.

Lemma member_later (name k : string) (v x : value) (rest : list (string * value)) :
  k <> name -> member name v rest -> member name v ((k, x) :: rest).
Proof.
  intros Hne (before & after & -> & Hno). exists ((k, x) :: before), after.
  split; [reflexivity|]. intros y [H|H]; [congruence|]. apply (Hno y H).
Qed.

Lemma noMember_nil (name : string) : noMember name [].
Proof. intros v []. Qed.

Lemma noMember_cons (name k : string) (x : value) (rest : list (string * value)) :
  k <> name -> noMember name rest -> noMember name ((k, x) :: rest).
Proof. intros Hne Hno y [H|H]; [congruence|]. apply (Hno y H). Qed.

Ltac members :=
  repeat first
    [ apply member_here
    | apply noMember_nil
    | apply member_later; [discriminate|]
    | apply noMember_cons; [discriminate|] ].

Lemma missing_completion_witness :
  (exists message,
     DemoStage.run "null" = Kobold.Rejected (TypeError message) (DemoStage.unanswered "null")) /\
  (exists message,
     DemoStage.run DemoStage.noChoices
     = Kobold.Rejected (TypeError message) (DemoStage.unanswered DemoStage.noChoices)) /\
  (exists message,
     DemoStage.run DemoStage.emptyChoices
     = Kobold.Rejected (TypeError message) (DemoStage.unanswered DemoStage.emptyChoices)) /\
  (exists message,
     DemoStage.run DemoStage.noMessage
     = Kobold.Rejected (TypeError message) (DemoStage.unanswered DemoStage.noMessage)) /\
  (exists w',
     DemoStage.run DemoStage.noContent = Kobold.Completed w' /\
     store w' = Demo.counted /\
     sent (res w') = Some (js "{'results':[{}],'model':'gpt-x'}")) /\
  sent (res (DemoStage.unanswered "null")) = None /\
  promptCount (rd Demo.counted 0) = promptCount (rd Demo.fresh 0) + 1.
Proof.
  assert (forall body value,
            JsonParse.parse body = Ok value ->
            handleDownstreamErrors Ref.runtime (DemoStage.upstream None body) DemoStage.request
              (DemoStage.world Demo.fresh) = Passed (DemoStage.world Demo.fresh) /\
            Kobold.incrementKeyUsage Demo.pool1 DemoStage.request
              (store (DemoStage.world Demo.fresh)) = Ok Demo.counted /\
            Kobold.decodeBody Ref.runtime (contentEncoding (DemoStage.upstream None body))
              (String.concat EmptyString (chunks (DemoStage.upstream None body))) = Ok body /\
            JSON_parse Ref.runtime body = Ok value) as Hyp.
  { intros body value Hp. split; [reflexivity|]. split; [vm_compute; reflexivity|].
    split; [reflexivity|exact Hp]. }
  split; [|split; [|split; [|split; [|split; [|split]]]]].
  - destruct (Hyp "null" Null) as (H1 & H2 & H3 & H4); [vm_compute; reflexivity|].
    destruct (missing_completion Ref.runtime Demo.pool1 _ _ _ _ _ _ _ H1 H2 H3 H4)
      as (C & _). apply C. reflexivity.
  - destruct (Hyp DemoStage.noChoices DemoStage.noChoicesValue) as (H1 & H2 & H3 & H4);
      [vm_compute; reflexivity|].
    destruct (missing_completion Ref.runtime Demo.pool1 _ _ _ _ _ _ _ H1 H2 H3 H4)
      as (_ & C & _). eapply C; [reflexivity|members].
  - destruct (Hyp DemoStage.emptyChoices DemoStage.emptyChoicesValue) as (H1 & H2 & H3 & H4);
      [vm_compute; reflexivity|].
    destruct (missing_completion Ref.runtime Demo.pool1 _ _ _ _ _ _ _ H1 H2 H3 H4)
      as (_ & _ & C & _). eapply C; [reflexivity|members].
  - destruct (Hyp DemoStage.noMessage DemoStage.noMessageValue) as (H1 & H2 & H3 & H4);
      [vm_compute; reflexivity|].
    destruct (missing_completion Ref.runtime Demo.pool1 _ _ _ _ _ _ _ H1 H2 H3 H4)
      as (_ & _ & _ & C & _). eapply C; [reflexivity|members|members].
  - destruct (Hyp DemoStage.noContent DemoStage.noContentValue) as (H1 & H2 & H3 & H4);
      [vm_compute; reflexivity|].
    destruct (missing_completion Ref.runtime Demo.pool1 _ _ _ _ _ _ _ H1 H2 H3 H4)
      as (_ & _ & _ & _ & Hsend & _).
    destruct (Hsend _ [("message", Obj [("role", Str "assistant")])] [] [("role", Str "assistant")]
                (Str "gpt-x") eq_refl) as (w' & E & Hs & Hb); [members|members|members|members|].
    exists w'. split; [exact E|]. split; [exact Hs|]. exact Hb.
  - reflexivity.
  - destruct (Hyp "null" Null) as (H1 & H2 & H3 & H4); [vm_compute; reflexivity|].
    destruct (missing_completion Ref.runtime Demo.pool1 _ _ _ _ _ _ _ H1 H2 H3 H4)
      as (_ & _ & _ & _ & _ & _ & C). apply (C 0%nat 0%nat).
    + apply wfb_wf. reflexivity.
    + reflexivity.
    + reflexivity.
    + apply find_firstWith. vm_compute. reflexivity.
Defined.

(** C2 as stated fails on a success response with empty [choices]: the
    prompt has been counted (the record's count goes from 0 to 1), the
    handler throws a [TypeError], and no body, so no internal error either,
    is sent to the client.  And with a message that has no [content], no
    error is raised at all: a body without [text] is sent. *)
Lemma empty_choices_counted_and_unanswered :
  (exists w',
     Kobold.handleProxiedResponse Ref.runtime Demo.pool1
       (DemoStage.upstream None DemoStage.emptyChoices) DemoStage.request
       (DemoStage.world Demo.fresh)
     = Kobold.Rejected (Json.readOfNullish "message") w' /\
     sent (res w') = None /\
     promptCount (rd Demo.fresh 0) = 0 /\
     promptCount (rd (store w') 0) = 1) /\
  (exists w',
     Kobold.handleProxiedResponse Ref.runtime Demo.pool1
       (DemoStage.upstream None DemoStage.noContent) DemoStage.request
       (DemoStage.world Demo.fresh)
     = Kobold.Completed w' /\
     sent (res w') = Some (js "{'results':[{}],'model':'gpt-x'}") /\
     promptCount (rd (store w') 0) = 1).
Proof.
  split; eexists; (split; [vm_compute; reflexivity|]); repeat split; reflexivity.
Qed.

Lemma encodingIs_other (ce : option string) (name : string) :
  ce <> Some name -> Kobold.encodingIs ce name = false.
Proof.
  destruct ce as [s|]; simpl; auto. intros H.
  apply String.eqb_neq. congruence.
Qed.

(** C7, as the code has it.  The body is decoded with [gunzip] when
    [Content-Encoding] is exactly [gzip] and with [inflate] when it is
    exactly [deflate].  With any other value, as with none, the body is
    taken as it is, parsed and translated, and the result is sent without
    compression and without setting the header: the handler goes exactly as
    it does for an absent header, and no value is refused. *)
Theorem other_encoding_is_identity (rt : Runtime) (ce : option string) (chunks : list string)
    (res : Response) :
  ce <> Some "gzip" ->
  ce <> Some "deflate" ->
  (forall body, Kobold.decodeBody rt ce body = Ok body) /\
  (forall text, Kobold.sendEncoded rt ce text res = res_send text res) /\
  Kobold.onEnd rt ce chunks res = Kobold.onEnd rt None chunks res /\
  (forall body, Kobold.decodeBody rt (Some "gzip") body = gunzip rt body) /\
  (forall body, Kobold.decodeBody rt (Some "deflate") body = inflate rt body).
Proof.
  intros Hg Hd.
  pose proof (encodingIs_other ce "gzip" Hg) as Eg.
  pose proof (encodingIs_other ce "deflate" Hd) as Ed.
  split; [|split; [|split; [|split]]].
  - intros body. unfold Kobold.decodeBody. rewrite Eg, Ed. reflexivity.
  - intros text. unfold Kobold.sendEncoded. rewrite Eg, Ed. reflexivity.
  - unfold Kobold.onEnd, Kobold.decodeBody, Kobold.sendEncoded. rewrite Eg, Ed. reflexivity.
  - reflexivity.
  - reflexivity.
Qed.

Lemma other_encoding_is_identity_witness :
  Some "br" <> Some "gzip" /\ Some "br" <> Some "deflate" /\
  Kobold.onEnd Ref.runtime (Some "br") [DemoStage.completion] Ref.emptyResponse
  = Kobold.onEnd Ref.runtime None [DemoStage.completion] Ref.emptyResponse.
Proof.
  split; [discriminate|]. split; [discriminate|].
  apply (other_encoding_is_identity Ref.runtime (Some "br") [DemoStage.completion]
           Ref.emptyResponse); discriminate.
Defined.

(** C7 as stated fails on other values.  A JSON body labelled [br] is not
    refused: it is translated and sent like an unlabelled one.  A gzip body
    labelled [x-gzip] is not decoded and not refused either: it goes to
    [JSON.parse], whose [SyntaxError] is what escapes, and nothing is sent. *)
Lemma unsupported_encoding_not_refused :
  (exists w',
     Kobold.handleProxiedResponse Ref.runtime Demo.pool1
       (DemoStage.upstream (Some "br") DemoStage.completion) DemoStage.request
       (DemoStage.world Demo.fresh)
     = Kobold.Completed w' /\
     sent (res w') = Some DemoStage.translated) /\
  (exists message w',
     Kobold.handleProxiedResponse Ref.runtime Demo.pool1
       (DemoStage.upstream (Some "x-gzip") (gzip Ref.runtime DemoStage.completion))
       DemoStage.request (DemoStage.world Demo.fresh)
     = Kobold.Rejected (SyntaxError message) w' /\
     sent (res w') = None).
Proof.
  split.
  - eexists. split; [vm_compute; reflexivity|]. reflexivity.
  - eexists _, _. split; [vm_compute; reflexivity|]. reflexivity.
Qed.

Lemma header_after_set (v b : string) (res : Response) :
  getHeader "content-encoding" (out_headers (res_send b (res_set "Content-Encoding" v res)))
  = Some v.
Proof. reflexivity. Qed.

Lemma onEnd_shaped (rt : Runtime) (ce : option string) (chunks : list string)
    (res : Response) (text : string) (response t m : value) :
  Kobold.decodeBody rt ce (String.concat EmptyString chunks) = Ok text ->
  JSON_parse rt text = Ok response ->
  hasShape response t m ->
  Kobold.onEnd rt ce chunks res
  = Ok (Kobold.sendEncoded rt ce (Json.stringify (Kobold.koboldResponse t m)) res).
Proof.
  intros H1 H2 Hs. rewrite (onEnd_parsed _ _ _ _ _ _ H1 H2).
  destruct (hasShape_reads _ _ _ Hs) as [-> ->]. reflexivity.
Qed.

Lemma string_append_assoc (a b c : string) :
  String.append (String.append a b) c = String.append a (String.append b c).
Proof. induction a as [|x a IH]; simpl; [reflexivity|]. rewrite IH. reflexivity. Qed.

(** C8.  Take a success response whose body, once decoded, parses to
    [{choices: [{message: {content: t}}], model: m}].  If it came with
    [Content-Encoding: gzip], the client is sent a body that [gunzip] turns
    into the JSON text of [{results: [{text: t}], model: m}], under the
    header [Content-Encoding: gzip]; likewise for [deflate] with [inflate];
    with no encoding, or [identity], the client is sent that JSON text
    itself, and the headers are exactly those copied from the upstream, so
    the [Content-Encoding] header is the upstream's as soon as the copying
    carries it over.  For strings [t] and [m] that JSON text is
    [{"results":[{"text":t}],"model":m}] with [t] and [m] quoted.  (The
    compressors are only assumed to be inverted by their decompressors.) *)
Theorem response_round_trip (rt : Runtime) (keyPool : KeyPool.t) (proxyRes : IncomingMessage)
    (req : Request) (w w1 : World) (h2 : heap) (text : string) (response t m : value) :
  handleDownstreamErrors rt proxyRes req w = Passed w1 ->
  Kobold.incrementKeyUsage keyPool req (store w1) = Ok h2 ->
  JSON_parse rt text = Ok response ->
  hasShape response t m ->
  let upstreamBody := String.concat EmptyString (chunks proxyRes) in
  let expected :=
    Json.stringify (Obj [("results", Arr [Obj [("text", t)]]); ("model", m)]) in
  (contentEncoding proxyRes = Some "gzip" ->
   gunzip rt upstreamBody = Ok text ->
   (forall s, gunzip rt (gzip rt s) = Ok s) ->
   exists w' b,
     Kobold.handleProxiedResponse rt keyPool proxyRes req w = Kobold.Completed w' /\
     sent (res w') = Some b /\
     gunzip rt b = Ok expected /\
     getHeader "content-encoding" (out_headers (res w')) = Some "gzip")
  /\
  (contentEncoding proxyRes = Some "deflate" ->
   inflate rt upstreamBody = Ok text ->
   (forall s, inflate rt (deflate rt s) = Ok s) ->
   exists w' b,
     Kobold.handleProxiedResponse rt keyPool proxyRes req w = Kobold.Completed w' /\
     sent (res w') = Some b /\
     inflate rt b = Ok expected /\
     getHeader "content-encoding" (out_headers (res w')) = Some "deflate")
  /\
  (contentEncoding proxyRes = None \/ contentEncoding proxyRes = Some "identity" ->
   upstreamBody = text ->
   exists w',
     Kobold.handleProxiedResponse rt keyPool proxyRes req w = Kobold.Completed w' /\
     sent (res w') = Some expected /\
     out_headers (res w') = copyHttpHeaders rt proxyRes (out_headers (res w1)) /\
     (getHeader "content-encoding" (copyHttpHeaders rt proxyRes (out_headers (res w1)))
      = contentEncoding proxyRes ->
      getHeader "content-encoding" (out_headers (res w')) = contentEncoding proxyRes))
  /\
  (forall a b, t = Str a -> m = Str b ->
     expected
     = String.concat EmptyString
         [js "{'results':[{'text':"; Json.quote a; js "}],'model':"; Json.quote b; "}"]).
Proof.
  intros H1 H2 Hp Hs upstreamBody expected.
  rewrite (stage_passed _ _ _ _ _ _ _ H1 H2).
  split; [|split; [|split]].
  - intros Hce Hdec Hrt.
    rewrite (onEnd_shaped rt _ _ _ text response t m); auto;
      [|rewrite Hce; exact Hdec].
    rewrite Hce. eexists _, _. split; [reflexivity|].
    split; [reflexivity|]. split; [apply Hrt|reflexivity].
  - intros Hce Hdec Hrt.
    rewrite (onEnd_shaped rt _ _ _ text response t m); auto;
      [|rewrite Hce; exact Hdec].
    rewrite Hce. eexists _, _. split; [reflexivity|].
    split; [reflexivity|]. split; [apply Hrt|reflexivity].
  - intros Hce Hbody.
    assert (Kobold.encodingIs (contentEncoding proxyRes) "gzip" = false) as Eg
      by (destruct Hce as [-> | ->]; reflexivity).
    assert (Kobold.encodingIs (contentEncoding proxyRes) "deflate" = false) as Ed
      by (destruct Hce as [-> | ->]; reflexivity).
    rewrite (onEnd_shaped rt _ _ _ text response t m); auto.
    + unfold Kobold.sendEncoded. rewrite Eg, Ed.
      eexists. split; [reflexivity|]. split; [reflexivity|]. split; [reflexivity|].
      intros Hcopy. exact Hcopy.
    + unfold Kobold.decodeBody. rewrite Eg, Ed. fold upstreamBody. rewrite Hbody. reflexivity.
  - intros a b -> ->. unfold expected, Json.quote. simpl.
    repeat (rewrite !string_append_assoc; simpl). reflexivity.
Qed.

Lemma ref_gunzip_gzip (s : string) : gunzip Ref.runtime (gzip Ref.runtime s) = Ok s.
Proof. reflexivity. Qed.

Lemma ref_inflate_deflate (s : string) : inflate Ref.runtime (deflate Ref.runtime s) = Ok s.
Proof. reflexivity. Qed.

Lemma completion_hasShape : hasShape DemoStage.completionValue (Str "hello") (Str "gpt-x").
Proof.
  exists [("choices", Arr [Obj [("message", Obj [("content", Str "hello")])]]);
          ("model", Str "gpt-x")],
         [("message", Obj [("content", Str "hello")])], [], [("content", Str "hello")].
  split; [reflexivity|]. repeat split; members.
Qed.

Lemma response_round_trip_witness :
  (exists w' b,
     Kobold.handleProxiedResponse Ref.runtime Demo.pool1
       (DemoStage.upstream (Some "gzip") (gzip Ref.runtime DemoStage.completion))
       DemoStage.request (DemoStage.world Demo.fresh)
     = Kobold.Completed w' /\
     sent (res w') = Some b /\
     gunzip Ref.runtime b = Ok (js "{'results':[{'text':'hello'}],'model':'gpt-x'}") /\
     getHeader "content-encoding" (out_headers (res w')) = Some "gzip") /\
  (exists w' b,
     Kobold.handleProxiedResponse Ref.runtime Demo.pool1
       (DemoStage.upstream (Some "deflate") (deflate Ref.runtime DemoStage.completion))
       DemoStage.request (DemoStage.world Demo.fresh)
     = Kobold.Completed w' /\
     sent (res w') = Some b /\
     inflate Ref.runtime b = Ok (js "{'results':[{'text':'hello'}],'model':'gpt-x'}") /\
     getHeader "content-encoding" (out_headers (res w')) = Some "deflate") /\
  (exists w',
     Kobold.handleProxiedResponse Ref.runtime Demo.pool1
       (DemoStage.upstream (Some "identity") DemoStage.completion)
       DemoStage.request (DemoStage.world Demo.fresh)
     = Kobold.Completed w' /\
     sent (res w') = Some (js "{'results':[{'text':'hello'}],'model':'gpt-x'}") /\
     getHeader "content-encoding" (out_headers (res w')) = Some "identity").
Proof.
  assert (Kobold.incrementKeyUsage Demo.pool1 DemoStage.request
            (store (DemoStage.world Demo.fresh)) = Ok Demo.counted) as H2
    by (vm_compute; reflexivity).
  assert (JSON_parse Ref.runtime DemoStage.completion = Ok DemoStage.completionValue) as H3
    by (vm_compute; reflexivity).
  split; [|split].
  - destruct (response_round_trip Ref.runtime Demo.pool1
                (DemoStage.upstream (Some "gzip") (gzip Ref.runtime DemoStage.completion))
                DemoStage.request _ _ _ _ _ _ _ eq_refl H2 H3 completion_hasShape)
      as (Hgzip & _).
    apply Hgzip; [reflexivity|reflexivity|exact ref_gunzip_gzip].
  - destruct (response_round_trip Ref.runtime Demo.pool1
                (DemoStage.upstream (Some "deflate") (deflate Ref.runtime DemoStage.completion))
                DemoStage.request _ _ _ _ _ _ _ eq_refl H2 H3 completion_hasShape)
      as (_ & Hdeflate & _).
    apply Hdeflate; [reflexivity|reflexivity|exact ref_inflate_deflate].
  - destruct (response_round_trip Ref.runtime Demo.pool1
                (DemoStage.upstream (Some "identity") DemoStage.completion)
                DemoStage.request _ _ _ _ _ _ _ eq_refl H2 H3 completion_hasShape)
      as (_ & _ & Hid & _).
    destruct Hid as (w' & E & Hs & _ & Hh); [right; reflexivity|reflexivity|].
    exists w'. split; [exact E|]. split; [exact Hs|]. apply Hh. reflexivity.
Defined.

(** The three encodings on the spec's example: the client gets the text
    [{"results":[{"text":"hello"}],"model":"gpt-x"}], compressed as the
    upstream body was, under the upstream's header. *)
Example round_trip_examples :
  (exists w',
     Kobold.handleProxiedResponse Ref.runtime Demo.pool1
       (DemoStage.upstream (Some "gzip") (gzip Ref.runtime DemoStage.completion))
       DemoStage.request (DemoStage.world Demo.fresh) = Kobold.Completed w' /\
     sent (res w') = Some (gzip Ref.runtime DemoStage.translated) /\
     getHeader "content-encoding" (out_headers (res w')) = Some "gzip") /\
  (exists w',
     Kobold.handleProxiedResponse Ref.runtime Demo.pool1
       (DemoStage.upstream (Some "deflate") (deflate Ref.runtime DemoStage.completion))
       DemoStage.request (DemoStage.world Demo.fresh) = Kobold.Completed w' /\
     sent (res w') = Some (deflate Ref.runtime DemoStage.translated) /\
     getHeader "content-encoding" (out_headers (res w')) = Some "deflate") /\
  (exists w',
     Kobold.handleProxiedResponse Ref.runtime Demo.pool1
       (DemoStage.upstream None DemoStage.completion)
       DemoStage.request (DemoStage.world Demo.fresh) = Kobold.Completed w' /\
     sent (res w') = Some DemoStage.translated /\
     getHeader "content-encoding" (out_headers (res w')) = None /\
     promptCount (rd (store w') 0) = 1).
Proof.
  split; [|split]; eexists; (split; [vm_compute; reflexivity|]); repeat split; reflexivity.
Qed.

(** A failure status is left to the downstream error handler: the stage
    does no accounting and sends nothing of its own. *)
Example failure_is_taken_over :
  exists w',
    Kobold.handleProxiedResponse Ref.runtime Demo.pool1
      (mkIncoming 429 [] ["{}"]) DemoStage.request (DemoStage.world Demo.fresh)
    = Kobold.TakenOver w' /\
    promptCount (rd (store w') 0) = 0.
Proof. eexists. split; [vm_compute; reflexivity|]. reflexivity. Qed.

(** The info page counts through the listing and leaves the pool's records
    alone. *)
Example info_page_counts :
  exists h',
    InfoPage.keysInfo Demo.pool3 Demo.paid = (InfoPage.mkKeyInfo 3 2 0 0 0, h') /\
    List.firstn 3 h' = Demo.paid.
Proof. eexists. split; [vm_compute; reflexivity|]. reflexivity. Qed.

(** ** What every pool operation keeps *)

Lemma evolves_refl (k : Key) : evolves k k.
Proof. unfold evolves. repeat split; auto. lia. Qed.

Lemma evolves_trans (a b c : Key) : evolves a b -> evolves b c -> evolves a c.
Proof.
  unfold evolves. intros (H1 & H2 & H3 & H4) (G1 & G2 & G3 & G4).
  repeat split; try congruence; auto. lia.
Qed.

Lemma keeps_refl (p : KeyPool.t) (h : heap) : wf p h -> keeps p h h.
Proof.
  intros W. split; [exact W|]. split; [lia|]. split; auto using evolves_refl.
Qed.

Lemma keeps_trans (p : KeyPool.t) (a b c : heap) :
  keeps p a b -> keeps p b c -> keeps p a c.
Proof.
  intros (W1 & L1 & E1 & F1) (W2 & L2 & E2 & F2).
  split; [exact W2|]. split; [lia|]. split.
  - intros l Hl. eapply evolves_trans; eauto.
  - intros r Hr Hout. rewrite F2 by (auto; lia). auto.
Qed.

Lemma keeps_write (p : KeyPool.t) (h h' : heap) (l0 : loc) (f : Key -> Key) :
  wf p h -> In l0 (KeyPool.keys p) -> (forall k, evolves k (f k)) ->
  write l0 f h = Ok h' -> keeps p h h'.
Proof.
  intros [Hnd Hlive] Hin Hf Hw.
  destruct (Hlive l0 Hin) as [k0 Hk0].
  rewrite (write_live _ _ _ _ Hk0) in Hw. inversion Hw; subst; clear Hw.
  pose proof (lookup_lt_Some _ _ _ Hk0) as Hlt.
  split; [|split; [|split]].
  - split; [exact Hnd|]. intros l Hl. destruct (Nat.eq_dec l l0) as [->|Hne].
    + rewrite list_lookup_insert_eq by exact Hlt. eauto.
    + rewrite list_lookup_insert_ne by congruence. auto.
  - rewrite length_insert. lia.
  - intros l Hl. destruct (Nat.eq_dec l l0) as [->|Hne].
    + rewrite rd_insert_eq by exact Hlt. rewrite (rd_lookup _ _ _ _ Hk0). apply Hf.
    + unfold rd. rewrite list_lookup_insert_ne by congruence. apply evolves_refl.
  - intros r Hr Hout. apply list_lookup_insert_ne. congruence.
Qed.

Lemma keeps_app (p : KeyPool.t) (h ext : heap) : wf p h -> keeps p h (h ++ ext).
Proof.
  intros W. pose proof W as [Hnd Hlive].
  split; [|split; [|split]].
  - split; [exact Hnd|]. intros l Hl. destruct (Hlive l Hl) as [k Hk].
    exists k. rewrite lookup_app_l; [exact Hk|]. eapply lookup_lt_Some; eauto.
  - rewrite length_app. lia.
  - intros l Hl. rewrite rd_app by (eapply wf_below; eauto). apply evolves_refl.
  - intros r Hr _. apply lookup_app_l. exact Hr.
Qed.

Lemma evolves_lastUsed (now : Z) (k : Key) : evolves k (set_lastUsed now k).
Proof. unfold evolves. simpl. repeat split; auto. lia. Qed.

Lemma evolves_assign (u : KeyUpdate) (now : Z) (k : Key) : evolves k (assignUpdate u now k).
Proof. unfold evolves. simpl. repeat split; auto. lia. Qed.

Lemma evolves_disable (k : Key) : evolves k (set_isDisabled true k).
Proof. unfold evolves. simpl. repeat split; auto. lia. Qed.

Lemma evolves_count (k : Key) : evolves k (set_promptCount (promptCount k + 1) k).
Proof. unfold evolves. simpl. repeat split; auto. lia. Qed.

Lemma evolves_downgrade (k : Key) : evolves k (set_isGpt4 false k).
Proof. unfold evolves. simpl. repeat split; auto. lia. Qed.

Lemma list_store (p : KeyPool.t) (h : heap) :
  wf p h ->
  KeyPool.list p h
  = (seq (length h) (length (KeyPool.keys p)),
     h ++ List.map (fun l => mkObj (set_key None (rd h l)) true) (KeyPool.keys p)).
Proof.
  intros W. unfold KeyPool.list. apply (freezeCopy_fold _ [] h).
  intros l Hl. eapply wf_below; eauto.
Qed.

Lemma perform_keeps (c : History.call) (p : KeyPool.t) (h h' : heap) :
  wf p h -> History.perform c p h = Ok h' -> keeps p h h'.
Proof.
  intros W. destruct c as [model now|kh u now|arg|kh|kh|]; simpl.
  - destruct (get_cases model now p h W)
      as [[_ G]|[(t0 & k & F & Hk & G)|(_ & o & k & F & Hk & G)]]; rewrite G.
    + discriminate.
    + intros [= <-]. destruct (firstWith_In _ _ _ F) as [Hin _].
      eapply (keeps_write p h _ t0 (set_lastUsed now)); eauto using evolves_lastUsed.
      apply write_live. exact Hk.
    + intros [= <-]. destruct F as (i & Hi & _). pose proof (lookup_In _ _ _ Hi) as Hin.
      assert (keeps p h (<[o := mkObj (set_lastUsed now k) false]> h)) as K1.
      { eapply (keeps_write p h _ o (set_lastUsed now)); eauto using evolves_lastUsed.
        apply write_live. exact Hk. }
      eapply keeps_trans; [exact K1|]. apply keeps_app. apply K1.
  - unfold KeyPool.update, KeyPool.findByHash.
    destruct (List.find _ _) as [l|] eqn:F; [|discriminate].
    intros Hw. eapply keeps_write; eauto using evolves_assign, find_In.
  - unfold KeyPool.disable.
    destruct (List.find _ _) as [l|] eqn:F; [|discriminate].
    destruct (isDisabled (rd h l)).
    + intros [= <-]. apply keeps_refl. exact W.
    + intros Hw. eapply keeps_write; eauto using evolves_disable, find_In.
  - unfold KeyPool.incrementPrompt, KeyPool.findByHash.
    destruct kh as [kh|]; [|intros [= <-]; apply keeps_refl; exact W].
    destruct (JsString.isEmpty kh); [intros [= <-]; apply keeps_refl; exact W|].
    destruct (List.find _ _) as [l|] eqn:F; [|discriminate].
    intros Hw.
    eapply (keeps_write p h h' l (fun o => set_promptCount (promptCount o + 1) o));
      eauto using evolves_count, find_In.
  - unfold KeyPool.downgradeKey, KeyPool.findByHash.
    destruct kh as [kh|]; [|intros [= <-]; apply keeps_refl; exact W].
    destruct (JsString.isEmpty kh); [intros [= <-]; apply keeps_refl; exact W|].
    destruct (List.find _ _) as [l|] eqn:F; [|discriminate].
    intros Hw. eapply keeps_write; eauto using evolves_downgrade, find_In.
  - rewrite (list_store p h W). simpl. intros [= <-]. apply keeps_app. exact W.
Qed.

Lemma after_keeps (c : History.call) (p : KeyPool.t) (h : heap) :
  wf p h -> keeps p h (History.after p h c).
Proof.
  intros W. unfold History.after. destruct (History.perform c p h) as [h'|e] eqn:E.
  - eapply perform_keeps; eauto.
  - apply keeps_refl. exact W.
Qed.

Lemma afterAll_keeps (cs : list History.call) (p : KeyPool.t) (h : heap) :
  wf p h -> keeps p h (History.afterAll cs p h).
Proof.
  revert h. induction cs as [|c cs IH]; intros h W; simpl.
  - apply keeps_refl. exact W.
  - unfold History.afterAll. simpl.
    pose proof (after_keeps c p h W) as K1.
    eapply keeps_trans; [exact K1|]. apply IH. apply K1.
Qed.

(** X1.  The pool invariant is kept by every history of calls of [get],
    [update], [disable], [incrementPrompt], [downgradeKey] and [list]: the
    pool's records stay distinct live objects, none frozen, so no method
    ever finds a record missing or read-only. *)
Theorem history_keeps_wf (cs : list History.call) (p : KeyPool.t) (h : heap) :
  wf p h -> wf p (History.afterAll cs p h).
Proof. intros W. apply (afterAll_keeps cs p h W). Qed.

Lemma history_keeps_wf_witness :
  wf Demo.pool3 Demo.paid /\ wf Demo.pool3 (History.afterAll sampleHistory Demo.pool3 Demo.paid).
Proof.
  assert (wf Demo.pool3 Demo.paid) as W by (apply wfb_wf; reflexivity).
  split; [exact W|]. apply history_keeps_wf. exact W.
Defined.

Lemma constructor_records (openaiKey : option string) (h0 : heap) (p : KeyPool.t) (h : heap) :
  KeyPool.constructor openaiKey h0 = Ok (p, h) ->
  forall l, In l (KeyPool.keys p) -> exists e, rd h l = KeyPool.newKey e.
Proof.
  destruct openaiKey as [s|]; [|discriminate].
  destruct (JsString.isEmpty (JsString.trim s)) eqn:E.
  - unfold KeyPool.constructor. rewrite E. discriminate.
  - rewrite (constructor_ok s h0 E). intros [= <- <-] l Hl. simpl in Hl.
    apply in_seq in Hl. unfold rd. rewrite lookup_app_r by lia. rewrite lookup_map.
    destruct (_ !! (l - length h0)%nat) as [e|] eqn:Ee; simpl; eauto.
    apply lookup_ge_None in Ee. rewrite List.length_map in *. lia.
Qed.

(** X2.  Once the pool is constructed, whatever calls follow, every record
    keeps the secret it was made with and its hash stays the first six
    digits of the SHA-256 of that secret: no method assigns [key] or
    [hash]. *)
Theorem hash_is_of_secret (openaiKey : option string) (h0 : heap) (p : KeyPool.t) (h : heap)
    (cs : list History.call) (l : loc) :
  KeyPool.constructor openaiKey h0 = Ok (p, h) ->
  In l (KeyPool.keys p) ->
  exists secret,
    key (rd h l) = Some secret /\
    key (rd (History.afterAll cs p h) l) = Some secret /\
    hash (rd (History.afterAll cs p h) l) = JsString.slice0 6 (Sha256.digestHex secret).
Proof.
  intros Hc Hl. destruct (constructor_records _ _ _ _ Hc l Hl) as [e He].
  pose proof (constructor_wf _ _ _ _ Hc) as W.
  destruct (afterAll_keeps cs p h W) as (_ & _ & Hev & _).
  destruct (Hev l Hl) as (Hk & Hh & _).
  exists e. rewrite Hk, Hh, He. simpl. auto.
Qed.

Lemma hash_is_of_secret_witness :
  exists secret,
    key (rd Demo.fresh 0) = Some secret /\
    key (rd (History.afterAll sampleHistory Demo.pool1 Demo.fresh) 0) = Some secret /\
    hash (rd (History.afterAll sampleHistory Demo.pool1 Demo.fresh) 0)
    = JsString.slice0 6 (Sha256.digestHex secret).
Proof.
  apply (hash_is_of_secret (Some "sk-a") [] Demo.pool1 Demo.fresh sampleHistory 0%nat).
  - vm_compute. reflexivity.
  - simpl. auto.
Defined.

(** X3.  A disabled record stays disabled under every history of calls: no
    method, a health update included, ever sets [isDisabled] back. *)
Theorem disabled_is_permanent (cs : list History.call) (p : KeyPool.t) (h : heap) (l : loc) :
  wf p h ->
  In l (KeyPool.keys p) ->
  isDisabled (rd h l) = true ->
  isDisabled (rd (History.afterAll cs p h) l) = true.
Proof.
  intros W Hl Hd. destruct (afterAll_keeps cs p h W) as (_ & _ & Hev & _).
  destruct (Hev l Hl) as (_ & _ & H & _). auto.
Qed.

Lemma disabled_is_permanent_witness :
  wf Demo.pool3 Demo.paid /\ In 0%nat (KeyPool.keys Demo.pool3) /\
  isDisabled (rd Demo.paid 0) = true /\
  isDisabled (rd (History.afterAll sampleHistory Demo.pool3 Demo.paid) 0) = true.
Proof.
  assert (wf Demo.pool3 Demo.paid) as W by (apply wfb_wf; reflexivity).
  assert (In 0%nat (KeyPool.keys Demo.pool3)) as I by (simpl; auto).
  split; [exact W|]. split; [exact I|]. split; [reflexivity|].
  apply (disabled_is_permanent sampleHistory Demo.pool3 Demo.paid 0%nat W I). reflexivity.
Defined.

(** X4.  The prompt count of a record never goes down, whatever calls are
    made: only [incrementPrompt] assigns it, and it adds one. *)
Theorem promptCount_never_decreases (cs : list History.call) (p : KeyPool.t) (h : heap)
    (l : loc) :
  wf p h ->
  In l (KeyPool.keys p) ->
  promptCount (rd h l) <= promptCount (rd (History.afterAll cs p h) l).
Proof.
  intros W Hl. destruct (afterAll_keeps cs p h W) as (_ & _ & Hev & _).
  destruct (Hev l Hl) as (_ & _ & _ & H). exact H.
Qed.

Lemma promptCount_never_decreases_witness :
  wf Demo.pool3 Demo.paid /\ In 2%nat (KeyPool.keys Demo.pool3) /\
  promptCount (rd Demo.paid 2)
  <= promptCount (rd (History.afterAll sampleHistory Demo.pool3 Demo.paid) 2).
Proof.
  assert (wf Demo.pool3 Demo.paid) as W by (apply wfb_wf; reflexivity).
  assert (In 2%nat (KeyPool.keys Demo.pool3)) as I by (simpl; auto).
  split; [exact W|]. split; [exact I|].
  apply (promptCount_never_decreases sampleHistory Demo.pool3 Demo.paid 2%nat W I).
Defined.

(** The sample history, run: the third record was taken and counted, then
    disabled; the second was checked and then taken. *)
Example sample_history_run :
  let h := History.afterAll sampleHistory Demo.pool3 Demo.paid in
  length h = 8%nat /\
  (promptCount (rd h 2), isDisabled (rd h 2), lastUsed (rd h 2)) = (1, true, 100) /\
  (isGpt4 (rd h 1), lastChecked (rd h 1), lastUsed (rd h 1)) = (true, 150, 200).
Proof. vm_compute. repeat split; reflexivity. Qed.

(** X5.  Objects outside the pool are never touched by the pool: an entry
    of a listing, or a copy returned by [get], reads the same after any
    history of calls as it did when it was handed out. *)
Theorem outside_objects_are_stable (cs : list History.call) (p : KeyPool.t) (h : heap)
    (r : loc) :
  wf p h ->
  (r < length h)%nat ->
  ~ In r (KeyPool.keys p) ->
  History.afterAll cs p h !! r = h !! r.
Proof.
  intros W Hr Hout. destruct (afterAll_keeps cs p h W) as (_ & _ & _ & F). auto.
Qed.

Lemma outside_objects_are_stable_witness :
  wf Demo.pool3 (History.afterAll [History.ListKeys] Demo.pool3 Demo.paid) /\
  History.afterAll sampleHistory Demo.pool3
    (History.afterAll [History.ListKeys] Demo.pool3 Demo.paid) !! 4%nat
  = History.afterAll [History.ListKeys] Demo.pool3 Demo.paid !! 4%nat.
Proof.
  assert (wf Demo.pool3 (History.afterAll [History.ListKeys] Demo.pool3 Demo.paid)) as W
    by (apply wfb_wf; reflexivity).
  split; [exact W|].
  apply (outside_objects_are_stable sampleHistory Demo.pool3 _ 4%nat W).
  - vm_compute. lia.
  - simpl. intros [H|[H|[H|[]]]]; discriminate.
Defined.

(** ** Disabling *)

Lemma sameSecret_eq (a b : option string) : KeyPool.sameSecret a b = true <-> a = b.
Proof.
  destruct a as [x|], b as [y|]; simpl; split; try discriminate; auto.
  - intros H. apply String.eqb_eq in H. congruence.
  - intros [= ->]. apply String.eqb_refl.
Qed.

Lemma find_ext_all {A : Type} (f g : A -> bool) (l : list A) :
  (forall x, f x = g x) -> List.find f l = List.find g l.
Proof.
  intros H. induction l as [|a l IH]; simpl; auto. rewrite H, IH. reflexivity.
Qed.

Lemma set_isDisabled_same (k : Key) : isDisabled k = true -> set_isDisabled true k = k.
Proof. destruct k; simpl. intros ->. reflexivity. Qed.

(** What a [disable] that returns has done. *)
Lemma disable_effect (arg : loc) (p : KeyPool.t) (h h1 : heap) :
  wf p h ->
  KeyPool.disable arg p h = Ok h1 ->
  exists l k,
    firstWith (fun l => KeyPool.sameSecret (key (rd h l)) (key (rd h arg))) (KeyPool.keys p) l /\
    h !! l = Some (mkObj k false) /\
    h1 = <[l := mkObj (set_isDisabled true k) false]> h.
Proof.
  intros [_ Hlive]. unfold KeyPool.disable.
  destruct (List.find _ _) as [l|] eqn:F; [|discriminate].
  pose proof F as F'. apply find_firstWith in F'.
  destruct (Hlive l (find_In _ _ _ F)) as [k Hk].
  rewrite (rd_lookup _ _ _ _ Hk). intros H. exists l, k.
  split; [exact F'|]. split; [exact Hk|].
  destruct (isDisabled k) eqn:D.
  - inversion H; subst. rewrite (set_isDisabled_same k D).
    symmetry. apply list_insert_id. exact Hk.
  - rewrite (write_live _ _ _ _ Hk) in H. inversion H. reflexivity.
Qed.

Lemma rd_insert_cases (h : heap) (l : loc) (k k' : Key) (x : loc) :
  h !! l = Some (mkObj k false) ->
  rd (<[l := mkObj k' false]> h) x = if Nat.eqb x l then k' else rd h x.
Proof.
  intros Hk. destruct (Nat.eqb x l) eqn:E.
  - apply Nat.eqb_eq in E. subst. apply rd_insert_eq. eapply lookup_lt_Some; eauto.
  - apply Nat.eqb_neq in E. unfold rd. rewrite list_lookup_insert_ne by congruence. reflexivity.
Qed.

(** X6.  [disable] marks the first record of the pool that holds the secret
    of the key passed, and changes nothing else; called again with the same
    key it changes nothing at all. *)
Theorem disable_once (arg : loc) (p : KeyPool.t) (h h1 : heap) :
  wf p h ->
  KeyPool.disable arg p h = Ok h1 ->
  (exists l,
     firstWith (fun l => KeyPool.sameSecret (key (rd h l)) (key (rd h arg))) (KeyPool.keys p) l /\
     rd h1 l = set_isDisabled true (rd h l) /\
     (forall l', l' <> l -> h1 !! l' = h !! l')) /\
  KeyPool.disable arg p h1 = Ok h1.
Proof.
  intros W H. destruct (disable_effect arg p h h1 W H) as (l & k & F & Hk & ->).
  split.
  - exists l. split; [exact F|]. split.
    + rewrite (rd_insert_cases _ _ _ _ _ Hk), Nat.eqb_refl, (rd_lookup _ _ _ _ Hk). reflexivity.
    + intros l' Hne. apply list_lookup_insert_ne. congruence.
  - unfold KeyPool.disable.
    assert (forall x, key (rd (<[l := mkObj (set_isDisabled true k) false]> h) x) = key (rd h x)) as Hkey.
    { intros x. rewrite (rd_insert_cases _ _ _ _ _ Hk). destruct (Nat.eqb x l) eqn:E; auto.
      apply Nat.eqb_eq in E. subst. rewrite (rd_lookup _ _ _ _ Hk). reflexivity. }
    rewrite (find_ext_all _ (fun l => KeyPool.sameSecret (key (rd h l)) (key (rd h arg))))
      by (intros x; rewrite !Hkey; reflexivity).
    apply find_firstWith in F. rewrite F.
    rewrite (rd_insert_cases _ _ _ _ _ Hk), Nat.eqb_refl. reflexivity.
Qed.

Lemma disable_once_witness :
  wf Demo.pool3 Demo.paid /\
  exists h1,
    KeyPool.disable 1%nat Demo.pool3 Demo.paid = Ok h1 /\
    isDisabled (rd h1 1) = true /\
    KeyPool.disable 1%nat Demo.pool3 h1 = Ok h1.
Proof.
  assert (wf Demo.pool3 Demo.paid) as W by (apply wfb_wf; reflexivity).
  split; [exact W|]. eexists. split; [vm_compute; reflexivity|].
  split; [reflexivity|].
  apply (disable_once 1%nat Demo.pool3 Demo.paid _ W). vm_compute. reflexivity.
Defined.

(** What [get] returns has the fields of a usable pool record. *)
Lemma get_returns_usable (model : string) (now : Z) (p : KeyPool.t) (h : heap)
    (r : loc) (h' : heap) :
  wf p h ->
  KeyPool.get model now p h = Ok (r, h') ->
  exists l, In l (KeyPool.keys p) /\
            usable (KeyPool.needsGpt4 model) h l = true /\
            rd h' r = set_lastUsed now (rd h l).
Proof.
  intros W G.
  destruct (get_cases model now p h W)
    as [[_ G']|[(t0 & k & F & Hk & G')|(_ & o & k & F & Hk & G')]];
    rewrite G' in G; [discriminate| |]; inversion G; subst; clear G.
  - destruct (firstWith_In _ _ _ F) as [Hin Hok]. apply andb_prop in Hok as [Hok _].
    exists r. rewrite (rd_insert_cases _ _ _ _ _ Hk), Nat.eqb_refl, (rd_lookup _ _ _ _ Hk). auto.
  - destruct F as (i & Hi & Hok & _). exists o.
    rewrite rd_copy, (rd_lookup _ _ _ _ Hk). eauto using lookup_In.
Qed.

(** X7.  In a pool whose secrets are distinct, a key that has been disabled
    is not handed out by the next [get]: what [get] returns holds another
    secret. *)
Theorem disabled_key_is_not_selected (arg : loc) (model : string) (now : Z)
    (p : KeyPool.t) (h h1 : heap) (r : loc) (h2 : heap) :
  wf p h ->
  distinctSecrets p h ->
  KeyPool.disable arg p h = Ok h1 ->
  KeyPool.get model now p h1 = Ok (r, h2) ->
  key (rd h2 r) <> key (rd h arg).
Proof.
  intros W Hds Hd G.
  destruct (disable_effect arg p h h1 W Hd) as (l & k & F & Hk & ->).
  assert (wf p (<[l := mkObj (set_isDisabled true k) false]> h)) as W1.
  { apply (perform_keeps (History.Disable arg) p h _ W).
    simpl. rewrite Hd. reflexivity. }
  destruct (get_returns_usable _ _ _ _ _ _ W1 G) as (l' & Hin' & Hus & Hr).
  destruct (firstWith_In _ _ _ F) as [Hin Hsame]. apply sameSecret_eq in Hsame.
  rewrite Hr. simpl. rewrite (rd_insert_cases _ _ _ _ _ Hk) in *.
  destruct (Nat.eqb l' l) eqn:E.
  - apply usable_not_disabled in Hus.
    rewrite (rd_insert_cases _ _ _ _ _ Hk), E in Hus. discriminate.
  - intros C. apply Nat.eqb_neq in E. apply E. apply Hds; auto. congruence.
Qed.

Lemma disabled_key_is_not_selected_witness :
  wf Demo.pool3 Demo.paid /\
  exists h1 r h2,
    KeyPool.disable 2%nat Demo.pool3 Demo.paid = Ok h1 /\
    KeyPool.get "gpt-3.5-turbo" 100 Demo.pool3 h1 = Ok (r, h2) /\
    key (rd h2 r) <> key (rd Demo.paid 2).
Proof.
  assert (wf Demo.pool3 Demo.paid) as W by (apply wfb_wf; reflexivity).
  split; [exact W|]. eexists _, _, _.
  split; [vm_compute; reflexivity|]. split; [vm_compute; reflexivity|].
  eapply (disabled_key_is_not_selected 2%nat "gpt-3.5-turbo" 100 Demo.pool3 Demo.paid).
  - exact W.
  - intros a b Ha Hb. simpl in Ha, Hb.
    destruct Ha as [<-|[<-|[<-|[]]]]; destruct Hb as [<-|[<-|[<-|[]]]];
      vm_compute; intros E; try reflexivity; discriminate E.
  - vm_compute. reflexivity.
  - vm_compute. reflexivity.
Defined.

(** Without that, the code does hand a disabled secret out again: of two
    records made from a repeated entry only the first is marked. *)
Example repeated_entry_survives_disable :
  exists p h h1 r h2,
    poolOf "sk-a,sk-a" = Ok (p, h) /\
    KeyPool.disable 0%nat p h = Ok h1 /\
    KeyPool.get "gpt-3.5-turbo" 100 p h1 = Ok (r, h2) /\
    key (rd h2 r) = Some "sk-a".
Proof.
  eexists _, _, _, _, _. split; [vm_compute; reflexivity|].
  split; [vm_compute; reflexivity|]. split; [vm_compute; reflexivity|]. reflexivity.
Qed.

(** X8.  [anyAvailable] tells whether a selection can succeed: it is true
    exactly when [get] returns a key for a model that does not ask for
    GPT-4, and when it is false [get] throws for every model. *)
Theorem anyAvailable_decides_get (model : string) (now : Z) (p : KeyPool.t) (h : heap) :
  wf p h ->
  (KeyPool.needsGpt4 model = false ->
   (KeyPool.anyAvailable p h = true <-> exists r h', KeyPool.get model now p h = Ok (r, h')))
  /\
  (KeyPool.anyAvailable p h = false -> exists message, KeyPool.get model now p h = Throw (Error message)).
Proof.
  intros W. split.
  - intros Hm. split.
    + intros Ha. unfold KeyPool.anyAvailable in Ha. apply List.existsb_exists in Ha.
      destruct Ha as (l & Hin & Hen).
      assert (In l (KeyPool.availableKeys (KeyPool.needsGpt4 model) p h)) as Hav.
      { rewrite availableKeys_filter. apply List.filter_In. split; [exact Hin|].
        unfold usable. rewrite Hm, Hen. reflexivity. }
      destruct (get_cases model now p h W)
        as [[E _]|[(t0 & k & _ & _ & G)|(_ & o & k & _ & _ & G)]]; eauto.
      rewrite E in Hav. destruct Hav.
    + intros (r & h' & G).
      destruct (get_returns_usable _ _ _ _ _ _ W G) as (l & Hin & Hus & _).
      apply List.existsb_exists. exists l. split; [exact Hin|].
      apply usable_not_disabled in Hus. rewrite Hus. reflexivity.
  - intros Ha.
    destruct (KeyPool.get model now p h) as [[r h']|e] eqn:G.
    + exfalso. destruct (get_returns_usable _ _ _ _ _ _ W G) as (l & Hin & Hus & _).
      assert (KeyPool.anyAvailable p h = true) as C.
      { apply List.existsb_exists. exists l. split; [exact Hin|].
        apply usable_not_disabled in Hus. rewrite Hus. reflexivity. }
      congruence.
    + destruct (get_cases model now p h W)
        as [[_ G']|[(t0 & k & _ & _ & G')|(_ & o & k & _ & _ & G')]];
        rewrite G' in G; inversion G; eauto.
Qed.

Lemma anyAvailable_decides_get_witness :
  wf Demo.pool3 Demo.gpt4Disabled /\
  KeyPool.anyAvailable Demo.pool3 Demo.gpt4Disabled = true /\
  exists r h', KeyPool.get "text-davinci-003" 100 Demo.pool3 Demo.gpt4Disabled = Ok (r, h').
Proof.
  assert (wf Demo.pool3 Demo.gpt4Disabled) as W by (apply wfb_wf; reflexivity).
  split; [exact W|]. split; [reflexivity|].
  apply (proj1 (anyAvailable_decides_get "text-davinci-003" 100 Demo.pool3 Demo.gpt4Disabled W));
    reflexivity.
Defined.

(** ** Successive selections *)

Lemma firstWith_unique {A : Type} (ok : A -> bool) (l : list A) (x y : A) :
  firstWith ok l x -> firstWith ok l y -> x = y.
Proof.
  intros Hx Hy. apply find_firstWith in Hx. apply find_firstWith in Hy. congruence.
Qed.

Lemma firstWith_ext_in {A : Type} (ok ok' : A -> bool) (l : list A) (x : A) :
  (forall y, In y l -> ok y = ok' y) -> firstWith ok l x -> firstWith ok' l x.
Proof.
  intros He (i & Hi & Hok & Hlt). exists i. split; [exact Hi|]. split.
  - rewrite <- He; eauto using lookup_In.
  - intros j y Hj Hy. rewrite <- He; eauto using lookup_In.
Qed.

Lemma firstLeast_ext_in {A : Type} (ok ok' : A -> bool) (f f' : A -> Z) (l : list A) (x : A) :
  (forall y, In y l -> ok y = ok' y) -> (forall y, In y l -> f y = f' y) ->
  firstLeast ok f l x -> firstLeast ok' f' l x.
Proof.
  intros He Hf (i & Hi & Hok & Hle & Hlt).
  pose proof (lookup_In _ _ _ Hi) as Hin.
  exists i. split; [exact Hi|]. split; [rewrite <- He; auto|]. split.
  - intros j y Hj Hy. pose proof (lookup_In _ _ _ Hj) as Hy'.
    rewrite <- Hf, <- (Hf y) by auto. apply (Hle j); auto. rewrite He; auto.
  - intros j y Hlt' Hj Hy. pose proof (lookup_In _ _ _ Hj) as Hy'.
    rewrite <- Hf, <- (Hf y) by auto. apply (Hlt j); auto. rewrite He; auto.
Qed.

(** Setting [lastUsed] on a record changes what no filter of [get] looks
    at. *)
Lemma stamp_keeps_filters (h : heap) (l : loc) (k : Key) (now : Z) (needs : bool) (x : loc) :
  h !! l = Some (mkObj k false) ->
  usable needs (<[l := mkObj (set_lastUsed now k) false]> h) x = usable needs h x /\
  isTrial (rd (<[l := mkObj (set_lastUsed now k) false]> h) x) = isTrial (rd h x).
Proof.
  intros Hk. unfold usable. rewrite (rd_insert_cases _ _ _ _ _ Hk).
  destruct (Nat.eqb x l) eqn:E; auto.
  apply Nat.eqb_eq in E. subst. rewrite (rd_lookup _ _ _ _ Hk). auto.
Qed.

Lemma trial_step (model : string) (now : Z) (p : KeyPool.t) (h : heap) (t : loc) :
  wf p h ->
  firstWith (fun l => usable (KeyPool.needsGpt4 model) h l && isTrial (rd h l))
            (KeyPool.keys p) t ->
  exists h1,
    KeyPool.get model now p h = Ok (t, h1) /\ wf p h1 /\
    firstWith (fun l => usable (KeyPool.needsGpt4 model) h1 l && isTrial (rd h1 l))
              (KeyPool.keys p) t.
Proof.
  intros W F. destruct (firstWith_In _ _ _ F) as [Hin Hok].
  apply andb_prop in Hok as [Hus Htr].
  assert (In t (List.filter (fun l => isTrial (rd h l))
                  (KeyPool.availableKeys (KeyPool.needsGpt4 model) p h))) as Hmem.
  { apply List.filter_In. split; [|exact Htr].
    rewrite availableKeys_filter. apply List.filter_In. auto. }
  destruct (get_cases model now p h W)
    as [[E _]|[(t0 & k & F0 & Hk & G)|(Etr & _)]].
  - rewrite E in Hmem. destruct Hmem.
  - assert (t0 = t) by (eapply firstWith_unique; eauto). subst t0.
    eexists. split; [exact G|]. split.
    + apply (perform_keeps (History.Get model now) p h _ W). simpl. rewrite G. reflexivity.
    + eapply firstWith_ext_in; [|exact F]. intros y _.
      destruct (stamp_keeps_filters h t k now (KeyPool.needsGpt4 model) y Hk) as [-> ->].
      reflexivity.
  - rewrite Etr in Hmem. destruct Hmem.
Qed.

Lemma trial_steps (model : string) (nows : list Z) (p : KeyPool.t) (h : heap) (t : loc) :
  wf p h ->
  firstWith (fun l => usable (KeyPool.needsGpt4 model) h l && isTrial (rd h l))
            (KeyPool.keys p) t ->
  History.getMany model nows p h = List.map (fun _ => Some t) nows.
Proof.
  revert h. induction nows as [|now nows IH]; intros h W F; simpl; [reflexivity|].
  destruct (trial_step model now p h t W F) as (h1 & G & W1 & F1).
  rewrite G. f_equal. apply IH; auto.
Qed.

(** X9.  While a usable trial key exists, every [get] returns that same
    pool record, however many calls are made and whenever: the first usable
    trial record takes all the traffic, and being used does not change
    that. *)
Theorem trial_key_is_sticky (model : string) (nows : list Z) (p : KeyPool.t) (h : heap) :
  wf p h ->
  List.filter (fun l => isTrial (rd h l))
              (KeyPool.availableKeys (KeyPool.needsGpt4 model) p h) <> [] ->
  exists t,
    firstWith (fun l => usable (KeyPool.needsGpt4 model) h l && isTrial (rd h l))
              (KeyPool.keys p) t /\
    History.getMany model nows p h = List.map (fun _ => Some t) nows.
Proof.
  intros W Hne.
  destruct (List.filter _ _) as [|t ts] eqn:E; [contradiction|].
  rewrite availableKeys_filter, filter_filter in E. apply filter_head_firstWith in E.
  exists t. split; [exact E|]. apply trial_steps; auto.
Qed.

Lemma trial_key_is_sticky_witness :
  wf Demo.pool3 Demo.withTrial /\
  History.getMany "gpt-3.5-turbo" [100; 101; 50; 300] Demo.pool3 Demo.withTrial
  = [Some 1%nat; Some 1%nat; Some 1%nat; Some 1%nat].
Proof.
  assert (wf Demo.pool3 Demo.withTrial) as W by (apply wfb_wf; reflexivity).
  split; [exact W|].
  destruct (trial_key_is_sticky "gpt-3.5-turbo" [100; 101; 50; 300] Demo.pool3 Demo.withTrial W)
    as (t & F & G); [discriminate|].
  apply find_firstWith in F. vm_compute in F. inversion F; subst. exact G.
Defined.

(** What a [get] that finds no eligible trial record does: it stamps one
    eligible record of least [lastUsed] and returns a copy of it. *)
Lemma get_oldest_effect (model : string) (now : Z) (p : KeyPool.t) (h : heap)
    (r : loc) (h' : heap) :
  wf p h ->
  (forall l, In l (KeyPool.keys p) -> eligible model (rd h l) = true ->
             isTrial (rd h l) = false) ->
  KeyPool.get model now p h = Ok (r, h') ->
  exists o k,
    In o (KeyPool.keys p) /\ rd h o = k /\ eligible model k = true /\
    (forall y, In y (KeyPool.keys p) -> eligible model (rd h y) = true ->
               lastUsed k <= lastUsed (rd h y)) /\
    (forall y, In y (KeyPool.keys p) ->
               rd h' y = if Nat.eqb y o then set_lastUsed now k else rd h y) /\
    rd h' r = set_lastUsed now k.
Proof.
  intros W Hnt G.
  destruct (get_cases model now p h W)
    as [[_ G']|[(t0 & k & F & _ & G')|(_ & o & k & F & Hk & G')]]; rewrite G' in G.
  - discriminate.
  - exfalso. destruct (firstWith_In _ _ _ F) as [Hin Hok].
    apply andb_prop in Hok as [Hus Htr]. rewrite usable_eligible in Hus.
    rewrite (Hnt t0 Hin Hus) in Htr. discriminate.
  - inversion G; subst r h'; clear G G'.
    destruct F as (i & Hi & Hok & Hle & _). pose proof (lookup_In _ _ _ Hi) as Hin.
    exists o, k. split; [exact Hin|]. split; [eapply rd_lookup; eauto|].
    rewrite usable_eligible, (rd_lookup _ _ _ _ Hk) in Hok. split; [exact Hok|].
    split; [|split].
    + intros y Hy Hey.
      destruct (proj1 (list_elem_of_lookup _ _) (proj2 (list_elem_of_In _ _) Hy)) as [j Hj].
      specialize (Hle j y Hj). rewrite usable_eligible, (rd_lookup _ _ _ _ Hk) in Hle. auto.
    + intros y Hy. rewrite rd_app by (rewrite length_insert; eapply wf_below; eauto).
      apply (rd_insert_cases _ _ _ _ _ Hk).
    + apply rd_copy.
Qed.

(** X10.  Least-recently-used selection rotates.  With no eligible trial
    key and at least two eligible records, a [get] at a time later than
    every eligible record's [lastUsed] and the [get] after it stamp two
    different pool records: the first sets [lastUsed] of one record to its
    time and leaves the other records as they were, the second does so for
    another record, and each returns a copy of the record it stamped. *)
Theorem consecutive_gets_differ (model : string) (now now2 : Z) (p : KeyPool.t) (h : heap)
    (r1 : loc) (h1 : heap) (r2 : loc) (h2 : heap) :
  wf p h ->
  (forall l, In l (KeyPool.keys p) -> eligible model (rd h l) = true ->
             isTrial (rd h l) = false /\ lastUsed (rd h l) < now) ->
  (exists a b, a <> b /\ In a (KeyPool.keys p) /\ In b (KeyPool.keys p) /\
               eligible model (rd h a) = true /\ eligible model (rd h b) = true) ->
  KeyPool.get model now p h = Ok (r1, h1) ->
  KeyPool.get model now2 p h1 = Ok (r2, h2) ->
  exists o1 o2,
    o1 <> o2 /\ In o1 (KeyPool.keys p) /\ In o2 (KeyPool.keys p) /\
    lastUsed (rd h1 o1) = now /\
    (forall l, In l (KeyPool.keys p) -> l <> o1 -> rd h1 l = rd h l) /\
    rd h1 r1 = rd h1 o1 /\
    lastUsed (rd h2 o2) = now2 /\
    (forall l, In l (KeyPool.keys p) -> l <> o2 -> rd h2 l = rd h1 l) /\
    rd h2 r2 = rd h2 o2.
Proof.
  intros W Hold (a & b & Hab & Ha & Hb & Hua & Hub) G1 G2.
  assert (wf p h1) as W1.
  { apply (perform_keeps (History.Get model now) p h _ W). simpl. rewrite G1. reflexivity. }
  destruct (get_oldest_effect model now p h r1 h1 W) as (o1 & k1 & Hin1 & Hk1 & He1 & _ & Hrd1 & Hr1);
    [intros l Hl He; apply (Hold l Hl He)|exact G1|].
  assert (forall y, In y (KeyPool.keys p) -> eligible model (rd h1 y) = eligible model (rd h y)) as Hel.
  { intros y Hy. rewrite (Hrd1 y Hy). destruct (Nat.eqb y o1) eqn:E; auto.
    apply Nat.eqb_eq in E. subst. reflexivity. }
  assert (forall y, In y (KeyPool.keys p) -> isTrial (rd h1 y) = isTrial (rd h y)) as Htr.
  { intros y Hy. rewrite (Hrd1 y Hy). destruct (Nat.eqb y o1) eqn:E; auto.
    apply Nat.eqb_eq in E. subst. reflexivity. }
  destruct (get_oldest_effect model now2 p h1 r2 h2 W1)
    as (o2 & k2 & Hin2 & Hk2 & He2 & Hle2 & Hrd2 & Hr2); [|exact G2|].
  { intros l Hl He. rewrite Hel in He by exact Hl. rewrite Htr by exact Hl.
    apply (Hold l Hl He). }
  exists o1, o2. split; [|split; [exact Hin1|split; [exact Hin2|]]].
  - intros <-.
    assert (exists y, y <> o1 /\ In y (KeyPool.keys p) /\ eligible model (rd h y) = true)
      as (y & Hne & Hy & Huy).
    { destruct (Nat.eq_dec a o1) as [->|Hne]; [exists b|exists a]; auto. }
    assert (eligible model (rd h1 y) = true) as Huy1 by (rewrite Hel; auto).
    specialize (Hle2 y Hy Huy1). rewrite <- Hk2 in Hle2.
    rewrite (Hrd1 o1 Hin1), (Hrd1 y Hy), Nat.eqb_refl in Hle2.
    apply Nat.eqb_neq in Hne. rewrite Hne in Hle2. simpl in Hle2.
    destruct (Hold y Hy Huy) as [_ Hlt]. lia.
  - split; [rewrite (Hrd1 o1 Hin1), Nat.eqb_refl; reflexivity|]. split.
    { intros l Hl Hne. rewrite (Hrd1 l Hl). apply Nat.eqb_neq in Hne. rewrite Hne. reflexivity. }
    split; [rewrite Hr1, (Hrd1 o1 Hin1), Nat.eqb_refl; reflexivity|].
    split; [rewrite (Hrd2 o2 Hin2), Nat.eqb_refl; reflexivity|]. split.
    { intros l Hl Hne. rewrite (Hrd2 l Hl). apply Nat.eqb_neq in Hne. rewrite Hne. reflexivity. }
    rewrite Hr2, (Hrd2 o2 Hin2), Nat.eqb_refl. reflexivity.
Qed.

Lemma consecutive_gets_differ_witness :
  wf Demo.pool3 Demo.twoGpt4 /\
  exists h1 h2 o1 o2,
    KeyPool.get "gpt-4" 100 Demo.pool3 Demo.twoGpt4 = Ok (3%nat, h1) /\
    KeyPool.get "gpt-4" 200 Demo.pool3 h1 = Ok (4%nat, h2) /\
    o1 <> o2 /\
    lastUsed (rd h1 o1) = 100 /\
    (forall l, In l (KeyPool.keys Demo.pool3) -> l <> o1 -> rd h1 l = rd Demo.twoGpt4 l) /\
    lastUsed (rd h2 o2) = 200 /\
    (forall l, In l (KeyPool.keys Demo.pool3) -> l <> o2 -> rd h2 l = rd h1 l).
Proof.
  assert (wf Demo.pool3 Demo.twoGpt4) as W by (apply wfb_wf; reflexivity).
  split; [exact W|].
  pose (h1 := History.after Demo.pool3 Demo.twoGpt4 (History.Get "gpt-4" 100)).
  pose (h2 := History.after Demo.pool3 h1 (History.Get "gpt-4" 200)).
  assert (KeyPool.get "gpt-4" 100 Demo.pool3 Demo.twoGpt4 = Ok (3%nat, h1)) as G1
    by (vm_compute; reflexivity).
  assert (KeyPool.get "gpt-4" 200 Demo.pool3 h1 = Ok (4%nat, h2)) as G2
    by (vm_compute; reflexivity).
  destruct (consecutive_gets_differ "gpt-4" 100 200 Demo.pool3 Demo.twoGpt4
              3%nat h1 4%nat h2 W)
    as (o1 & o2 & Hne & _ & _ & S1 & F1 & _ & S2 & F2 & _).
  - intros l Hl. simpl in Hl. destruct Hl as [<-|[<-|[<-|[]]]]; vm_compute; intros Hu;
      try discriminate Hu; split; reflexivity.
  - exists 1%nat, 2%nat. split; [discriminate|]. simpl. repeat split; auto.
  - exact G1.
  - exact G2.
  - exists h1, h2, o1, o2. auto 10.
Defined.

(** The rotation on that pool: the third record first, then the second. *)
Example rotation_run :
  exists h1 h2,
    KeyPool.get "gpt-4" 100 Demo.pool3 Demo.twoGpt4 = Ok (3%nat, h1) /\
    KeyPool.get "gpt-4" 200 Demo.pool3 h1 = Ok (4%nat, h2) /\
    List.map (fun l => lastUsed (rd h1 l)) [0; 1; 2]%nat = [1; 7; 100] /\
    List.map (fun l => lastUsed (rd h2 l)) [0; 1; 2]%nat = [1; 200; 100] /\
    (key (rd h1 3), key (rd h2 4)) = (Some "sk-c", Some "sk-b").
Proof.
  eexists _, _. split; [vm_compute; reflexivity|]. split; [vm_compute; reflexivity|].
  repeat split; reflexivity.
Qed.

(** ** The pool as constructed *)

Lemma split_not_nil (sep : ascii) (s : string) : JsString.split sep s <> [].
Proof.
  induction s as [|c s IH]; simpl; [discriminate|].
  destruct (Ascii.eqb c sep); [discriminate|].
  destruct (JsString.split sep s); [contradiction|discriminate].
Qed.

Lemma filter_none {A : Type} (f : A -> bool) (l : list A) :
  (forall x, In x l -> f x = false) -> List.filter f l = [].
Proof.
  induction l as [|a l IH]; intros H; simpl; auto.
  rewrite (H a) by (simpl; auto). apply IH. intros x Hx. apply H. simpl; auto.
Qed.

(** X11.  A pool that has just been constructed has at least one record and
    all of them are enabled, unchecked and without GPT-4: [anyAvailable] is
    true and [anyUnchecked] is the [checkKeys] setting.  A model whose name
    starts with [gpt-4] is refused with the GPT-4 message.  Any other model
    gets a new object holding the secret of the first configured entry,
    enabled, with [lastUsed] the time of the call; the pool's first record
    has that [lastUsed] too and the other records are as they were. *)
Theorem fresh_pool_serves_first_entry (s model : string) (now : Z) :
  JsString.isEmpty (JsString.trim s) = false ->
  exists p h first,
    KeyPool.constructor (Some s) [] = Ok (p, h) /\
    List.hd_error (KeyPool.keys p) = Some first /\
    KeyPool.anyAvailable p h = true /\
    (forall checkKeys, KeyPool.anyUnchecked checkKeys p h = checkKeys) /\
    (String.prefix "gpt-4" model = true ->
     KeyPool.get model now p h
     = Throw (Error "No GPT-4 keys available. Please add more keys or use a non-GPT-4 model.")) /\
    (String.prefix "gpt-4" model = false ->
     exists r h',
       KeyPool.get model now p h = Ok (r, h') /\
       ~ In r (KeyPool.keys p) /\
       key (rd h' r) = Some (JsString.trim (List.hd EmptyString (JsString.split "," s))) /\
       lastUsed (rd h' r) = now /\
       isDisabled (rd h' r) = false /\
       lastUsed (rd h' first) = now /\
       key (rd h' first) = key (rd h' r) /\
       (forall l, In l (KeyPool.keys p) -> l <> first -> rd h' l = rd h l)).
Proof.
  intros E. pose proof (constructor_ok s [] E) as Hc. cbv zeta in Hc.
  pose proof (constructor_wf _ _ _ _ Hc) as W.
  pose proof (constructor_records _ _ _ _ Hc) as Hrec.
  destruct (JsString.split "," s) as [|e0 es] eqn:Es; [destruct (split_not_nil _ _ Es)|].
  simpl in Hc, W, Hrec |- *.
  set (p := KeyPool.mk (0%nat :: seq 1 (length (List.map JsString.trim es)))) in *.
  set (h := mkObj (KeyPool.newKey (JsString.trim e0)) false
            :: List.map (fun k => mkObj (KeyPool.newKey k) false) (List.map JsString.trim es)) in *.
  assert (In 0%nat (KeyPool.keys p)) as H0 by (simpl; auto).
  exists p, h, 0%nat. split; [exact Hc|]. split; [reflexivity|].
  split; [|split; [|split]].
  - apply List.existsb_exists. exists 0%nat. split; [exact H0|]. reflexivity.
  - intros c. unfold KeyPool.anyUnchecked.
    replace (List.existsb _ _) with true; [apply andb_true_r|].
    symmetry. apply List.existsb_exists. exists 0%nat. split; [exact H0|]. reflexivity.
  - intros Hm. unfold KeyPool.get.
    change (KeyPool.needsGpt4 model) with (String.prefix "gpt-4" model). rewrite Hm.
    rewrite availableKeys_filter, filter_none; [reflexivity|].
    intros x Hx. destruct (Hrec x Hx) as [e He]. unfold usable. rewrite He. reflexivity.
  - intros Hm.
    assert (KeyPool.needsGpt4 model = false) as Hm' by exact Hm.
    destruct (get_cases model now p h W)
      as [[Eav _]|[(t0 & k & F & _ & _)|(_ & o & k & F & Hk & G)]].
    + exfalso. rewrite availableKeys_filter in Eav.
      pose proof (filter_nil_none _ _ 0%nat Eav H0) as C.
      unfold usable in C. rewrite Hm' in C. discriminate C.
    + exfalso. destruct (firstWith_In _ _ _ F) as [Hin Hok].
      apply andb_prop in Hok as [_ Htr]. destruct (Hrec t0 Hin) as [e He].
      rewrite He in Htr. discriminate.
    + assert (o = 0%nat) as ->.
      { destruct F as (i & Hi & Hok & _ & Hlt). destruct i as [|i].
        - simpl in Hi. inversion Hi. reflexivity.
        - exfalso. specialize (Hlt 0%nat 0%nat). simpl in Hlt.
          assert (usable (KeyPool.needsGpt4 model) h 0 = true) as U0
            by (unfold usable; rewrite Hm'; reflexivity).
          specialize (Hlt ltac:(lia) eq_refl U0).
          destruct (Hrec o (lookup_In _ _ _ Hi)) as [e He]. rewrite He in Hlt.
          simpl in Hlt. lia. }
      simpl in Hk. inversion Hk; subst k. clear Hk.
      eexists _, _. split; [exact G|].
      assert (forall y, In y (KeyPool.keys p) ->
                rd (<[0%nat := mkObj (set_lastUsed now (KeyPool.newKey (JsString.trim e0))) false]> h
                      ++ [mkObj (set_lastUsed now (KeyPool.newKey (JsString.trim e0))) false]) y
                = if Nat.eqb y 0 then set_lastUsed now (KeyPool.newKey (JsString.trim e0))
                  else rd h y) as Hrd.
      { intros y Hy. rewrite rd_app by (rewrite length_insert; eapply wf_below; eauto).
        apply (rd_insert_cases h 0%nat (KeyPool.newKey (JsString.trim e0))). reflexivity. }
      split; [intros Hin; pose proof (wf_below p h _ W Hin); lia|].
      rewrite rd_copy, (Hrd 0%nat H0).
      do 5 (split; [reflexivity|]).
      intros l Hl Hne. rewrite (Hrd l Hl). apply Nat.eqb_neq in Hne. rewrite Hne. reflexivity.
Qed.

Lemma fresh_pool_serves_first_entry_witness :
  (exists p h,
     KeyPool.constructor (Some " sk-a , sk-b") [] = Ok (p, h) /\
     KeyPool.anyAvailable p h = true /\
     KeyPool.get "gpt-4-32k" 100 p h
     = Throw (Error "No GPT-4 keys available. Please add more keys or use a non-GPT-4 model.")) /\
  (exists p h r h',
     KeyPool.constructor (Some " sk-a , sk-b") [] = Ok (p, h) /\
     KeyPool.get "gpt-3.5-turbo" 100 p h = Ok (r, h') /\
     key (rd h' r) = Some "sk-a" /\
     lastUsed (rd h' r) = 100 /\
     isDisabled (rd h' r) = false).
Proof.
  split.
  - destruct (fresh_pool_serves_first_entry " sk-a , sk-b" "gpt-4-32k" 100 eq_refl)
      as (p & h & first & Hc & _ & Ha & _ & Hg4 & _).
    exists p, h. split; [exact Hc|]. split; [exact Ha|]. apply Hg4. reflexivity.
  - destruct (fresh_pool_serves_first_entry " sk-a , sk-b" "gpt-3.5-turbo" 100 eq_refl)
      as (p & h & first & Hc & _ & _ & _ & _ & Hg).
    destruct (Hg eq_refl) as (r & h' & G & _ & Hk & Hl & Hd & _).
    exists p, h, r, h'. split; [exact Hc|]. split; [exact G|].
    split; [exact Hk|]. split; [exact Hl|exact Hd].
Defined.

(** ** More on the quota fraction *)

(** X12.  Whenever the key set summed over has a positive total limit and
    no negative usage or limit, the quota fraction is a finite number
    between 0 and 1; a key over its limit counts as exactly used up. *)
Theorem quota_between_0_and_1 (gpt4Only : bool) (p : KeyPool.t) (h : heap) :
  nonNegative h (quotaKeys gpt4Only p h) ->
  (0 < KeyPool.totalLimit h (quotaKeys gpt4Only p h))%Q ->
  exists q, KeyPool.calculateRemainingQuota gpt4Only p h = Fin q /\ (0 <= q /\ q <= 1)%Q.
Proof. apply quota_in_unit_interval. Qed.

Lemma quota_between_0_and_1_witness :
  nonNegative DemoQuota.checkedPaid (quotaKeys false Demo.pool3 DemoQuota.checkedPaid) /\
  (0 < KeyPool.totalLimit DemoQuota.checkedPaid (quotaKeys false Demo.pool3 DemoQuota.checkedPaid))%Q /\
  exists q, KeyPool.calculateRemainingQuota false Demo.pool3 DemoQuota.checkedPaid = Fin q /\
            (0 <= q /\ q <= 1)%Q.
Proof.
  assert (nonNegative DemoQuota.checkedPaid (quotaKeys false Demo.pool3 DemoQuota.checkedPaid)) as N.
  { intros l Hl. simpl in Hl.
    destruct Hl as [<-|[<-|[<-|[]]]]; split; vm_compute; discriminate. }
  assert (0 < KeyPool.totalLimit DemoQuota.checkedPaid
                (quotaKeys false Demo.pool3 DemoQuota.checkedPaid))%Q as P
    by (vm_compute; reflexivity).
  split; [exact N|]. split; [exact P|].
  apply (quota_between_0_and_1 false Demo.pool3 DemoQuota.checkedPaid N P).
Defined.

(** The value there: usage 5/2 of 120 and 95 capped at 80, of a total limit
    of 200. *)
Example quota_checked_paid :
  exists q, KeyPool.calculateRemainingQuota false Demo.pool3 DemoQuota.checkedPaid = Fin q /\
            Qeq q (235 # 400).
Proof. eexists. split; [vm_compute; reflexivity|]. reflexivity. Qed.

Lemma fold_left_ext_in {A B : Type} (f g : A -> B -> A) (l : list B) (a : A) :
  (forall acc x, In x l -> f acc x = g acc x) ->
  List.fold_left f l a = List.fold_left g l a.
Proof.
  revert a. induction l as [|x l IH]; intros a H; simpl; auto.
  rewrite H by (simpl; auto). apply IH. intros acc y Hy. apply H. simpl; auto.
Qed.

(** The fraction only depends on [isGpt4], [usage] and [hardLimit] of the
    pool's records. *)
Lemma quota_ext (gpt4Only : bool) (p : KeyPool.t) (h h' : heap) :
  (forall l, In l (KeyPool.keys p) -> sameQuotaFields (rd h l) (rd h' l)) ->
  KeyPool.calculateRemainingQuota gpt4Only p h' = KeyPool.calculateRemainingQuota gpt4Only p h.
Proof.
  intros H. unfold KeyPool.calculateRemainingQuota.
  assert ((if gpt4Only then List.filter (fun l => isGpt4 (rd h' l)) (KeyPool.keys p)
           else KeyPool.keys p)
          = (if gpt4Only then List.filter (fun l => isGpt4 (rd h l)) (KeyPool.keys p)
             else KeyPool.keys p)) as Eks.
  { destruct gpt4Only; auto. apply List.filter_ext_in. intros l Hl. apply (H l Hl). }
  rewrite Eks. set (ks := if gpt4Only then _ else _).
  assert (forall l, In l ks -> In l (KeyPool.keys p)) as Hsub.
  { unfold ks. destruct gpt4Only; auto. intros l Hl. apply List.filter_In in Hl. tauto. }
  assert (KeyPool.totalUsage h' ks = KeyPool.totalUsage h ks) as ->.
  { apply fold_left_ext_in. intros acc l Hl.
    destruct (H l (Hsub l Hl)) as (_ & -> & ->). reflexivity. }
  assert (KeyPool.totalLimit h' ks = KeyPool.totalLimit h ks) as ->.
  { apply fold_left_ext_in. intros acc l Hl.
    destruct (H l (Hsub l Hl)) as (_ & _ & ->). reflexivity. }
  reflexivity.
Qed.

Lemma sameQuota_write (p : KeyPool.t) (h h' : heap) (l0 : loc) (f : Key -> Key) :
  wf p h -> In l0 (KeyPool.keys p) -> (forall k, sameQuotaFields k (f k)) ->
  write l0 f h = Ok h' ->
  forall l, In l (KeyPool.keys p) -> sameQuotaFields (rd h l) (rd h' l).
Proof.
  intros [_ Hlive] Hin Hf Hw l Hl. destruct (Hlive l0 Hin) as [k0 Hk0].
  rewrite (write_live _ _ _ _ Hk0) in Hw. inversion Hw; subst.
  rewrite (rd_insert_cases _ _ _ _ _ Hk0). destruct (Nat.eqb l l0) eqn:E.
  - apply Nat.eqb_eq in E. subst. rewrite (rd_lookup _ _ _ _ Hk0). apply Hf.
  - repeat split.
Qed.

Lemma perform_sameQuota (c : History.call) (p : KeyPool.t) (h h' : heap) :
  wf p h -> leavesQuota c = true -> History.perform c p h = Ok h' ->
  forall l, In l (KeyPool.keys p) -> sameQuotaFields (rd h l) (rd h' l).
Proof.
  intros W Hc. destruct c as [model now|kh u now|arg|kh|kh|]; simpl in *; try discriminate.
  - destruct (get_cases model now p h W)
      as [[_ G]|[(t0 & k & F & Hk & G)|(_ & o & k & F & Hk & G)]]; rewrite G.
    + discriminate.
    + intros [= <-]. destruct (firstWith_In _ _ _ F) as [Hin _].
      apply (sameQuota_write p h _ t0 (set_lastUsed now) W Hin).
      * intros x. repeat split.
      * apply write_live. exact Hk.
    + intros [= <-] l Hl. destruct F as (i & Hi & _). pose proof (lookup_In _ _ _ Hi) as Hin.
      rewrite rd_app by (rewrite length_insert; eapply wf_below; eauto).
      revert l Hl. apply (sameQuota_write p h _ o (set_lastUsed now) W Hin).
      * intros x. repeat split.
      * apply write_live. exact Hk.
  - unfold KeyPool.disable.
    destruct (List.find _ _) as [l0|] eqn:F; [|discriminate].
    destruct (isDisabled (rd h l0)).
    + intros [= <-] l Hl. repeat split.
    + apply (sameQuota_write p h h' l0 (set_isDisabled true) W (find_In _ _ _ F)).
      intros x. repeat split.
  - unfold KeyPool.incrementPrompt, KeyPool.findByHash.
    destruct kh as [kh|]; [|intros [= <-] l Hl; repeat split].
    destruct (JsString.isEmpty kh); [intros [= <-] l Hl; repeat split|].
    destruct (List.find _ _) as [l0|] eqn:F; [|discriminate].
    apply (sameQuota_write p h h' l0 (fun o => set_promptCount (promptCount o + 1) o) W
             (find_In _ _ _ F)).
    intros x. repeat split.
  - rewrite (list_store p h W). simpl. intros [= <-] l Hl.
    rewrite rd_app by (eapply wf_below; eauto). repeat split.
Qed.

(** X13.  Selecting a key, counting a prompt, disabling a key and listing
    the keys do not move the quota fraction: it is computed from [isGpt4],
    [usage] and [hardLimit] alone, so a disabled key's usage and limit go
    on counting. *)
Theorem quota_ignores_selection_and_disabling (c : History.call) (gpt4Only : bool)
    (p : KeyPool.t) (h : heap) :
  wf p h ->
  leavesQuota c = true ->
  KeyPool.calculateRemainingQuota gpt4Only p (History.after p h c)
  = KeyPool.calculateRemainingQuota gpt4Only p h.
Proof.
  intros W Hc. unfold History.after.
  destruct (History.perform c p h) as [h'|e] eqn:E; [|reflexivity].
  apply quota_ext. eapply perform_sameQuota; eauto.
Qed.

Lemma quota_ignores_selection_and_disabling_witness :
  wf Demo.pool3 DemoQuota.checkedPaid /\
  isDisabled (rd (History.after Demo.pool3 DemoQuota.checkedPaid (History.Disable 2%nat)) 2) = true /\
  KeyPool.calculateRemainingQuota false Demo.pool3
    (History.after Demo.pool3 DemoQuota.checkedPaid (History.Disable 2%nat))
  = KeyPool.calculateRemainingQuota false Demo.pool3 DemoQuota.checkedPaid.
Proof.
  assert (wf Demo.pool3 DemoQuota.checkedPaid) as W by (apply wfb_wf; reflexivity).
  split; [exact W|]. split; [reflexivity|].
  apply (quota_ignores_selection_and_disabling (History.Disable 2%nat) false
           Demo.pool3 DemoQuota.checkedPaid W).
  reflexivity.
Defined.

(** ** The info page's figures *)

Lemma map_rd_seq (h os : heap) :
  List.map (rd (h ++ os)) (seq (length h) (length os)) = List.map fields os.
Proof.
  revert h. induction os as [|o os IH]; intros h; simpl; [reflexivity|].
  rewrite rd_app_new. f_equal.
  specialize (IH (h ++ [o])). rewrite length_app in IH. simpl in IH.
  replace (length h + 1)%nat with (S (length h)) in IH by lia.
  rewrite <- app_assoc in IH. simpl in IH. exact IH.
Qed.

Lemma filter_map_length {A B : Type} (P : B -> bool) (f : A -> B) (l : list A) :
  length (List.filter (fun x => P (f x)) l) = length (List.filter P (List.map f l)).
Proof.
  induction l as [|a l IH]; simpl; auto. destruct (P (f a)); simpl; rewrite IH; reflexivity.
Qed.

Lemma fold_left_map_sum {A B : Type} (c : B -> Z) (f : A -> B) (l : list A) (a : Z) :
  List.fold_left (fun acc x => acc + c (f x)) l a
  = List.fold_left (fun acc y => acc + c y) (List.map f l) a.
Proof. revert a. induction l as [|x l IH]; intros a; simpl; auto. Qed.

(** X14.  The figures of the info page are those of the pool: the number of
    records, of records not disabled, of trial records, of GPT-4 records,
    and the sum of the prompt counts; computing them goes through [list]
    and leaves every object that was in the store as it was. *)
Theorem info_page_counts_the_pool (p : KeyPool.t) (h : heap) :
  wf p h ->
  exists h',
    InfoPage.keysInfo p h
    = (InfoPage.mkKeyInfo
         (length (KeyPool.keys p))
         (length (List.filter (fun l => negb (isDisabled (rd h l))) (KeyPool.keys p)))
         (length (List.filter (fun l => isTrial (rd h l)) (KeyPool.keys p)))
         (length (List.filter (fun l => isGpt4 (rd h l)) (KeyPool.keys p)))
         (List.fold_left (fun acc l => acc + promptCount (rd h l)) (KeyPool.keys p) 0),
       h') /\
    (forall l, (l < length h)%nat -> h' !! l = h !! l).
Proof.
  intros W. unfold InfoPage.keysInfo. rewrite (list_store p h W).
  set (os := List.map (fun l => mkObj (set_key None (rd h l)) true) (KeyPool.keys p)).
  assert (length os = length (KeyPool.keys p)) as Hlen by apply List.length_map.
  rewrite <- Hlen.
  assert (List.map (rd (h ++ os)) (seq (length h) (length os))
          = List.map (fun l => set_key None (rd h l)) (KeyPool.keys p)) as Hmap.
  { rewrite map_rd_seq. unfold os. rewrite List.map_map. reflexivity. }
  exists (h ++ os). split.
  - f_equal. f_equal.
    + apply length_seq.
    + rewrite (filter_map_length (fun k => negb (isDisabled k))), Hmap,
        <- (filter_map_length (fun k => negb (isDisabled k))). reflexivity.
    + rewrite (filter_map_length isTrial), Hmap, <- (filter_map_length isTrial). reflexivity.
    + rewrite (filter_map_length isGpt4), Hmap, <- (filter_map_length isGpt4). reflexivity.
    + rewrite (fold_left_map_sum promptCount), Hmap, <- (fold_left_map_sum promptCount).
      reflexivity.
  - intros l Hl. apply lookup_app_l. exact Hl.
Qed.

Lemma info_page_counts_the_pool_witness :
  wf Demo.pool3 DemoQuota.checkedPaid /\
  exists h',
    InfoPage.keysInfo Demo.pool3 DemoQuota.checkedPaid = (InfoPage.mkKeyInfo 3 2 0 1 4, h').
Proof.
  assert (wf Demo.pool3 DemoQuota.checkedPaid) as W by (apply wfb_wf; reflexivity).
  split; [exact W|].
  destruct (info_page_counts_the_pool Demo.pool3 DemoQuota.checkedPaid W) as (h' & E & _).
  exists h'. exact E.
Defined.

(** ** Counting prompts and downgrading *)


(** X15.  [incrementPrompt] does nothing when the hash is absent or empty.
    With the hash of some record, the prompt count of the first such record
    of the pool is one more afterwards, its other fields are as they were
    and nothing else in the store has changed.  With a hash that no record
    has it throws a [TypeError]. *)
Theorem incrementPrompt_spec (keyHash : option string) (p : KeyPool.t) (h : heap) :
  wf p h ->
  (keyHash = None \/ keyHash = Some EmptyString -> KeyPool.incrementPrompt keyHash p h = Ok h) /\
  (forall s l, keyHash = Some s -> s <> EmptyString ->
     firstWith (hasHash s h) (KeyPool.keys p) l ->
     exists h', KeyPool.incrementPrompt keyHash p h = Ok h' /\
                promptCount (rd h' l) = promptCount (rd h l) + 1 /\
                sameButPromptCount (rd h l) (rd h' l) /\
                (forall l', l' <> l -> h' !! l' = h !! l')) /\
  (forall s, keyHash = Some s -> s <> EmptyString ->
     (forall l, In l (KeyPool.keys p) -> hash (rd h l) <> s) ->
     exists message, KeyPool.incrementPrompt keyHash p h = Throw (TypeError message)).
Proof.
  intros [_ Hlive].
  assert (forall s, s <> EmptyString -> JsString.isEmpty s = false) as Hemp
    by (intros [|c s] H; [congruence|reflexivity]).
  split; [|split].
  - intros [->| ->]; reflexivity.
  - intros s l -> Hs F. pose proof F as F'. apply find_firstWith in F'.
    destruct (firstWith_In _ _ _ F) as [Hin _]. destruct (Hlive l Hin) as [k Hk].
    unfold KeyPool.incrementPrompt, KeyPool.findByHash. rewrite (Hemp s Hs).
    unfold hasHash in F'. rewrite F'.
    rewrite (write_live l (fun o => set_promptCount (promptCount o + 1) o) _ k Hk).
    eexists. split; [reflexivity|].
    rewrite (rd_insert_cases _ _ _ _ _ Hk), Nat.eqb_refl, (rd_lookup _ _ _ _ Hk).
    split; [reflexivity|]. split; [unfold sameButPromptCount; simpl; repeat split|].
    intros l' Hne. apply list_lookup_insert_ne. congruence.
  - intros s -> Hs Hnone. unfold KeyPool.incrementPrompt, KeyPool.findByHash.
    rewrite (Hemp s Hs).
    replace (List.find _ _) with (@None loc); [eauto|].
    symmetry. apply find_none_iff. intros x Hx. apply String.eqb_neq. auto.
Qed.

Lemma incrementPrompt_spec_witness :
  wf Demo.pool3 Demo.paid /\
  KeyPool.incrementPrompt None Demo.pool3 Demo.paid = Ok Demo.paid /\
  exists h', KeyPool.incrementPrompt (Some "18519d") Demo.pool3 Demo.paid = Ok h' /\
             promptCount (rd h' 1) = promptCount (rd Demo.paid 1) + 1 /\
             sameButPromptCount (rd Demo.paid 1) (rd h' 1) /\
             (forall l', l' <> 1%nat -> h' !! l' = Demo.paid !! l').
Proof.
  assert (wf Demo.pool3 Demo.paid) as W by (apply wfb_wf; reflexivity).
  split; [exact W|]. split.
  - apply (incrementPrompt_spec None Demo.pool3 Demo.paid W). left. reflexivity.
  - apply (proj1 (proj2 (incrementPrompt_spec (Some "18519d") Demo.pool3 Demo.paid W))
             "18519d" 1%nat); [reflexivity|discriminate|].
    apply find_firstWith. vm_compute. reflexivity.
Defined.






(** An [update] that reports GPT-4 sets [isGpt4] back on: the downgraded
    record is served to a GPT-4 model again. *)
Example update_restores_gpt4 :
  let h := History.afterAll [History.DowngradeKey (Some "923e70");
                             History.Update "923e70" Demo.checked 150]
             Demo.pool3 Demo.twoGpt4 in
  isGpt4 (rd h 2) = true /\
  exists h2, KeyPool.get "gpt-4" 200 Demo.pool3 h = Ok (3%nat, h2) /\
             key (rd h2 3) = Some "sk-c".
Proof. vm_compute. split; [reflexivity|]. eexists. split; reflexivity. Qed.

(** ** The rewriter pipeline *)

Section PipelineFacts.
Variable state : Type.
Variable rs : Rewrite.rewriters state.
Variable destroy : exn -> state -> state.

(** X17.  [rewriteRequest] runs [addKey], [transformKoboldPayload],
    [languageFilter], [disableStream], [limitOutputTokens] and
    [finalizeBody], in this order and each on the state the one before
    left.  When none throws, the request is what [finalizeBody] left and it
    is not destroyed.  When one throws, the request is destroyed with that
    error in the state that rewriter left, and none of the later rewriters
    runs, whatever it would have done. *)
Theorem pipeline_stops_at_first_throw (s0 s1 s2 s3 s4 s5 s6 : state) :
  (Rewrite.addKey state rs s0 = (s1, None) ->
   Rewrite.transformKoboldPayload state rs s1 = (s2, None) ->
   Rewrite.languageFilter state rs s2 = (s3, None) ->
   Rewrite.disableStream state rs s3 = (s4, None) ->
   Rewrite.limitOutputTokens state rs s4 = (s5, None) ->
   Rewrite.finalizeBody state rs s5 = (s6, None) ->
   Rewrite.rewriteRequest state rs destroy s0 = s6) /\
  (forall e, Rewrite.addKey state rs s0 = (s1, Some e) ->
     Rewrite.rewriteRequest state rs destroy s0 = destroy e s1) /\
  (forall e, Rewrite.addKey state rs s0 = (s1, None) ->
     Rewrite.transformKoboldPayload state rs s1 = (s2, Some e) ->
     Rewrite.rewriteRequest state rs destroy s0 = destroy e s2) /\
  (forall e, Rewrite.addKey state rs s0 = (s1, None) ->
     Rewrite.transformKoboldPayload state rs s1 = (s2, None) ->
     Rewrite.languageFilter state rs s2 = (s3, Some e) ->
     Rewrite.rewriteRequest state rs destroy s0 = destroy e s3) /\
  (forall e, Rewrite.addKey state rs s0 = (s1, None) ->
     Rewrite.transformKoboldPayload state rs s1 = (s2, None) ->
     Rewrite.languageFilter state rs s2 = (s3, None) ->
     Rewrite.disableStream state rs s3 = (s4, Some e) ->
     Rewrite.rewriteRequest state rs destroy s0 = destroy e s4) /\
  (forall e, Rewrite.addKey state rs s0 = (s1, None) ->
     Rewrite.transformKoboldPayload state rs s1 = (s2, None) ->
     Rewrite.languageFilter state rs s2 = (s3, None) ->
     Rewrite.disableStream state rs s3 = (s4, None) ->
     Rewrite.limitOutputTokens state rs s4 = (s5, Some e) ->
     Rewrite.rewriteRequest state rs destroy s0 = destroy e s5) /\
  (forall e, Rewrite.addKey state rs s0 = (s1, None) ->
     Rewrite.transformKoboldPayload state rs s1 = (s2, None) ->
     Rewrite.languageFilter state rs s2 = (s3, None) ->
     Rewrite.disableStream state rs s3 = (s4, None) ->
     Rewrite.limitOutputTokens state rs s4 = (s5, None) ->
     Rewrite.finalizeBody state rs s5 = (s6, Some e) ->
     Rewrite.rewriteRequest state rs destroy s0 = destroy e s6).
Proof.
  unfold Rewrite.rewriteRequest, Rewrite.rewriterPipeline. simpl.
  repeat split; intros;
    repeat match goal with
           | H : _ = (_, _) |- _ => rewrite H; clear H
           end; reflexivity.
Qed.

End PipelineFacts.

Lemma pipeline_stops_at_first_throw_witness :
  Rewrite.rewriteRequest (list string) DemoRewrite.passing DemoRewrite.destroy []
  = ["addKey"; "transformKoboldPayload"; "languageFilter"; "disableStream";
     "limitOutputTokens"; "finalizeBody"] /\
  Rewrite.rewriteRequest (list string) DemoRewrite.filtered DemoRewrite.destroy []
  = ["addKey"; "transformKoboldPayload"; "languageFilter"; "destroy"] /\
  Rewrite.rewriteRequest (list string) DemoRewrite.capped DemoRewrite.destroy []
  = ["addKey"; "transformKoboldPayload"; "languageFilter"; "disableStream";
     "limitOutputTokens"; "destroy"].
Proof.
  split; [|split].
  - apply (pipeline_stops_at_first_throw (list string) DemoRewrite.passing DemoRewrite.destroy
             [] ["addKey"] ["addKey"; "transformKoboldPayload"]
             ["addKey"; "transformKoboldPayload"; "languageFilter"]
             ["addKey"; "transformKoboldPayload"; "languageFilter"; "disableStream"]
             ["addKey"; "transformKoboldPayload"; "languageFilter"; "disableStream";
              "limitOutputTokens"]
             ["addKey"; "transformKoboldPayload"; "languageFilter"; "disableStream";
              "limitOutputTokens"; "finalizeBody"]); reflexivity.
  - apply (proj1 (proj2 (proj2 (proj2
             (pipeline_stops_at_first_throw (list string) DemoRewrite.filtered DemoRewrite.destroy
                [] ["addKey"] ["addKey"; "transformKoboldPayload"]
                ["addKey"; "transformKoboldPayload"; "languageFilter"] [] [] []))))
             (Error "Language not allowed")); reflexivity.
  - apply (proj1 (proj2 (proj2 (proj2 (proj2 (proj2
             (pipeline_stops_at_first_throw (list string) DemoRewrite.capped DemoRewrite.destroy
                [] ["addKey"] ["addKey"; "transformKoboldPayload"]
                ["addKey"; "transformKoboldPayload"; "languageFilter"]
                ["addKey"; "transformKoboldPayload"; "languageFilter"; "disableStream"]
                ["addKey"; "transformKoboldPayload"; "languageFilter"; "disableStream";
                 "limitOutputTokens"] []))))))
             (Error "Too many tokens")); reflexivity.
Defined.

(** ** More on the response stage *)

(** X18.  Once the status has passed and the prompt is counted, the stage
    either sends the whole translated body, and then every step (decoding,
    parsing, reading the completion) has succeeded, or it throws and leaves
    the client response exactly as the copying of the headers left it, with
    nothing sent; either way the store is the one the accounting left. *)
Theorem stage_sends_all_or_nothing (rt : Runtime) (keyPool : KeyPool.t)
    (proxyRes : IncomingMessage) (req : Request) (w w1 : World) (h2 : heap) :
  handleDownstreamErrors rt proxyRes req w = Passed w1 ->
  Kobold.incrementKeyUsage keyPool req (store w1) = Ok h2 ->
  (forall e w', Kobold.handleProxiedResponse rt keyPool proxyRes req w = Kobold.Rejected e w' ->
     store w' = h2 /\ res w' = afterCopy rt proxyRes w1 /\ sent (res w') = sent (res w1)) /\
  (forall w', Kobold.handleProxiedResponse rt keyPool proxyRes req w = Kobold.Completed w' ->
     store w' = h2 /\
     exists text response content model,
       Kobold.decodeBody rt (contentEncoding proxyRes)
         (String.concat EmptyString (chunks proxyRes)) = Ok text /\
       JSON_parse rt text = Ok response /\
       Kobold.completionOf response = Ok content /\
       Json.getProp response "model" = Ok model /\
       res w' = Kobold.sendEncoded rt (contentEncoding proxyRes)
                  (Json.stringify (Kobold.koboldResponse content model))
                  (afterCopy rt proxyRes w1)) /\
  (forall w', Kobold.handleProxiedResponse rt keyPool proxyRes req w <> Kobold.TakenOver w').
Proof.
  intros H1 H2. rewrite (stage_passed _ _ _ _ _ _ _ H1 H2).
  destruct (Kobold.onEnd rt (contentEncoding proxyRes) (chunks proxyRes)
              (afterCopy rt proxyRes w1)) as [res3|e0] eqn:E.
  - split; [intros e w' C; discriminate C|]. split; [|intros w' C; discriminate C].
    intros w' [= <-]. split; [reflexivity|]. simpl.
    unfold Kobold.onEnd in E.
    destruct (Kobold.decodeBody _ _ _) as [text|] eqn:E1; simpl in E; [|discriminate].
    destruct (JSON_parse rt text) as [response|] eqn:E2; simpl in E; [|discriminate].
    destruct (Kobold.completionOf response) as [content|] eqn:E3; simpl in E; [|discriminate].
    destruct (Json.getProp response "model") as [model|] eqn:E4; simpl in E; [|discriminate].
    inversion E. exists text, response, content, model. auto.
  - split; [|split; [intros w' C; discriminate C|intros w' C; discriminate C]].
    intros e w' [= <- <-]. simpl. auto.
Qed.

Lemma stage_sends_all_or_nothing_witness :
  exists message w',
    Kobold.handleProxiedResponse Ref.runtime Demo.pool1
      (DemoStage.upstream (Some "gzip") DemoStage.completion) DemoStage.request
      (DemoStage.world Demo.fresh)
    = Kobold.Rejected (ZlibError message) w' /\
    store w' = Demo.counted /\ sent (res w') = None.
Proof.
  assert (handleDownstreamErrors Ref.runtime
            (DemoStage.upstream (Some "gzip") DemoStage.completion) DemoStage.request
            (DemoStage.world Demo.fresh) = Passed (DemoStage.world Demo.fresh)) as H1
    by reflexivity.
  assert (Kobold.incrementKeyUsage Demo.pool1 DemoStage.request
            (store (DemoStage.world Demo.fresh)) = Ok Demo.counted) as H2
    by (vm_compute; reflexivity).
  destruct (stage_sends_all_or_nothing Ref.runtime Demo.pool1 _ _ _ _ _ H1 H2) as (Hrej & _ & _).
  eexists _, _. split; [vm_compute; reflexivity|].
  destruct (Hrej (ZlibError "incorrect header check")
                 (mkWorld Demo.counted
                    (afterCopy Ref.runtime (DemoStage.upstream (Some "gzip") DemoStage.completion)
                               (DemoStage.world Demo.fresh))))
    as (Hs & _ & Hn); [vm_compute; reflexivity|].
  split; [exact Hs|exact Hn].
Defined.

(** X19.  Every response with a success status counts exactly one prompt,
    whatever its body: when the request carries a key whose hash some pool
    record has, the first such record's prompt count has gone up by one once
    the stage is through, completed or not, and no other object of the
    store has changed. *)
Theorem stage_counts_one_prompt (rt : Runtime) (keyPool : KeyPool.t)
    (proxyRes : IncomingMessage) (req : Request) (w w1 : World) (k l : loc) :
  wf keyPool (store w1) ->
  handleDownstreamErrors rt proxyRes req w = Passed w1 ->
  req_key req = Some k ->
  JsString.isEmpty (hash (rd (store w1) k)) = false ->
  firstWith (hasHash (hash (rd (store w1) k)) (store w1)) (KeyPool.keys keyPool) l ->
  let w' := Kobold.worldOf (Kobold.handleProxiedResponse rt keyPool proxyRes req w) in
  promptCount (rd (store w') l) = promptCount (rd (store w1) l) + 1 /\
  (forall l', l' <> l -> store w' !! l' = store w1 !! l').
Proof.
  intros W H1 Hk Hne F w'. pose proof W as [_ Hlive].
  pose proof F as F'. apply find_firstWith in F'.
  destruct (firstWith_In _ _ _ F) as [Hin _]. destruct (Hlive l Hin) as [x Hx].
  assert (Kobold.incrementKeyUsage keyPool req (store w1)
          = Ok (<[l := mkObj (set_promptCount (promptCount x + 1) x) false]> (store w1))) as H2.
  { unfold Kobold.incrementKeyUsage, KeyPool.incrementPrompt, KeyPool.findByHash.
    rewrite Hk, Hne. unfold hasHash in F'. rewrite F'.
    exact (write_live l (fun o => set_promptCount (promptCount o + 1) o) _ x Hx). }
  assert (store w' = <[l := mkObj (set_promptCount (promptCount x + 1) x) false]> (store w1)) as Hs.
  { unfold w'. rewrite (stage_passed _ _ _ _ _ _ _ H1 H2).
    destruct (Kobold.onEnd _ _ _ _); reflexivity. }
  rewrite Hs. split.
  - rewrite (rd_insert_cases _ _ _ _ _ Hx), Nat.eqb_refl, (rd_lookup _ _ _ _ Hx). reflexivity.
  - intros l' Hl'. apply list_lookup_insert_ne. congruence.
Qed.

Lemma stage_counts_one_prompt_witness :
  wf Demo.pool1 Demo.fresh /\
  promptCount
    (rd (store (Kobold.worldOf
                  (Kobold.handleProxiedResponse Ref.runtime Demo.pool1
                     (DemoStage.upstream None "not json") DemoStage.request
                     (DemoStage.world Demo.fresh)))) 0)
  = promptCount (rd Demo.fresh 0) + 1.
Proof.
  assert (wf Demo.pool1 Demo.fresh) as W by (apply wfb_wf; reflexivity).
  split; [exact W|].
  apply (stage_counts_one_prompt Ref.runtime Demo.pool1 (DemoStage.upstream None "not json")
           DemoStage.request (DemoStage.world Demo.fresh) (DemoStage.world Demo.fresh)
           0%nat 0%nat W); try reflexivity.
  apply find_firstWith. vm_compute. reflexivity.
Defined.

(** ** The form of hashes and secrets *)

Lemma hexDigit_isHex (n : N) : (n < 16)%N -> isHexString (String (Sha256.hexDigit n) EmptyString) = true.
Proof.
  intros H. rewrite <- (N2Nat.id n).
  assert (N.to_nat n < 16)%nat as Hm by lia.
  revert Hm. generalize (N.to_nat n). intros m Hm.
  do 16 (destruct m as [|m]; [reflexivity|]). lia.
Qed.

Lemma nibble_lt (x : N) (i : N) : (N.land (N.shiftr x i) 0xf < 16)%N.
Proof.
  change 0xf%N with (N.ones 4). rewrite N.land_ones. apply N.mod_lt. discriminate.
Qed.

Lemma isHexString_cons (c : ascii) (s : string) :
  isHexString (String c EmptyString) = true -> isHexString s = true ->
  isHexString (String c s) = true.
Proof. simpl. rewrite andb_true_r. intros -> ->. reflexivity. Qed.

Lemma slice6_hex32 (x : N) (rest : string) :
  let s := JsString.slice0 6 (String.append (Sha256.hex32 x) rest) in
  String.length s = 6%nat /\ isHexString s = true.
Proof.
  cbv zeta. unfold JsString.slice0, Sha256.hex32.
  cbn [List.map string_of_list_ascii String.append String.substring String.length].
  split; [reflexivity|].
  repeat (apply isHexString_cons; [apply hexDigit_isHex, nibble_lt|]). reflexivity.
Qed.

Lemma newKey_hash_form (k : string) :
  String.length (hash (KeyPool.newKey k)) = 6%nat /\
  isHexString (hash (KeyPool.newKey k)) = true.
Proof.
  unfold KeyPool.newKey. cbn [hash]. unfold Sha256.digestHex. cbv zeta.
  generalize (List.fold_left Sha256.compress
                (Sha256.blocks (length (Sha256.pad (Sha256.bytes_of k)))
                   (Sha256.words (length (Sha256.pad (Sha256.bytes_of k)))
                      (Sha256.pad (Sha256.bytes_of k))))
                Sha256.init).
  intros r. cbn [String.concat]. apply slice6_hex32.
Qed.

(** X20.  The hash of every record of a constructed pool is six lower-case
    hexadecimal digits, and stays so whatever calls follow. *)
Theorem hashes_are_six_hex_digits (openaiKey : option string) (h0 : heap) (p : KeyPool.t)
    (h : heap) (cs : list History.call) (l : loc) :
  KeyPool.constructor openaiKey h0 = Ok (p, h) ->
  In l (KeyPool.keys p) ->
  String.length (hash (rd (History.afterAll cs p h) l)) = 6%nat /\
  isHexString (hash (rd (History.afterAll cs p h) l)) = true.
Proof.
  intros Hc Hl. destruct (constructor_records _ _ _ _ Hc l Hl) as [e He].
  pose proof (constructor_wf _ _ _ _ Hc) as W.
  destruct (afterAll_keeps cs p h W) as (_ & _ & Hev & _).
  destruct (Hev l Hl) as (_ & Hh & _). rewrite Hh, He. apply newKey_hash_form.
Qed.

Lemma hashes_are_six_hex_digits_witness :
  String.length (hash (rd (History.afterAll sampleHistory Demo.pool1 Demo.fresh) 0)) = 6%nat /\
  isHexString (hash (rd (History.afterAll sampleHistory Demo.pool1 Demo.fresh) 0)) = true.
Proof.
  apply (hashes_are_six_hex_digits (Some "sk-a") [] Demo.pool1 Demo.fresh sampleHistory 0%nat).
  - vm_compute. reflexivity.
  - simpl. auto.
Defined.

Lemma trimStart_head (s : string) (c : ascii) (r : string) :
  JsString.trimStart s = String c r -> JsString.isWhiteSpace c = false.
Proof.
  induction s as [|a s IH]; simpl; [discriminate|].
  destruct (JsString.isWhiteSpace a) eqn:E; auto. intros [= <- _]. exact E.
Qed.

Lemma trimEnd_head (c : ascii) (r : string) :
  JsString.isWhiteSpace c = false -> exists r', JsString.trimEnd (String c r) = String c r'.
Proof.
  intros E. simpl. destruct (JsString.trimEnd r); [rewrite E|]; eauto.
Qed.

Lemma trimEnd_idem (s : string) : JsString.trimEnd (JsString.trimEnd s) = JsString.trimEnd s.
Proof.
  induction s as [|c s IH]; simpl; [reflexivity|].
  destruct (JsString.trimEnd s) as [|d r] eqn:E.
  - destruct (JsString.isWhiteSpace c) eqn:Ec; simpl; [reflexivity|]. rewrite Ec. reflexivity.
  - simpl in IH |- *. destruct (JsString.trimEnd r) as [|d' r'] eqn:Er.
    + destruct (JsString.isWhiteSpace d); [discriminate|]. rewrite IH. reflexivity.
    + rewrite IH. reflexivity.
Qed.

Lemma trim_idem (s : string) : JsString.trim (JsString.trim s) = JsString.trim s.
Proof.
  unfold JsString.trim. destruct (JsString.trimStart s) as [|c r] eqn:E; [reflexivity|].
  pose proof (trimStart_head _ _ _ E) as Hc.
  destruct (trimEnd_head c r Hc) as [r' Hr']. rewrite Hr'.
  simpl JsString.trimStart. rewrite Hc. rewrite <- Hr'. apply trimEnd_idem.
Qed.

Lemma hasChar_trimStart (x : ascii) (s : string) :
  hasChar x s = false -> hasChar x (JsString.trimStart s) = false.
Proof.
  induction s as [|c s IH]; simpl; auto. intros H. apply orb_false_elim in H as [H1 H2].
  destruct (JsString.isWhiteSpace c); auto. simpl. rewrite H1, H2. reflexivity.
Qed.

Lemma hasChar_trimEnd (x : ascii) (s : string) :
  hasChar x s = false -> hasChar x (JsString.trimEnd s) = false.
Proof.
  induction s as [|c s IH]; simpl; auto. intros H. apply orb_false_elim in H as [H1 H2].
  specialize (IH H2). destruct (JsString.trimEnd s) as [|d r].
  - destruct (JsString.isWhiteSpace c); simpl; auto. rewrite H1. reflexivity.
  - change (hasChar x (String c (String d r)) = false).
    simpl in IH |- *. rewrite H1, IH. reflexivity.
Qed.

Lemma split_no_separator (sep : ascii) (s piece : string) :
  In piece (JsString.split sep s) -> hasChar sep piece = false.
Proof.
  revert piece. induction s as [|c s IH]; intros piece; simpl.
  - intros [<-|[]]. reflexivity.
  - destruct (Ascii.eqb c sep) eqn:E.
    + intros [<-|H]; [reflexivity|auto].
    + destruct (JsString.split sep s) as [|q qs].
      * intros [<-|[]]. simpl. rewrite E. reflexivity.
      * intros [<-|H].
        -- simpl. rewrite E. simpl. apply IH. simpl; auto.
        -- apply IH. simpl; auto.
Qed.

Lemma constructor_records_in (s : string) (h0 : heap) (p : KeyPool.t) (h : heap) :
  KeyPool.constructor (Some s) h0 = Ok (p, h) ->
  forall l, In l (KeyPool.keys p) ->
    exists piece, In piece (JsString.split "," s) /\
                  rd h l = KeyPool.newKey (JsString.trim piece).
Proof.
  destruct (JsString.isEmpty (JsString.trim s)) eqn:E.
  - unfold KeyPool.constructor. rewrite E. discriminate.
  - rewrite (constructor_ok s h0 E). intros [= <- <-] l Hl. simpl in Hl.
    apply in_seq in Hl. unfold rd. rewrite lookup_app_r by lia. rewrite !lookup_map.
    rewrite List.length_map in Hl.
    destruct (JsString.split "," s !! (l - length h0)%nat) as [piece|] eqn:Ee; simpl.
    + exists piece. split; [eapply lookup_In; eauto|reflexivity].
    + apply lookup_ge_None in Ee. lia.
Qed.

(** X21.  The secret of every record of a constructed pool is one entry of
    the configured list with the white space around it removed: it has no
    comma in it and trimming it again changes nothing. *)
Theorem secrets_are_trimmed_entries (s : string) (h0 : heap) (p : KeyPool.t) (h : heap)
    (l : loc) :
  KeyPool.constructor (Some s) h0 = Ok (p, h) ->
  In l (KeyPool.keys p) ->
  exists piece secret,
    In piece (JsString.split "," s) /\
    secret = JsString.trim piece /\
    key (rd h l) = Some secret /\
    JsString.trim secret = secret /\
    hasChar "," secret = false.
Proof.
  intros Hc Hl. destruct (constructor_records_in _ _ _ _ Hc l Hl) as (piece & Hin & Hr).
  exists piece, (JsString.trim piece). split; [exact Hin|]. split; [reflexivity|].
  split; [rewrite Hr; reflexivity|]. split; [apply trim_idem|].
  unfold JsString.trim. apply hasChar_trimEnd, hasChar_trimStart.
  eapply split_no_separator; eauto.
Qed.

Lemma secrets_are_trimmed_entries_witness :
  exists p h piece secret,
    KeyPool.constructor (Some "  sk-a ,sk-b  ") [] = Ok (p, h) /\
    In piece (JsString.split "," "  sk-a ,sk-b  ") /\
    secret = JsString.trim piece /\
    key (rd h 1) = Some secret /\
    JsString.trim secret = secret /\
    hasChar "," secret = false.
Proof.
  pose (p := KeyPool.mk [0%nat; 1%nat]).
  pose (h := [mkObj (KeyPool.newKey "sk-a") false; mkObj (KeyPool.newKey "sk-b") false]).
  assert (KeyPool.constructor (Some "  sk-a ,sk-b  ") [] = Ok (p, h)) as Hc
    by (vm_compute; reflexivity).
  destruct (secrets_are_trimmed_entries "  sk-a ,sk-b  " [] p h 1%nat Hc) as (piece & secret & H);
    [simpl; auto|].
  exists p, h, piece, secret. split; [exact Hc|exact H].
Defined.
